(** * runpipeline.c: a pipeline of programs connected by anonymous pipes

    A shallow embedding of [src/runpipeline.c] and the properties of its
    parser, pipe builder, launcher and collector.

    The C program talks to the operating system through [pipe], [fork],
    [dup2], [close], [execvp], [waitpid] and [exit].  The embedding is a
    state-and-exit monad over an explicit model of what those calls act on:
    the descriptor table of the calling process, the processes forked so
    far, and a trace of the calls made and of the lines written to the
    diagnostic stream. *)

From stdpp Require Import base numbers option list strings gmap fin_maps fin_sets.

Local Open Scope Z_scope.

(** ** Constants of the source *)

Definition MAX_NUM_PROGRAMS : nat := 10.
Definition FD_STDIN : Z := 0.
Definition FD_STDOUT : Z := 1.
Definition EXIT_FAILURE : Z := 1.

(** ** The operating-system side *)

(** What an open descriptor refers to: something the process was started
    with, or one end of the [p]-th pipe created by this process. *)
Inductive File : Type :=
| Inherited (n : nat)
| PipeR (p : nat)
| PipeW (p : nat).

Global Instance File_eq_dec : EqDecision File.
Proof. solve_decision. Defined.

(** How a process ends, and the raw status word [waitpid] stores for it
    (the Linux encoding of <bits/waitstatus.h>: exit code in bits 8..15,
    terminating signal in bits 0..6, core flag in bit 7). *)
Inductive termination : Type :=
| Exited (code : Z)
| Signaled (sig : Z) (core : bool).

Definition wstatus (t : termination) : Z :=
  match t with
  | Exited code => Z.shiftl (Z.land code 255) 8
  | Signaled sig core => Z.lor (Z.land sig 127) (if core then 128 else 0)
  end.

Definition WEXITSTATUS (status : Z) : Z := Z.shiftr (Z.land status 65280) 8.
Definition WTERMSIG (status : Z) : Z := Z.land status 127.
Definition WIFEXITED (status : Z) : bool := WTERMSIG status =? 0.

(** Calls and diagnostic lines, in the order the process makes them. *)
Inductive line : Type :=
| Error (s : string)
| Starting (i : nat) (name : string)
| Waiting (i : nat) (name : string)
| ExitedWith (i : nat) (name : string) (status : Z)
| EverythingIsGood.

Inductive event : Type :=
| EPipe (rv : Z) (r w : Z)
| EFork (rv : Z)
| EDup2 (oldfd newfd rv : Z)
| EClose (fd rv : Z)
| EExecvp (file : string) (args : list string)
| EWaitpid (pid rv : Z)
| EStderr (l : line).

(** How a computation stops: it returns a value, the process calls
    [exit], or the process image is replaced by [execvp]. *)
Inductive outcome (A : Type) : Type :=
| Ret (a : A)
| Exit (code : Z)
| Exec (file : string) (args : list string).
Arguments Ret {A} a.
Arguments Exit {A} code.
Arguments Exec {A} file args.

(** [typedef struct program_tag { ... } Program;] *)
Record Program : Type := mkProgram {
  argv : list string;
  argc : nat;
  pid : Z;
  fd_in : Z;
  fd_out : Z
}.

(** A forked process, as the parent and the properties see it: its pid,
    the calls it made after the fork, the descriptor table it ended with
    and how its run of this program's code stopped. *)
Record Child : Type := mkChild {
  c_pid : Z;
  c_trace : list event;
  c_fds : gmap Z File;
  c_end : outcome unit
}.

(** The state of one process.  [progs] is the initialised prefix of the
    array [programs] of [main]; the entries after it are uninitialised
    memory that the program never reads. *)
Record State : Type := mkState {
  progs : list Program;
  fds : gmap Z File;
  npipes : nat;
  children : list Child;
  reaped : list Z;
  trace : list event
}.

(** The part of the system that the program does not change: the limit on
    open descriptors (descriptors are numbered below it), the number of
    processes that may still be created, the pid of the first child, which
    files [execvp] can run, how a running image terminates, and for which
    pids [waitpid] reports an error. *)
Record OS : Type := mkOS {
  nofile : nat;
  nproc : nat;
  base_pid : positive;
  can_exec : string → bool;
  fate : Z → termination;
  wait_fails : Z → bool
}.

Definition set_progs (f : list Program → list Program) (s : State) : State :=
  mkState (f (progs s)) (fds s) (npipes s) (children s) (reaped s) (trace s).
Definition set_fds (f : gmap Z File → gmap Z File) (s : State) : State :=
  mkState (progs s) (f (fds s)) (npipes s) (children s) (reaped s) (trace s).
Definition emit (e : event) (s : State) : State :=
  mkState (progs s) (fds s) (npipes s) (children s) (reaped s) (trace s ++ [e]).

(** ** The monad *)

Definition M (A : Type) : Type := State → outcome A * State.

Definition ret {A} (a : A) : M A := λ s, (Ret a, s).

Definition bind {A B} (m : M A) (k : A → M B) : M B := λ s,
  match m s with
  | (Ret a, s') => k a s'
  | (Exit code, s') => (Exit code, s')
  | (Exec file args, s') => (Exec file args, s')
  end.

Notation "x <- m ;; k" := (bind m (λ x, k))
  (at level 100, m at next level, right associativity).
Notation "m ;;; k" := (bind m (λ _, k))
  (at level 100, right associativity).

Definition get {A} (f : State → A) : M A := λ s, (Ret (f s), s).
Definition modify (f : State → State) : M unit := λ s, (Ret tt, f s).
Definition when (b : bool) (m : M unit) : M unit := if b then m else ret tt.

(** [for (int i = lo; i < hi; i ++) body(i);] *)
Fixpoint for_each (l : list nat) (body : nat → M unit) : M unit :=
  match l with
  | [] => ret tt
  | i :: l' => body i ;;; for_each l' body
  end.

Definition for_range (lo hi : nat) (body : nat → M unit) : M unit :=
  for_each (seq lo (hi - lo)) body.

Section Program.

Variable os : OS.

(** ** System calls *)

(** The lowest descriptor number below the limit that is not open. *)
Definition lowest_free (t : gmap Z File) : option Z :=
  snd <$> list_find (λ fd, t !! fd = None) (seqZ 0 (Z.of_nat (nofile os))).

(** [pipe(fd)]: the read end, then the write end, each on the lowest free
    descriptor; [-1] and [fd] untouched when the table is full. *)
Definition pipe (fd : Z * Z) : M (Z * (Z * Z)) := λ s,
  match lowest_free (fds s) with
  | None => (Ret (-1, fd), emit (EPipe (-1) (fd.1) (fd.2)) s)
  | Some r =>
    let t := <[r := PipeR (npipes s)]> (fds s) in
    match lowest_free t with
    | None => (Ret (-1, fd), emit (EPipe (-1) (fd.1) (fd.2)) s)
    | Some w =>
      (Ret (0, (r, w)),
       mkState (progs s) (<[w := PipeW (npipes s)]> t) (S (npipes s))
               (children s) (reaped s) (trace s ++ [EPipe 0 r w]))
    end
  end.

(** [dup2(oldfd, newfd)]. *)
Definition dup2 (oldfd newfd : Z) : M Z := λ s,
  match fds s !! oldfd with
  | Some f =>
    if bool_decide (0 ≤ newfd < Z.of_nat (nofile os)) then
      (Ret newfd, emit (EDup2 oldfd newfd newfd) (set_fds (<[newfd := f]>) s))
    else (Ret (-1), emit (EDup2 oldfd newfd (-1)) s)
  | None => (Ret (-1), emit (EDup2 oldfd newfd (-1)) s)
  end.

(** [close(fd)]. *)
Definition close (fd : Z) : M Z := λ s,
  match fds s !! fd with
  | Some _ => (Ret 0, emit (EClose fd 0) (set_fds (delete fd) s))
  | None => (Ret (-1), emit (EClose fd (-1)) s)
  end.

(** [execvp(file, argv)]: does not return when the file can be run. *)
Definition execvp (file : string) (args : list string) : M Z := λ s,
  if can_exec os file then (Exec file args, emit (EExecvp file args) s)
  else (Ret (-1), emit (EExecvp file args) s).

(** [exit(code)]. *)
Definition exit {A} (code : Z) : M A := λ s, (Exit code, s).

(** [fork()].  The child starts as a copy of the caller (memory and
    descriptor table) with no children of its own; [child] is the code the
    child runs, the branch of the caller taken when [fork] returns 0, which
    must end in [exit] or [execvp].  The value returned here is the one the
    parent sees: the new pid, or [-1]. *)
Definition forked (p : Z) (child : M Empty_set) (s : State) : Child :=
  let r := child (mkState (progs s) (fds s) (npipes s) [] [] []) in
  mkChild p (trace r.2) (fds r.2)
    match r.1 with
    | Ret e => match e with end
    | Exit code => Exit code
    | Exec file args => Exec file args
    end.

Definition fork (child : M Empty_set) : M Z := λ s,
  if bool_decide (length (children s) < nproc os)%nat then
    let p := Z.pos (base_pid os) + Z.of_nat (length (children s)) in
    (Ret p, mkState (progs s) (fds s) (npipes s)
                    (children s ++ [forked p child s])
                    (reaped s) (trace s ++ [EFork p]))
  else (Ret (-1), emit (EFork (-1)) s).

(** How a forked process terminates: with the code it passed to [exit], or
    as the image it became does. *)
Definition child_termination (c : Child) : termination :=
  match c_end c with
  | Exit code => Exited code
  | _ => fate os (c_pid c)
  end.

Definition find_child (p : Z) (cs : list Child) : option Child :=
  snd <$> list_find (λ c, c_pid c = p) cs.

(** [waitpid(pid, &status, 0)] for a positive [pid]: the pid and the status
    word of that child, once; [-1] (and no status) when it is not a child
    of the caller, was already waited for, or the call fails. *)
Definition waitpid (p : Z) : M (Z * Z) := λ s,
  match find_child p (children s) with
  | Some c =>
    if bool_decide (p ∈ reaped s) || wait_fails os p
    then (Ret (-1, 0), emit (EWaitpid p (-1)) s)
    else (Ret (p, wstatus (child_termination c)),
          mkState (progs s) (fds s) (npipes s) (children s) (p :: reaped s)
                  (trace s ++ [EWaitpid p p]))
  | None => (Ret (-1, 0), emit (EWaitpid p (-1)) s)
  end.

Definition eprint (l : line) : M unit := modify (emit (EStderr l)).

(** ** The program *)

(** [die]: the message goes to the diagnostic stream and the process exits
    with [EXIT_FAILURE].  (The extra [perror] line when [errno] is set is
    not modelled.) *)
Definition die {A} (s : string) : M A :=
  eprint (Error s) ;;; exit EXIT_FAILURE.

Definition check_return_value (rv : Z) (s : string) : M unit :=
  when (rv <? 0) (die s).

(** [programs[i]], and assignments to the fields of [programs[i]].  An
    index past the initialised entries is not a defined access in C; the
    program never makes one (see [store_program] and the launch lemmas). *)
Definition null_program : Program := mkProgram [] 0 0 0 0.

Definition prog_at (i : nat) : M Program :=
  get (λ s, default null_program (progs s !! i)).

Definition set_pid (i : nat) (v : Z) : M unit :=
  modify (set_progs (alter (λ p, mkProgram (argv p) (argc p) v (fd_in p) (fd_out p)) i)).
Definition set_fd_in (i : nat) (v : Z) : M unit :=
  modify (set_progs (alter (λ p, mkProgram (argv p) (argc p) (pid p) v (fd_out p)) i)).
Definition set_fd_out (i : nat) (v : Z) : M unit :=
  modify (set_progs (alter (λ p, mkProgram (argv p) (argc p) (pid p) (fd_in p) v) i)).
Definition set_args (i : nat) (a : list string) (n : nat) : M unit :=
  modify (set_progs (alter (λ p, mkProgram a n (pid p) (fd_in p) (fd_out p)) i)).

(** The body of the loop of the child that closes the pipe descriptors:
    those of [programs[i]]. *)
Definition close_stage (i : nat) : M unit :=
  p <- prog_at i ;;
  when (0 <=? fd_in p)
    (rv <- close (fd_in p) ;;
     check_return_value rv "close()") ;;;
  when (0 <=? fd_out p)
    (rv <- close (fd_out p) ;;
     check_return_value rv "close()").

(** The child's side of [start_program]: the branch [child == 0]. *)
Definition start_program_child (num_programs cur : nat) : M Empty_set :=
  prog <- prog_at cur ;;
  when (0 <? cur)%nat
    (rv <- dup2 (fd_in prog) FD_STDIN ;;
     check_return_value rv "dup2()") ;;;
  when (negb (Z.of_nat cur =? Z.of_nat num_programs - 1))
    (rv <- dup2 (fd_out prog) FD_STDOUT ;;
     check_return_value rv "dup2()") ;;;
  (* close all other pipe FDs *)
  for_range cur num_programs close_stage ;;;
  execvp (hd "" (argv prog)) (argv prog) ;;;
  die "execvp() failed.".

Definition start_program (num_programs cur : nat) : M unit :=
  child <- fork (start_program_child num_programs cur) ;;
  if child <? 0 then die "fork() failed."
  else
    (* parent *)
    set_pid cur child ;;;
    prog <- prog_at cur ;;
    when ((0 <? cur)%nat && (0 <=? fd_in prog))
      (rv <- close (fd_in prog) ;;
       check_return_value rv "close()") ;;;
    when (negb (Z.of_nat cur =? Z.of_nat num_programs - 1) && (0 <=? fd_out prog))
      (rv <- close (fd_out prog) ;;
       check_return_value rv "close()") ;;;
    set_fd_in cur (-1) ;;;
    set_fd_out cur (-1).

Definition wait_on_program (prog : Program) : M Z :=
  if pid prog <? 0 then ret (-1)
  else
    r <- waitpid (pid prog) ;;
    let '(rv, exitStatus) := r in
    if negb (rv =? pid prog) then ret (-1)
    else ret (WEXITSTATUS exitStatus).

Definition prepare_pipes (num_programs : nat) : M unit :=
  for_range 1 num_programs (λ i,
    r <- pipe (0, 0) ;;
    let '(status, fd) := r in
    when (negb (status =? 0)) (die "pipe() failed.") ;;;
    set_fd_out (i - 1) (fd.2) ;;;
    set_fd_in i (fd.1)).

(** [init_program(&progs[i], argc)]: room for the arguments ([malloc] is
    taken to succeed) and an entry with no arguments, no process and no
    descriptors.  Writing entry [i] extends the initialised prefix when [i]
    is the first entry after it. *)
Definition init_program (i : nat) (n : nat) : M unit :=
  modify (set_progs (λ l,
    let p := mkProgram [] 0 (-1) (-1) (-1) in
    if (i <? length l)%nat then <[i := p]> l else l ++ [p])).

Definition free_programs (num_programs : nat) : M unit :=
  for_range 0 num_programs (λ i,
    modify (set_progs (alter (λ p,
      mkProgram [] (argc p) (pid p) (fd_in p) (fd_out p)) i))).

Definition strcmp (a b : string) : Z :=
  match String.compare a b with
  | Eq => 0
  | Lt => -1
  | Gt => 1
  end.

(** The inner loop of [parse_command_line],
    [while (cur_arg < argc && strcmp(argv[cur_arg], "--"))
       progs[prog_count].argv[ia++] = argv[cur_arg++];]
    from [cur_arg] with the arguments [out] copied so far ([ia] is their
    number): the value of [cur_arg] after the loop and the arguments
    copied.  [fuel] bounds the iterations; [argc - cur_arg] is enough. *)
Fixpoint copy_args (fuel : nat) (cl_argc : nat) (cl_argv : list string)
    (cur_arg : nat) (out : list string) : nat * list string :=
  match fuel with
  | O => (cur_arg, out)
  | S fuel' =>
    let a := default "" (cl_argv !! cur_arg) in
    if (cur_arg <? cl_argc)%nat && negb (strcmp a "--" =? 0)
    then copy_args fuel' cl_argc cl_argv (S cur_arg) (out ++ [a])
    else (cur_arg, out)
  end.

(** The outer loop of [parse_command_line], from [cur_arg] and
    [prog_count].  [fuel] bounds the iterations; every iteration advances
    [cur_arg], so [argc - cur_arg] is enough (see [parse_loop_fuel]). *)
Fixpoint parse_loop (fuel : nat) (max_num_progs cl_argc : nat)
    (cl_argv : list string) (cur_arg prog_count : nat) : M nat :=
  if (cur_arg <? cl_argc)%nat then
    match fuel with
    | O => ret prog_count
    | S fuel' =>
      when (prog_count =? max_num_progs)%nat (die "Too many programs.") ;;;
      init_program prog_count cl_argc ;;;
      let r := copy_args (cl_argc - cur_arg) cl_argc cl_argv cur_arg [] in
      let ia := length (r.2) in
      set_args prog_count (r.2) ia ;;;
      when (ia =? 0)%nat (die "Empty program.") ;;;
      when (S (r.1) =? cl_argc)%nat (die "Last program is empty.") ;;;
      parse_loop fuel' max_num_progs cl_argc cl_argv (S (r.1)) (S prog_count)
    end
  else ret prog_count.

Definition parse_command_line (max_num_progs cl_argc : nat)
    (cl_argv : list string) : M nat :=
  parse_loop cl_argc max_num_progs cl_argc cl_argv 1 0.

(** The body of the loop of [main] that spawns the children. *)
Definition spawn_child (num_programs i : nat) : M unit :=
  p <- prog_at i ;;
  eprint (Starting i (hd "" (argv p))) ;;;
  start_program num_programs i.

(** The body of the loop of [main] that waits for the children. *)
Definition wait_for_child (i : nat) : M unit :=
  p <- prog_at i ;;
  eprint (Waiting i (hd "" (argv p))) ;;;
  status <- wait_on_program p ;;
  eprint (ExitedWith i (hd "" (argv p)) status).

(** [main].  The array [programs] starts with no initialised entry;
    [argc] is the length of [argv]. *)
Definition main (cl_argv : list string) : M Z :=
  let cl_argc := length cl_argv in
  modify (set_progs (λ _, [])) ;;;
  when (cl_argc <=? 1)%nat
    (die "Specify at least one program to run. Multiple programs are separated by --") ;;;
  num_programs <- parse_command_line MAX_NUM_PROGRAMS cl_argc cl_argv ;;
  prepare_pipes num_programs ;;;
  for_range 0 num_programs (spawn_child num_programs) ;;;
  for_range 0 num_programs wait_for_child ;;;
  free_programs num_programs ;;;
  eprint EverythingIsGood ;;;
  ret 0.

End Program.

(** ** The parser, on delimiter-separated groups *)

(** The groups of a token list: the maximal runs of tokens between
    delimiters, in order (as many groups as delimiters, plus one). *)
Fixpoint split_groups (l : list string) : list (list string) :=
  match l with
  | [] => [[]]
  | t :: l' =>
    if decide (t = "--") then [] :: split_groups l'
    else match split_groups l' with
         | g :: gs => (t :: g) :: gs
         | [] => [[t]]
         end
  end.

(** The program entry that the parser stores for a group. *)
Definition stage_of (g : list string) : Program :=
  mkProgram g (length g) (-1) (-1) (-1).

(** What the loop of [parse_command_line] does, told on the groups that
    remain to be read ([count] programs are stored already). *)
Fixpoint scan_groups (max_num_progs count : nat) (gs : list (list string))
    (s : State) : outcome nat * State :=
  match gs with
  | [] => (Ret count, s)
  | g :: gs' =>
    if (count =? max_num_progs)%nat
    then (Exit EXIT_FAILURE, emit (EStderr (Error "Too many programs.")) s)
    else
      let s1 := set_progs (λ l, l ++ [stage_of g]) s in
      if decide (g = [])
      then (Exit EXIT_FAILURE, emit (EStderr (Error "Empty program.")) s1)
      else match gs' with
           | [] => (Ret (S count), s1)
           | [[]] => (Exit EXIT_FAILURE,
                      emit (EStderr (Error "Last program is empty.")) s1)
           | _ => scan_groups max_num_progs (S count) gs' s1
           end
  end.

(** How the scan of the groups ends. *)
Inductive verdict : Type :=
| Accepted
| TooManyPrograms
| EmptyProgram
| LastProgramEmpty.

Fixpoint classify (max_num_progs count : nat) (gs : list (list string)) : verdict :=
  match gs with
  | [] => Accepted
  | g :: gs' =>
    if (count =? max_num_progs)%nat then TooManyPrograms
    else if decide (g = []) then EmptyProgram
    else match gs' with
         | [] => Accepted
         | [[]] => LastProgramEmpty
         | _ => classify max_num_progs (S count) gs'
         end
  end.

Definition diagnostic (v : verdict) : list event :=
  match v with
  | Accepted => []
  | TooManyPrograms => [EStderr (Error "Too many programs.")]
  | EmptyProgram => [EStderr (Error "Empty program.")]
  | LastProgramEmpty => [EStderr (Error "Last program is empty.")]
  end.

(** *** The verdict, read off the groups *)

Definition all_nonempty (gs : list (list string)) : Prop :=
  Forall (λ g, g ≠ []) gs.

(** Every group has an argument and there is room for all of them. *)
Definition accept_cond (max_num_progs count : nat) (gs : list (list string)) : Prop :=
  all_nonempty gs ∧ (count + length gs ≤ max_num_progs)%nat.

(** The groups that fit are non-empty, and something other than a lone
    final delimiter comes after them. *)
Definition too_many_cond (max_num_progs count : nat) (gs : list (list string)) : Prop :=
  (max_num_progs < count + length gs)%nat ∧
  all_nonempty (take (max_num_progs - count) gs) ∧
  drop (max_num_progs - count) gs ≠ [[]].

(** The first empty group is among those that fit and a delimiter ends it. *)
Definition empty_cond (max_num_progs count : nat) (gs : list (list string)) : Prop :=
  ∃ j, (count + j < max_num_progs)%nat ∧ gs !! j = Some [] ∧
       all_nonempty (take j gs) ∧ (S j < length gs)%nat.

(** The last token is a delimiter, and the groups before it are non-empty
    and fit. *)
Definition last_cond (max_num_progs count : nat) (gs : list (list string)) : Prop :=
  ∃ gs0, gs = gs0 ++ [[]] ∧ gs0 ≠ [] ∧ all_nonempty gs0 ∧
         (count + length gs0 ≤ max_num_progs)%nat.


(** ** States of the pipeline *)

(** The process as [execve] leaves it: descriptor table [t], no pipe
    created, no child, nothing traced. *)
Definition boot (t : gmap Z File) : State := mkState [] t 0 [] [] [].

(** The descriptors a stage holds, as the closing loop of the child tests
    them, and those of all stages from [cur] on, in the order of that loop. *)
Definition stage_fds (p : Program) : list Z :=
  (if 0 <=? fd_in p then [fd_in p] else []) ++
  (if 0 <=? fd_out p then [fd_out p] else []).

Definition open_ends (cur : nat) (l : list Program) : list Z :=
  flat_map stage_fds (drop cur l).

(** The stages [a ≤ i < b] are connected: stage [i ≥ 1] holds in [fd_in]
    the read end of pipe [i-1], stage [i] with [i+1 < b] holds in [fd_out]
    the write end of pipe [i] (never descriptor 0: the read end of a pipe
    is allocated first), where pipe [k] is the [(p0+k)]-th pipe the
    process created; these descriptors were not open in [t0], and the
    descriptor table is [t0] plus exactly these. *)
Definition connected (t0 : gmap Z File) (p0 a b : nat) (s : State) : Prop :=
  (∀ i p, progs s !! i = Some p → (a ≤ i)%nat → (1 ≤ i)%nat → (i < b)%nat →
     0 ≤ fd_in p ∧ fds s !! fd_in p = Some (PipeR (p0 + i - 1)) ∧
     t0 !! fd_in p = None) ∧
  (∀ i p, progs s !! i = Some p → (a ≤ i)%nat → (i + 1 < b)%nat →
     0 < fd_out p ∧ fds s !! fd_out p = Some (PipeW (p0 + i)) ∧
     t0 !! fd_out p = None) ∧
  (∀ fd f, fds s !! fd = Some f →
     t0 !! fd = Some f ∨
     ∃ i p, progs s !! i = Some p ∧ (a ≤ i)%nat ∧
            (((1 ≤ i)%nat ∧ (i < b)%nat ∧ fd = fd_in p) ∨
             ((i + 1 < b)%nat ∧ fd = fd_out p))) ∧
  t0 ⊆ fds s.

(** The first stage has no input descriptor and the last no output
    descriptor. *)
Definition edges_unwired (n : nat) (s : State) : Prop :=
  (∀ p, progs s !! 0%nat = Some p → fd_in p = -1) ∧
  (∀ p, progs s !! (n - 1)%nat = Some p → fd_out p = -1).

(** The pids of the children are those [fork] hands out, in order. *)
Definition pids_in_order (os : OS) (s : State) : Prop :=
  ∀ j c, children s !! j = Some c → c_pid c = Z.pos (base_pid os) + Z.of_nat j.

(** The part of a trace that tells the life of the children: the forks,
    the waits and the diagnostic lines. *)
Definition lifecycle (e : event) : bool :=
  match e with
  | EFork _ | EWaitpid _ _ | EStderr _ => true
  | _ => false
  end.

Definition story (tr : list event) : list event := filter lifecycle tr.

(** What [main] reports for a child: [-1] when waiting for it fails, the
    exit-status byte of its status word otherwise. *)
Definition report (os : OS) (c : Child) : Z :=
  if wait_fails os (c_pid c) then -1
  else WEXITSTATUS (wstatus (child_termination os c)).

(** What [prepare_pipes] and the launches leave alone in the array. *)
Definition same_stages (l l' : list Program) : Prop :=
  (λ p, (argv p, argc p, pid p)) <$> l = (λ p, (argv p, argc p, pid p)) <$> l'.

(** The state of [prepare_pipes], started in [s0] on [n] programs, when
    its loop is about to run with index [i]: the stages before [i] are
    connected by the [i - 1] pipes created so far, which is all that
    happened. *)
Definition piping (os : OS) (s0 : State) (n i : nat) (s : State) : Prop :=
  length (progs s) = n ∧
  ((1 < i)%nat → (2 ≤ nofile os)%nat) ∧
  connected (fds s0) (npipes s0) 0 i s ∧
  edges_unwired n s ∧
  npipes s = (npipes s0 + (i - 1))%nat ∧
  size (fds s) = (size (fds s0) + 2 * (i - 1))%nat ∧
  same_stages (progs s) (progs s0) ∧
  children s = children s0 ∧
  reaped s = reaped s0 ∧
  ∃ evs, trace s = trace s0 ++ evs ∧ length evs = (i - 1)%nat ∧
         Forall (λ e, ∃ r w, e = EPipe 0 r w) evs.

(** The stages as [init_program] leaves them: no descriptor assigned. *)
Definition fresh_stages (l : list Program) : Prop :=
  Forall (λ p, fd_in p = -1 ∧ fd_out p = -1) l.

(** The table after closing the descriptors of [l], in order. *)
Definition close_all (l : list Z) (t : gmap Z File) : gmap Z File :=
  foldl (λ t fd, delete fd t) t l.

(** The descriptors the parent closes in [start_program]. *)
Definition parent_closes (n cur : nat) (prog : Program) : list Z :=
  (if (0 <? cur)%nat then [fd_in prog] else []) ++
  (if (cur + 1 <? n)%nat then [fd_out prog] else []).

(** The state in which [main] launches stage [cur] of [n]: the stages from
    [cur] on are connected and hold all the pipe ends still open. *)
Definition launching (t0 : gmap Z File) (p0 n cur : nat) (s : State) : Prop :=
  length (progs s) = n ∧ connected t0 p0 cur n s ∧ edges_unwired n s.

(** The redirections of the child of stage [cur]: the calls, and the
    table they make of [t] when stage [cur] is connected. *)
Definition child_dups (n cur : nat) (prog : Program) : list event :=
  (if (0 <? cur)%nat then [EDup2 (fd_in prog) FD_STDIN FD_STDIN] else []) ++
  (if (cur + 1 <? n)%nat then [EDup2 (fd_out prog) FD_STDOUT FD_STDOUT] else []).

Definition child_table (p0 n cur : nat) (t : gmap Z File) : gmap Z File :=
  let t1 := if (0 <? cur)%nat then <[FD_STDIN := PipeR (p0 + cur - 1)]> t else t in
  if (cur + 1 <? n)%nat then <[FD_STDOUT := PipeW (p0 + cur)]> t1 else t1.

(** Everything the child of stage [cur] does, forked in a state with the
    array [l]: redirections, closing of all pipe descriptors, [execvp],
    and the diagnostic when that fails. *)
Definition child_calls (os : OS) (n cur : nat) (l : list Program) : list event :=
  let prog := default null_program (l !! cur) in
  child_dups n cur prog ++
  (map (λ fd, EClose fd 0) (open_ends cur l)) ++
  [EExecvp (hd "" (argv prog)) (argv prog)] ++
  (if can_exec os (hd "" (argv prog)) then []
   else [EStderr (Error "execvp() failed.")]).

Definition child_end (os : OS) (prog : Program) : outcome unit :=
  if can_exec os (hd "" (argv prog))
  then Exec (hd "" (argv prog)) (argv prog)
  else Exit EXIT_FAILURE.

(** ** The run of [main] *)

(** The pid [fork] gives to the [j]-th process created. *)
Definition pid_of (os : OS) (j : nat) : Z :=
  Z.pos (base_pid os) + Z.of_nat j.

(** The program name [main] prints for an entry: [argv[0]]. *)
Definition name_of (p : Program) : string := hd "" (argv p).

(** [c] is the child forked for stage [j] of the array [l], as
    [prepare_pipes] left it: its pid, its calls, its end, and (when the
    process was started with descriptors 0 and 1 open) its descriptors. *)
Definition stage_child (os : OS) (t0 : gmap Z File) (p0 n : nat)
    (l : list Program) (j : nat) (c : Child) : Prop :=
  c_pid c = pid_of os j ∧
  c_trace c = child_calls os n j l ∧
  c_end c = child_end os (default null_program (l !! j)) ∧
  (is_Some (t0 !! FD_STDIN) → is_Some (t0 !! FD_STDOUT) →
   c_fds c = child_table p0 n j t0).

(** What the trace tells of the launches of the stages before [i], and of
    the waits for them given their children [cs]. *)
Definition launch_story (os : OS) (l : list Program) (i : nat) : list event :=
  flat_map (λ j, [EStderr (Starting j (name_of (default null_program (l !! j))));
                  EFork (pid_of os j)]) (seq 0 i).

Definition wait_story (os : OS) (l : list Program) (cs : list Child) (i : nat) : list event :=
  flat_map (λ j, [EStderr (Waiting j (name_of (default null_program (l !! j))));
                  EWaitpid (pid_of os j)
                    (if wait_fails os (pid_of os j) then -1 else pid_of os j);
                  EStderr (ExitedWith j (name_of (default null_program (l !! j)))
                             (default 0 (report os <$> cs !! j)))]) (seq 0 i).

(** The state of [main] when the spawning loop is about to run with index
    [i], for the array [l] and the trace [tr1] that [prepare_pipes] left. *)
Definition spawning (os : OS) (t0 : gmap Z File) (p0 n : nat)
    (l : list Program) (tr1 : list event) (i : nat) (s : State) : Prop :=
  launching t0 p0 n i s ∧
  drop i (progs s) = drop i l ∧
  (∀ j p, (j < i)%nat → l !! j = Some p →
     progs s !! j = Some (mkProgram (argv p) (argc p) (pid_of os j) (-1) (-1))) ∧
  length (children s) = i ∧
  (∀ j, (j < i)%nat → ∃ c, children s !! j = Some c ∧ stage_child os t0 p0 n l j c) ∧
  reaped s = [] ∧ npipes s = (p0 + (n - 1))%nat ∧
  story (trace s) = story tr1 ++ launch_story os l i.

(** The state of [main] when the waiting loop is about to run with index
    [i], the spawning loop having left the state [s2]. *)
Definition reaping (os : OS) (s2 : State) (i : nat) (s : State) : Prop :=
  progs s = progs s2 ∧ fds s = fds s2 ∧ npipes s = npipes s2 ∧
  children s = children s2 ∧
  (∀ q, q ∈ reaped s → ∃ j, (j < i)%nat ∧ q = pid_of os j) ∧
  story (trace s) = story (trace s2) ++ wait_story os (progs s2) (children s2) i.

(** The exit-code reports and the waits in a trace, in order. *)
Definition exit_reports (tr : list event) : list (nat * Z) :=
  omap (λ e, match e with
             | EStderr (ExitedWith i _ status) => Some (i, status)
             | _ => None
             end) tr.

Definition waits (tr : list event) : list Z :=
  omap (λ e, match e with EWaitpid p _ => Some p | _ => None end) tr.

Definition forks (tr : list event) : list Z :=
  omap (λ e, match e with EFork p => Some p | _ => None end) tr.

(** ** A concrete system and concrete command lines *)

(** Descriptors 0, 1 and 2 open; at most 16 descriptors and 8 children;
    pids from 100; every file but [nope] can be run; the process 101 is
    killed by signal 9 and the others exit with their pid minus 100;
    waiting for 102 fails. *)
Definition std_table : gmap Z File :=
  <[0 := Inherited 0]> (<[1 := Inherited 1]> (<[2 := Inherited 2]> ∅)).

Definition demo_os : OS :=
  mkOS 16 8 100
    (λ f, negb (String.eqb f "nope"))
    (λ p, if p =? 101 then Signaled 9 false else Exited (p - 100))
    (λ p, p =? 102).

Definition demo_argv : list string :=
  ["runpipeline"; "echo"; "hi"; "--"; "tr"; "a-z"; "A-Z"; "--"; "wc"].

(** The states of [main] on [demo_argv]: after parsing, after
    [prepare_pipes], and after launching stage 0. *)
Definition demo_parsed : State :=
  (parse_command_line MAX_NUM_PROGRAMS (length demo_argv) demo_argv (boot std_table)).2.
Definition demo_piped : State := (prepare_pipes demo_os 3 demo_parsed).2.
Definition demo_launched0 : State :=
  (for_range 0 1 (spawn_child demo_os 3) demo_piped).2.
Definition demo_launched01 : State :=
  (for_range 0 2 (spawn_child demo_os 3) demo_piped).2.
Definition demo_stage1 : Program := mkProgram ["tr"; "a-z"; "A-Z"] 3 (-1) 3 6.
Definition demo_stage2 : Program := mkProgram ["wc"] 1 (-1) 5 (-1).

(** The same system with room for five descriptors only. *)
Definition tight_os : OS :=
  mkOS 5 8 100 (can_exec demo_os) (fate demo_os) (wait_fails demo_os).

(** The state of [main] on [demo_argv] when all three stages are launched,
    and the entries of the array then. *)
Definition demo_running : State :=
  (for_range 0 3 (spawn_child demo_os 3) demo_piped).2.
Definition demo_entry (i : nat) : Program :=
  default null_program (progs demo_running !! i).

(** An entry that was initialised and never launched. *)
Definition never_launched : Program := mkProgram ["wc"] 1 (-1) (-1) (-1).

(** Command lines with eleven groups, with a lone delimiter, and with an
    empty group after ten groups and before an eleventh. *)
Definition eleven_argv : list string :=
  ["runpipeline"; "a"; "--"; "b"; "--"; "c"; "--"; "d"; "--"; "e"; "--"; "f";
   "--"; "g"; "--"; "h"; "--"; "i"; "--"; "j"; "--"; "k"].
Definition lone_delimiter_argv : list string := ["runpipeline"; "--"].
Definition late_empty_argv : list string :=
  ["runpipeline"; "a"; "--"; "b"; "--"; "c"; "--"; "d"; "--"; "e"; "--"; "f";
   "--"; "g"; "--"; "h"; "--"; "i"; "--"; "j"; "--"; "--"; "k"].
Definition early_empty_argv : list string :=
  ["runpipeline"; "a"; "--"; "--"; "c"; "--"; "d"; "--"; "e"; "--"; "f";
   "--"; "g"; "--"; "h"; "--"; "i"; "--"; "j"; "--"; "k"; "--"; "l"; "--"; "m"].

(** ** Command lines and parsed entries *)

(** The tokens of a list of groups: the groups in order, with a delimiter
    between two of them. *)
Fixpoint join_groups (gs : list (list string)) : list string :=
  match gs with
  | [] => []
  | g :: gs' =>
    match gs' with
    | [] => g
    | _ :: _ => g ++ "--" :: join_groups gs'
    end
  end.

(** An entry of the array as the parser leaves it on a command line of
    [cl_argc] tokens: [argc] counts the arguments stored, and they and the
    terminating null pointer fit in the [cl_argc + 1] pointers that
    [init_program] allocates; no argument is a delimiter; no process and no
    descriptor is recorded. *)
Definition parsed_entry (cl_argc : nat) (p : Program) : Prop :=
  argc p = length (argv p) ∧ (argc p < cl_argc)%nat ∧ ("--" ∉ argv p) ∧
  pid p = -1 ∧ fd_in p = -1 ∧ fd_out p = -1.

(** An entry after [free_programs]: [argv] is the null pointer. *)
Definition freed (p : Program) : Program :=
  mkProgram [] (argc p) (pid p) (fd_in p) (fd_out p).

(** ** Descriptor tables *)

(** Every open descriptor is a number below the limit. *)
Definition fds_in_range (os : OS) (t : gmap Z File) : Prop :=
  map_Forall (λ fd _, 0 ≤ fd < Z.of_nat (nofile os)) t.

(** No descriptor of the table is an end of a pipe of this process. *)
Definition is_pipe_end (f : File) : bool :=
  match f with
  | Inherited _ => false
  | PipeR _ | PipeW _ => true
  end.

Definition no_pipe_ends (t : gmap Z File) : Prop :=
  map_Forall (λ _ f, is_pipe_end f = false) t.

(** ** What every run keeps *)







(** ** Steps of the orchestrator *)

(** A computation of the orchestrator that moves the state along [R]
    however it stops, and stops by returning or by [exit(EXIT_FAILURE)]. *)
Definition steps {A} (R : relation State) (m : M A) : Prop :=
  ∀ s, R s (m s).2 ∧
       match (m s).1 with
       | Ret _ => True
       | Exit code => code = EXIT_FAILURE
       | Exec _ _ => False
       end.

(** What the parent's side of [start_program] for stage [cur] leaves
    alone once the child is forked: the pipes created, the children, the
    children waited for, the number of entries, the entries other than
    [cur] and every argument vector; the descriptor table can only lose
    descriptors and the trace only grow. *)
Definition parent_frame (cur : nat) : relation State := λ s s',
  npipes s' = npipes s ∧ children s' = children s ∧ reaped s' = reaped s ∧
  fds s' ⊆ fds s ∧
  length (progs s') = length (progs s) ∧
  (∀ j, j ≠ cur → progs s' !! j = progs s !! j) ∧
  argv <$> progs s' = argv <$> progs s ∧
  argc <$> progs s' = argc <$> progs s ∧
  trace s `prefix_of` trace s'.

(** The trace grows by events of one kind. *)
Definition traces (ok : event → Prop) : relation State := λ s s',
  ∃ tr, trace s' = trace s ++ tr ∧ Forall ok tr.

(** The events of the three phases of [main]: building the pipes,
    launching the stages, collecting them. *)
Definition setup_event (e : event) : Prop :=
  match e with
  | EPipe _ _ _ | EStderr (Error _) => True
  | _ => False
  end.

Definition launch_event (e : event) : Prop :=
  match e with
  | EFork _ | EClose _ _ | EStderr (Starting _ _) | EStderr (Error _) => True
  | _ => False
  end.

Definition collect_event (e : event) : Prop :=
  match e with
  | EWaitpid _ _ | EStderr (Waiting _ _) | EStderr (ExitedWith _ _ _)
  | EStderr EverythingIsGood => True
  | _ => False
  end.

(** A trace in which all of the setup comes first, then all of the
    launches, then all of the collecting. *)
Definition in_phases (tr : list event) : Prop :=
  ∃ tr1 tr2 tr3, tr = tr1 ++ tr2 ++ tr3 ∧
    Forall setup_event tr1 ∧ Forall launch_event tr2 ∧ Forall collect_event tr3.

(** ** More concrete systems and command lines *)

(** The concrete system with room for one more process only. *)
Definition lonely_os : OS :=
  mkOS 16 1 100 (can_exec demo_os) (fate demo_os) (wait_fails demo_os).

(** A command line whose second program cannot be run. *)
Definition nope_argv : list string :=
  ["runpipeline"; "echo"; "hi"; "--"; "nope"; "-x"; "--"; "wc"].
(** ** Running monadic code *)

Lemma bind_Ret {A B} (m : M A) (k : A → M B) s a s1 :
  m s = (Ret a, s1) → bind m k s = k a s1.
Proof. intros H. unfold bind. by rewrite H. Qed.

Lemma bind_Exit {A B} (m : M A) (k : A → M B) s code s1 :
  m s = (Exit code, s1) → bind m k s = (Exit code, s1).
Proof. intros H. unfold bind. by rewrite H. Qed.

Lemma bind_Exec {A B} (m : M A) (k : A → M B) s file args s1 :
  m s = (Exec file args, s1) → bind m k s = (Exec file args, s1).
Proof. intros H. unfold bind. by rewrite H. Qed.

Lemma for_each_app l1 l2 body s :
  for_each (l1 ++ l2) body s = (for_each l1 body ;;; for_each l2 body) s.
Proof.
  revert s. induction l1 as [|i l1 IH]; intros s; simpl.
  - reflexivity.
  - unfold bind in *. destruct (body i s) as [[[]|code|file args] s1]; auto.
Qed.

Lemma for_range_S lo hi body s :
  (lo ≤ hi)%nat →
  for_range lo (S hi) body s = (for_range lo hi body ;;; body hi) s.
Proof.
  intros Hle. unfold for_range.
  replace (S hi - lo)%nat with (S (hi - lo)) by lia.
  rewrite seq_S, for_each_app.
  replace (lo + (hi - lo))%nat with hi by lia.
  unfold bind. destruct (for_each _ body s) as [[[]|code|file args] s1]; auto.
  simpl. unfold bind. destruct (body hi s1) as [[[]|code|file args] s2]; auto.
Qed.

Lemma for_range_nil lo hi body s :
  (hi ≤ lo)%nat → for_range lo hi body s = (Ret tt, s).
Proof. intros H. unfold for_range. by replace (hi - lo)%nat with 0%nat by lia. Qed.

(** The invariant rule for a loop whose body always returns. *)
Lemma for_range_inv (I : nat → State → Prop) lo hi body s :
  (lo ≤ hi)%nat →
  I lo s →
  (∀ i s1, (lo ≤ i < hi)%nat → I i s1 →
     ∃ s2, body i s1 = (Ret tt, s2) ∧ I (S i) s2) →
  ∃ s', for_range lo hi body s = (Ret tt, s') ∧ I hi s'.
Proof.
  intros Hle H0 Hstep. induction hi as [|hi IH].
  - assert (lo = 0)%nat as -> by lia. exists s. split; [|done].
    by apply for_range_nil.
  - destruct (decide (lo = S hi)) as [->|Hne].
    + exists s. split; [|done]. by apply for_range_nil.
    + destruct IH as (s1 & Hrun & Hinv); [lia| |].
      { intros i s1 Hi. apply Hstep. lia. }
      destruct (Hstep hi s1) as (s2 & Hb & Hinv2); [lia|done|].
      exists s2. split; [|done].
      rewrite for_range_S by lia. by rewrite (bind_Ret _ _ _ _ _ Hrun).
Qed.

Lemma bind_prog_at {B} i (k : Program → M B) s p :
  progs s !! i = Some p → bind (prog_at i) k s = k p s.
Proof. intros H. unfold bind, prog_at, get. by rewrite H. Qed.

(** The invariant rule for a loop whose body returns or exits. *)
Lemma for_range_inv_exit (I : nat → State → Prop) (Q : nat → Z → State → Prop)
    lo hi body s :
  (lo ≤ hi)%nat →
  I lo s →
  (∀ i s1, (lo ≤ i < hi)%nat → I i s1 →
     (∃ s2, body i s1 = (Ret tt, s2) ∧ I (S i) s2) ∨
     (∃ code s2, body i s1 = (Exit code, s2) ∧ Q i code s2)) →
  (∃ s', for_range lo hi body s = (Ret tt, s') ∧ I hi s') ∨
  (∃ i code s', (lo ≤ i < hi)%nat ∧
     for_range lo hi body s = (Exit code, s') ∧ Q i code s').
Proof.
  intros Hle H0 Hstep. induction hi as [|hi IH].
  - assert (lo = 0)%nat as -> by lia. left. exists s. split; [|done].
    by apply for_range_nil.
  - destruct (decide (lo = S hi)) as [->|Hne].
    + left. exists s. split; [|done]. by apply for_range_nil.
    + destruct IH as [(s1 & Hrun & Hinv)|(i & code & s1 & Hi & Hrun & HQ)];
        [lia| | |].
      { intros i s1 Hi. apply Hstep. lia. }
      * rewrite for_range_S by lia. rewrite (bind_Ret _ _ _ _ _ Hrun).
        destruct (Hstep hi s1) as [(s2 & Hb & Hinv2)|(code & s2 & Hb & HQ)];
          [lia|done| |].
        -- left. by exists s2.
        -- right. exists hi, code, s2. split; [lia|done].
      * right. exists i, code, s1. split; [lia|]. split; [|done].
        rewrite for_range_S by lia. by rewrite (bind_Exit _ _ _ _ _ Hrun).
Qed.

Lemma strcmp_zero a b : (strcmp a b =? 0) = bool_decide (a = b).
Proof.
  unfold strcmp. destruct (String.compare a b) eqn:E.
  - apply String.compare_eq_iff in E. subst. by rewrite bool_decide_eq_true_2.
  - rewrite bool_decide_eq_false_2; [done|]. intros ->.
    pose proof (String.compare_antisym b b) as H. rewrite E in H. discriminate.
  - rewrite bool_decide_eq_false_2; [done|]. intros ->.
    pose proof (String.compare_antisym b b) as H. rewrite E in H. discriminate.
Qed.

Lemma split_groups_hd (t : string) l :
  t ≠ "--" →
  split_groups (t :: l) = (t :: hd [] (split_groups l)) :: tl (split_groups l).
Proof.
  intros Hne. simpl. rewrite decide_False by done.
  destruct (split_groups l); reflexivity.
Qed.

Lemma split_groups_not_nil l : split_groups l ≠ [].
Proof.
  destruct l as [|t l]; simpl; [done|].
  case_decide; [done|]. by destruct (split_groups l).
Qed.

Lemma split_groups_single_nil l : split_groups l = [[]] ↔ l = [].
Proof.
  split; [|by intros ->].
  destruct l as [|t l]; [done|]. simpl. case_decide.
  - intros [=H']. by apply split_groups_not_nil in H'.
  - by destruct (split_groups l).
Qed.

(** The first group ends at the end of the list or at a delimiter, and the
    other groups are those of what follows that delimiter. *)
Lemma split_groups_decompose l :
  let g := hd [] (split_groups l) in
  (l = g ∧ split_groups l = [g]) ∨
  (∃ l', l = g ++ "--" :: l' ∧ split_groups l = g :: split_groups l').
Proof.
  induction l as [|t l IH]; simpl.
  - by left.
  - case_decide as Ht.
    + subst t. right. by exists l.
    + destruct (split_groups l) as [|g gs] eqn:E.
      { by apply split_groups_not_nil in E. }
      simpl in *. destruct IH as [[Hd Hs]|(l' & Hd & Hs)].
      * left. split; [by f_equal|]. by inversion Hs.
      * right. exists l'. split; [by rewrite Hd at 1|]. by inversion Hs.
Qed.

Lemma copy_args_spec fuel (cl_argv : list string) cur out :
  (length cl_argv - cur ≤ fuel)%nat →
  copy_args fuel (length cl_argv) cl_argv cur out =
    let g := hd [] (split_groups (drop cur cl_argv)) in
    ((cur + length g)%nat, out ++ g).
Proof.
  revert cur out. induction fuel as [|fuel IH]; intros cur out Hfuel.
  - rewrite drop_ge by lia. simpl. by rewrite Nat.add_0_r, app_nil_r.
  - cbn [copy_args]. destruct (cl_argv !! cur) as [t|] eqn:Ht.
    + assert (cur < length cl_argv)%nat as Hlt by by eapply lookup_lt_Some.
      rewrite (drop_S _ _ _ Ht).
      rewrite (proj2 (Nat.ltb_lt _ _) Hlt). cbn [default from_option id andb].
      rewrite strcmp_zero. case_bool_decide as Hd; cbn [negb].
      * subst t. simpl. by rewrite Nat.add_0_r, app_nil_r.
      * rewrite IH by lia. rewrite split_groups_hd by done. simpl.
        f_equal; [lia|]. by rewrite <- app_assoc.
    + apply lookup_ge_None in Ht.
      rewrite (proj2 (Nat.ltb_ge _ _) Ht). simpl.
      rewrite drop_ge by lia. simpl. by rewrite Nat.add_0_r, app_nil_r.
Qed.

Lemma store_program (l : list Program) g :
  alter (λ p, mkProgram g (length g) (pid p) (fd_in p) (fd_out p)) (length l)
    (if (length l <? length l)%nat
     then <[length l := mkProgram [] 0 (-1) (-1) (-1)]> l
     else l ++ [mkProgram [] 0 (-1) (-1) (-1)]) =
  l ++ [mkProgram g (length g) (-1) (-1) (-1)].
Proof.
  rewrite Nat.ltb_irrefl. induction l as [|p l IH]; [done|].
  cbn. f_equal. exact IH.
Qed.

Lemma parse_loop_scan max_num_progs (cl_argv : list string) fuel cur count s :
  (cur < length cl_argv)%nat →
  (length cl_argv - cur ≤ fuel)%nat →
  length (progs s) = count →
  parse_loop fuel max_num_progs (length cl_argv) cl_argv cur count s =
  scan_groups max_num_progs count (split_groups (drop cur cl_argv)) s.
Proof.
  revert cur count s. induction fuel as [|fuel IH]; intros cur count s Hcur Hfuel Hlen.
  { lia. }
  cbn [parse_loop]. rewrite (proj2 (Nat.ltb_lt _ _) Hcur).
  rewrite copy_args_spec by lia. cbn [fst snd app].
  pose proof (split_groups_decompose (drop cur cl_argv)) as Hdec.
  destruct (split_groups (drop cur cl_argv)) as [|g gs] eqn:Hsplit.
  { by apply split_groups_not_nil in Hsplit. }
  cbn [hd] in *. cbn [scan_groups].
  destruct (count =? max_num_progs)%nat; [reflexivity|].
  cbn [when]. rewrite (bind_Ret _ _ s tt s) by reflexivity.
  rewrite (bind_Ret _ _ s tt _) by reflexivity.
  rewrite (bind_Ret _ _ _ tt _) by reflexivity.
  replace (set_progs _ (set_progs _ s)) with
    (set_progs (λ l, l ++ [stage_of g]) s).
  2:{ unfold set_progs; cbn. f_equal. subst count. by rewrite store_program. }
  set (s1 := set_progs _ s).
  destruct (decide (g = [])) as [->|Hg]; [reflexivity|].
  assert (length g ≠ 0)%nat as Hg' by by destruct g.
  rewrite (proj2 (Nat.eqb_neq _ _) Hg'). cbn [when].
  rewrite (bind_Ret _ _ _ tt _) by reflexivity.
  assert (length (drop cur cl_argv) = length cl_argv - cur)%nat as Hdl
    by apply length_drop.
  destruct Hdec as [[Hd Hs]|(l' & Hd & Hs)].
  - apply (f_equal length) in Hd. rewrite Hdl in Hd.
    injection Hs as ->.
    assert (S (cur + length g) ≠ length cl_argv) as Hne by lia.
    rewrite (proj2 (Nat.eqb_neq _ _) Hne). cbn [when].
    rewrite (bind_Ret _ _ _ tt _) by reflexivity.
    destruct fuel; cbn [parse_loop];
      rewrite (proj2 (Nat.ltb_ge _ _)) by lia; reflexivity.
  - pose proof (f_equal length Hd) as Hl. rewrite Hdl, length_app in Hl.
    simpl in Hl. injection Hs as ->.
    assert (drop (S (cur + length g)) cl_argv = l') as Hrest.
    { replace (S (cur + length g)) with (cur + (length g + 1))%nat by lia.
      rewrite <- drop_drop, Hd, <- drop_drop, drop_app_length. done. }
    destruct (decide (l' = [])) as [->|Hl'].
    + simpl in Hl.
      rewrite (proj2 (Nat.eqb_eq _ _)) by lia. reflexivity.
    + assert (S (cur + length g) ≠ length cl_argv) as Hne.
      { destruct l'; simpl in Hl; [done|lia]. }
      rewrite (proj2 (Nat.eqb_neq _ _) Hne). cbn [when].
      rewrite (bind_Ret _ _ _ tt _) by reflexivity.
      rewrite IH; [|lia|lia|].
      2:{ subst s1 count. unfold set_progs; cbn. rewrite length_app. simpl. lia. }
      rewrite Hrest.
      destruct (split_groups l') as [|g' gs'] eqn:E.
      { by apply split_groups_not_nil in E. }
      destruct g' as [|t g']; [|reflexivity].
      destruct gs' as [|g'' gs']; [|reflexivity].
      by apply split_groups_single_nil in E.
Qed.

(** Enough fuel: the loop's result does not depend on it. *)
Lemma parse_loop_fuel max_num_progs (cl_argv : list string) fuel1 fuel2 cur count s :
  (length cl_argv - cur ≤ fuel1)%nat →
  (length cl_argv - cur ≤ fuel2)%nat →
  length (progs s) = count →
  parse_loop fuel1 max_num_progs (length cl_argv) cl_argv cur count s =
  parse_loop fuel2 max_num_progs (length cl_argv) cl_argv cur count s.
Proof.
  intros H1 H2 Hlen. destruct (decide (cur < length cl_argv)%nat) as [Hlt|Hge].
  - by rewrite !parse_loop_scan.
  - destruct fuel1, fuel2; cbn [parse_loop];
      rewrite (proj2 (Nat.ltb_ge _ _)) by lia; reflexivity.
Qed.

Lemma scan_groups_cons max_num_progs count g gs s :
  count ≠ max_num_progs → g ≠ [] → gs ≠ [] → gs ≠ [[]] →
  scan_groups max_num_progs count (g :: gs) s =
  scan_groups max_num_progs (S count) gs (set_progs (λ l, l ++ [stage_of g]) s).
Proof.
  intros Hc Hg H1 H2. cbn [scan_groups].
  rewrite (proj2 (Nat.eqb_neq _ _) Hc). rewrite decide_False by done.
  destruct gs as [|[|t g'] [|g'' gs]]; done.
Qed.

Lemma classify_cons max_num_progs count g gs :
  count ≠ max_num_progs → g ≠ [] → gs ≠ [] → gs ≠ [[]] →
  classify max_num_progs count (g :: gs) = classify max_num_progs (S count) gs.
Proof.
  intros Hc Hg H1 H2. cbn [classify].
  rewrite (proj2 (Nat.eqb_neq _ _) Hc). rewrite decide_False by done.
  destruct gs as [|[|t g'] [|g'' gs]]; done.
Qed.

Lemma scan_groups_classify max_num_progs count gs s :
  (count ≤ max_num_progs)%nat →
  let r := scan_groups max_num_progs count gs s in
  let v := classify max_num_progs count gs in
  r.1 = match v with Accepted => Ret (count + length gs)%nat | _ => Exit EXIT_FAILURE end ∧
  trace r.2 = trace s ++ diagnostic v ∧
  fds r.2 = fds s ∧ npipes r.2 = npipes s ∧
  children r.2 = children s ∧ reaped r.2 = reaped s ∧
  match v with
  | Accepted => progs r.2 = progs s ++ map stage_of gs
  | TooManyPrograms =>
      progs r.2 = progs s ++ map stage_of (take (max_num_progs - count) gs)
  | _ => True
  end.
Proof.
  revert count s. induction gs as [|g gs IH]; intros count s Hle.
  - simpl. rewrite Nat.add_0_r, !app_nil_r. done.
  - destruct (decide (count = max_num_progs)) as [->|Hc].
    { cbn [scan_groups classify]. rewrite Nat.eqb_refl, Nat.sub_diag. simpl.
      by rewrite app_nil_r. }
    destruct (decide (g = [])) as [->|Hg].
    { cbn [scan_groups classify]. rewrite (proj2 (Nat.eqb_neq _ _) Hc). done. }
    destruct (decide (gs = [])) as [->|Hgs].
    { cbn [scan_groups classify]. rewrite (proj2 (Nat.eqb_neq _ _) Hc).
      destruct (decide (g = [])); [done|]. simpl. repeat split; try done.
      - f_equal; lia.
      - by rewrite app_nil_r. }
    destruct (decide (gs = [[]])) as [->|Hgs'].
    { cbn [scan_groups classify]. rewrite (proj2 (Nat.eqb_neq _ _) Hc).
      destruct (decide (g = [])); done. }
    rewrite scan_groups_cons, classify_cons by done.
    specialize (IH (S count) (set_progs (λ l, l ++ [stage_of g]) s)).
    cbv zeta in IH |- *.
    destruct IH as (H1 & H2 & H3 & H4 & H5 & H6 & H7); [lia|].
    repeat split; try done.
    + rewrite H1. destruct (classify _ _ _); try done. f_equal. simpl. lia.
    + destruct (classify _ _ _); try done.
      * rewrite H7. cbn. by rewrite <- app_assoc.
      * rewrite H7. cbn [progs set_progs]. rewrite <- app_assoc. f_equal.
        replace (max_num_progs - count)%nat with (S (max_num_progs - S count)) by lia.
        done.
Qed.

Lemma classify_sound max_num_progs count gs :
  (count ≤ max_num_progs)%nat → gs ≠ [[]] →
  match classify max_num_progs count gs with
  | Accepted => accept_cond max_num_progs count gs
  | TooManyPrograms => too_many_cond max_num_progs count gs
  | EmptyProgram => empty_cond max_num_progs count gs
  | LastProgramEmpty => last_cond max_num_progs count gs
  end.
Proof.
  revert count. induction gs as [|g gs IH]; intros count Hle Hne.
  { simpl. split; [constructor|simpl; lia]. }
  destruct (decide (count = max_num_progs)) as [->|Hc].
  { cbn [classify]. rewrite Nat.eqb_refl. unfold too_many_cond.
    rewrite Nat.sub_diag. simpl. repeat split; [lia|constructor|done]. }
  destruct (decide (g = [])) as [->|Hg].
  { cbn [classify]. rewrite (proj2 (Nat.eqb_neq _ _) Hc). simpl.
    exists 0%nat. repeat split; [lia|constructor|].
    destruct gs; [done|simpl; lia]. }
  destruct (decide (gs = [])) as [->|Hgs].
  { cbn [classify]. rewrite (proj2 (Nat.eqb_neq _ _) Hc).
    destruct (decide (g = [])); [done|].
    split; [by repeat constructor|simpl; lia]. }
  destruct (decide (gs = [[]])) as [->|Hgs'].
  { cbn [classify]. rewrite (proj2 (Nat.eqb_neq _ _) Hc).
    destruct (decide (g = [])); [done|].
    exists [g]. repeat split; [done|by repeat constructor|simpl; lia]. }
  rewrite classify_cons by done.
  specialize (IH (S count)). destruct (classify _ _ _).
  - destruct IH as [Ha Hl]; [lia|done|].
    split; [by constructor|simpl; lia].
  - destruct IH as (Ha & Hb & Hd); [lia|done|]. unfold too_many_cond.
    replace (max_num_progs - count)%nat with (S (max_num_progs - S count)) by lia.
    simpl. repeat split; [lia|by constructor|done].
  - destruct IH as (j & Ha & Hb & Hd & He); [lia|done|].
    exists (S j). simpl. repeat split; [lia|done|by constructor|lia].
  - destruct IH as (gs0 & -> & Hb & Hd & He); [lia|done|].
    exists (g :: gs0). simpl. repeat split; [done|by constructor|lia].
Qed.

Lemma all_nonempty_lookup gs j : all_nonempty gs → gs !! j ≠ Some [].
Proof.
  intros Ha Hj. unfold all_nonempty in Ha. rewrite Forall_lookup in Ha.
  by apply (Ha _ _ Hj).
Qed.

Lemma classify_iff max_num_progs count gs :
  (count ≤ max_num_progs)%nat → gs ≠ [[]] →
  (classify max_num_progs count gs = Accepted ↔ accept_cond max_num_progs count gs) ∧
  (classify max_num_progs count gs = TooManyPrograms ↔ too_many_cond max_num_progs count gs) ∧
  (classify max_num_progs count gs = EmptyProgram ↔ empty_cond max_num_progs count gs) ∧
  (classify max_num_progs count gs = LastProgramEmpty ↔ last_cond max_num_progs count gs).
Proof.
  intros Hle Hne. pose proof (classify_sound _ _ _ Hle Hne) as Hs.
  assert (accept_cond max_num_progs count gs → too_many_cond max_num_progs count gs → False) as AT.
  { intros [_ H1] [H2 _]. lia. }
  assert (accept_cond max_num_progs count gs → empty_cond max_num_progs count gs → False) as AE.
  { intros [H1 _] (j & _ & H2 & _). by eapply all_nonempty_lookup. }
  assert (accept_cond max_num_progs count gs → last_cond max_num_progs count gs → False) as AL.
  { intros [H1 _] (gs0 & -> & _). apply (all_nonempty_lookup _ (length gs0) H1).
    by rewrite lookup_app_r, Nat.sub_diag. }
  assert (too_many_cond max_num_progs count gs → empty_cond max_num_progs count gs → False) as TE.
  { intros (_ & H1 & _) (j & H2 & H3 & _).
    apply (all_nonempty_lookup _ j H1). rewrite lookup_take_lt by lia. done. }
  assert (too_many_cond max_num_progs count gs → last_cond max_num_progs count gs → False) as TL.
  { intros (H1 & _ & H2) (gs0 & -> & _ & _ & H3). apply H2.
    rewrite length_app in H1. simpl in H1.
    replace (max_num_progs - count)%nat with (length gs0) by lia.
    by rewrite drop_app_length. }
  assert (empty_cond max_num_progs count gs → last_cond max_num_progs count gs → False) as EL.
  { intros (j & _ & H1 & _ & H2) (gs0 & -> & _ & H3 & _).
    rewrite length_app in H2. simpl in H2.
    apply (all_nonempty_lookup _ j H3). by rewrite lookup_app_l in H1 by lia. }
  destruct (classify max_num_progs count gs);
    (split; [|split; [|split]]); (split; [intros ?|intros ?]);
    try assumption; try reflexivity; try discriminate; exfalso; eauto.
Qed.

Lemma parse_command_line_scan max_num_progs (cl_argv : list string) s :
  (2 ≤ length cl_argv)%nat → progs s = [] →
  parse_command_line max_num_progs (length cl_argv) cl_argv s =
  scan_groups max_num_progs 0 (split_groups (drop 1 cl_argv)) s.
Proof.
  intros Hlen Hp. unfold parse_command_line.
  apply parse_loop_scan; [lia|lia|by rewrite Hp].
Qed.

Lemma tokens_groups (cl_argv : list string) :
  (2 ≤ length cl_argv)%nat → split_groups (drop 1 cl_argv) ≠ [[]].
Proof.
  intros Hlen Hs. apply split_groups_single_nil in Hs.
  apply (f_equal length) in Hs. rewrite length_drop in Hs. simpl in Hs. lia.
Qed.

(** ** The descriptor table *)

Lemma lowest_free_spec os t fd :
  lowest_free os t = Some fd →
  t !! fd = None ∧ 0 ≤ fd < Z.of_nat (nofile os) ∧
  ∀ fd', 0 ≤ fd' < fd → t !! fd' ≠ None.
Proof.
  unfold lowest_free. intros H.
  destruct (list_find _ _) as [[i x]|] eqn:E; [|done].
  simpl in H. injection H as ->.
  apply list_find_Some in E as (Hi & Hx & Hmin). split; [done|].
  apply lookup_seqZ in Hi as [-> Hi]. split; [lia|].
  intros fd' Hfd'. apply (Hmin (Z.to_nat fd') fd'); [|lia].
  apply lookup_seqZ. lia.
Qed.

(** A table with fewer entries than the limit has a free descriptor. *)
Lemma lowest_free_Some os (t : gmap Z File) :
  (size t < nofile os)%nat → is_Some (lowest_free os t).
Proof.
  intros Hsize. unfold lowest_free.
  destruct (list_find _ _) as [[i x]|] eqn:E; [by eexists|]. exfalso.
  apply list_find_None in E. rewrite Forall_forall in E.
  assert (list_to_set (seqZ 0 (Z.of_nat (nofile os))) ⊆ (dom t : gset Z)) as Hsub.
  { intros fd Hfd. apply elem_of_list_to_set in Hfd.
    apply elem_of_dom. specialize (E fd Hfd).
    by destruct (t !! fd); [eexists|]. }
  apply subseteq_size in Hsub.
  rewrite size_list_to_set in Hsub by apply NoDup_seqZ.
  rewrite length_seqZ, size_dom in Hsub. lia.
Qed.

Lemma pipe_spec os fd s :
  (size (fds s) + 2 ≤ nofile os)%nat →
  ∃ r w, pipe os fd s =
           (Ret (0, (r, w)),
            mkState (progs s)
              (<[w := PipeW (npipes s)]> (<[r := PipeR (npipes s)]> (fds s)))
              (S (npipes s)) (children s) (reaped s)
              (trace s ++ [EPipe 0 r w])) ∧
         r < w ∧ fds s !! r = None ∧ fds s !! w = None ∧
         0 ≤ r < Z.of_nat (nofile os) ∧ 0 ≤ w < Z.of_nat (nofile os).
Proof.
  intros Hsize. unfold pipe.
  destruct (lowest_free_Some os (fds s)) as [r Hr]; [lia|].
  rewrite Hr. apply lowest_free_spec in Hr as (Hr1 & Hr2 & Hr3).
  destruct (lowest_free_Some os (<[r := PipeR (npipes s)]> (fds s))) as [w Hw].
  { rewrite map_size_insert_None by done. lia. }
  rewrite Hw. apply lowest_free_spec in Hw as (Hw1 & Hw2 & Hw3).
  exists r, w. split; [done|].
  assert (r ≠ w) as Hne.
  { intros ->. by rewrite lookup_insert_eq in Hw1. }
  rewrite lookup_insert_ne in Hw1 by done.
  assert (r < w) as Hlt.
  { destruct (decide (r < w)) as [|Hge]; [done|]. exfalso.
    apply (Hr3 w); [lia|done]. }
  done.
Qed.

Lemma close_open fd f s :
  fds s !! fd = Some f →
  close fd s = (Ret 0, emit (EClose fd 0) (set_fds (delete fd) s)).
Proof. intros H. unfold close. by rewrite H. Qed.

Lemma dup2_open os oldfd newfd f s :
  fds s !! oldfd = Some f → 0 ≤ newfd < Z.of_nat (nofile os) →
  dup2 os oldfd newfd s =
    (Ret newfd, emit (EDup2 oldfd newfd newfd) (set_fds (<[newfd := f]>) s)).
Proof.
  intros H Hr. unfold dup2. rewrite H. by rewrite bool_decide_eq_true_2.
Qed.

(** ** Building the pipes *)

(** The array after [programs[i-1].fd_out = w; programs[i].fd_in = r]. *)
Lemma wire_lookup (l : list Program) (i : nat) (r w : Z) (j : nat) :
  (1 ≤ i)%nat →
  alter (λ p, mkProgram (argv p) (argc p) (pid p) r (fd_out p)) i
    (alter (λ p, mkProgram (argv p) (argc p) (pid p) (fd_in p) w) (i - 1)%nat l) !! j =
  (λ p, mkProgram (argv p) (argc p) (pid p)
          (if decide (j = i) then r else fd_in p)
          (if decide (j = (i - 1)%nat) then w else fd_out p)) <$> l !! j.
Proof.
  intros Hi. rewrite !list_lookup_alter.
  repeat case_decide; subst; try lia; destruct (l !! _) as [[]|]; reflexivity.
Qed.

Lemma pipe_cases os fd s :
  (∃ r w, pipe os fd s =
           (Ret (0, (r, w)),
            mkState (progs s)
              (<[w := PipeW (npipes s)]> (<[r := PipeR (npipes s)]> (fds s)))
              (S (npipes s)) (children s) (reaped s)
              (trace s ++ [EPipe 0 r w])) ∧
         r < w ∧ fds s !! r = None ∧ fds s !! w = None ∧
         0 ≤ r < Z.of_nat (nofile os) ∧ 0 ≤ w < Z.of_nat (nofile os)) ∨
  (pipe os fd s = (Ret (-1, fd), emit (EPipe (-1) (fd.1) (fd.2)) s) ∧
   (nofile os < size (fds s) + 2)%nat).
Proof.
  unfold pipe.
  destruct (lowest_free os (fds s)) as [r|] eqn:Hr.
  2:{ right. split; [done|].
      destruct (decide (size (fds s) < nofile os)%nat) as [Hlt|]; [|lia].
      apply (lowest_free_Some os) in Hlt as [? Hlt]. congruence. }
  destruct (lowest_free os (<[r:=_]> (fds s))) as [w|] eqn:Hw.
  2:{ right. split; [done|]. apply lowest_free_spec in Hr as (Hr1 & Hr2 & _).
      destruct (decide (size (<[r:=PipeR (npipes s)]> (fds s)) < nofile os)%nat)
        as [Hlt|Hge].
      - apply (lowest_free_Some os) in Hlt as [? Hlt]. congruence.
      - rewrite map_size_insert_None in Hge by done. lia. }
  left. exists r, w. split; [done|].
  apply lowest_free_spec in Hr as (Hr1 & Hr2 & Hr3).
  apply lowest_free_spec in Hw as (Hw1 & Hw2 & _).
  assert (r ≠ w) as Hne by (intros ->; by rewrite lookup_insert_eq in Hw1).
  rewrite lookup_insert_ne in Hw1 by done.
  assert (r < w) as Hlt.
  { destruct (decide (r < w)) as [|Hge]; [done|]. exfalso.
    apply (Hr3 w); [lia|done]. }
  done.
Qed.

Lemma same_stages_lookup l l' :
  same_stages l l' ↔
  ∀ j, (λ p, (argv p, argc p, pid p)) <$> l !! j =
       (λ p, (argv p, argc p, pid p)) <$> l' !! j.
Proof.
  unfold same_stages. split.
  - intros H j. rewrite <- !list_lookup_fmap. by rewrite H.
  - intros H. apply list_eq. intros j. rewrite !list_lookup_fmap. apply H.
Qed.

(** One more pipe: what an iteration of the loop of [prepare_pipes] does
    to the state when [pipe] succeeds. *)
Lemma wire_piping os s0 n i s r w :
  piping os s0 n i s → (1 ≤ i < n)%nat →
  r < w → fds s !! r = None → fds s !! w = None →
  0 ≤ r < Z.of_nat (nofile os) → 0 ≤ w < Z.of_nat (nofile os) →
  piping os s0 n (S i)
    (mkState
       (alter (λ p, mkProgram (argv p) (argc p) (pid p) r (fd_out p)) i
          (alter (λ p, mkProgram (argv p) (argc p) (pid p) (fd_in p) w)
             (i - 1)%nat (progs s)))
       (<[w := PipeW (npipes s)]> (<[r := PipeR (npipes s)]> (fds s)))
       (S (npipes s)) (children s) (reaped s) (trace s ++ [EPipe 0 r w])).
Proof.
  intros (Hlen & Hfit & (C1 & C2 & C3 & C4) & (E1 & E2) & Hnp & Hsz & Hsame & Hch & Hre & evs & Htr & Hevl & Hevs)
    Hi Hlt Hr Hw Hr0 Hw0.
  assert (r ≠ w) as Hrw by lia.
  assert (∀ fd f, fds s !! fd = Some f →
            (<[w := PipeW (npipes s)]> (<[r := PipeR (npipes s)]> (fds s))) !! fd = Some f) as Hold.
  { intros fd f Hfd. rewrite !lookup_insert_ne by congruence. done. }
  unfold piping, connected, edges_unwired;
    cbn [progs fds npipes children reaped trace].
  split; [by rewrite !length_alter|].
  split; [lia|].
  split; [|split; [|split; [|split; [|split; [|split; [|split]]]]]].
  - (* connected *)
    split; [|split; [|split]].
    + intros j p' Hj _ Hj1 Hj2. rewrite wire_lookup in Hj by lia.
      destruct (progs s !! j) as [p|] eqn:Ep; [|done]. injection Hj as <-.
      cbn [fd_in]. case_decide as Hji.
      * subst j. rewrite lookup_insert_ne by done. rewrite lookup_insert_eq.
        split; [lia|]. split; [do 2 f_equal; lia|].
        by eapply lookup_weaken_None.
      * destruct (C1 j p Ep) as (H1 & H2 & H3); [lia|lia|lia|]. eauto.
    + intros j p' Hj _ Hj1. rewrite wire_lookup in Hj by lia.
      destruct (progs s !! j) as [p|] eqn:Ep; [|done]. injection Hj as <-.
      cbn [fd_out]. case_decide as Hji.
      * subst j. rewrite lookup_insert_eq.
        split; [lia|]. split; [do 2 f_equal; lia|].
        by eapply lookup_weaken_None.
      * destruct (C2 j p Ep) as (H1 & H2 & H3); [lia|lia|]. eauto.
    + intros fd f Hfd.
      assert (i < length (progs s))%nat as Hil by lia.
      assert (i - 1 < length (progs s))%nat as Hil' by lia.
      apply lookup_lt_is_Some in Hil as [pi Hpi].
      apply lookup_lt_is_Some in Hil' as [pi' Hpi'].
      destruct (decide (fd = w)) as [->|Hfw].
      { right. eexists (i - 1)%nat, _. rewrite wire_lookup by lia. rewrite Hpi'.
        split; [reflexivity|]. split; [lia|]. right. split; [lia|].
        cbn [fd_out]. by rewrite decide_True. }
      rewrite lookup_insert_ne in Hfd by done.
      destruct (decide (fd = r)) as [->|Hfr].
      { right. eexists i, _. rewrite wire_lookup by lia. rewrite Hpi.
        split; [reflexivity|]. split; [lia|]. left. split; [lia|]. split; [lia|].
        cbn [fd_in]. by rewrite decide_True. }
      rewrite lookup_insert_ne in Hfd by done.
      destruct (C3 fd f Hfd) as [H0|(j & p & Hp & _ & [(H1 & H2 & H3)|(H1 & H2)])];
        [by left| |].
      * right. eexists j, _. rewrite wire_lookup by lia. rewrite Hp.
        split; [reflexivity|]. split; [lia|]. left. split; [lia|]. split; [lia|].
        cbn [fd_in]. by rewrite decide_False by lia.
      * right. eexists j, _. rewrite wire_lookup by lia. rewrite Hp.
        split; [reflexivity|]. split; [lia|]. right. split; [lia|].
        cbn [fd_out]. by rewrite decide_False by lia.
    + apply map_subseteq_spec. intros fd f Hfd. apply Hold.
      by eapply lookup_weaken.
  - (* edges *)
    split.
    + intros p' Hp'. rewrite wire_lookup in Hp' by lia.
      destruct (progs s !! 0%nat) as [p|] eqn:Ep; [|done]. injection Hp' as <-.
      cbn [fd_in]. rewrite decide_False by lia. by apply E1.
    + intros p' Hp'. rewrite wire_lookup in Hp' by lia.
      destruct (progs s !! (n - 1)%nat) as [p|] eqn:Ep; [|done]. injection Hp' as <-.
      cbn [fd_out]. rewrite decide_False by lia. by apply E2.
  - lia.
  - rewrite map_size_insert_None by (by rewrite lookup_insert_ne).
    rewrite map_size_insert_None by done. lia.
  - apply same_stages_lookup. intros j. rewrite wire_lookup by lia.
    rewrite <- (proj1 (same_stages_lookup _ _) Hsame j).
    by destruct (progs s !! j).
  - done.
  - done.
  - exists (evs ++ [EPipe 0 r w]). rewrite Htr, app_assoc, length_app. simpl.
    split; [done|]. split; [lia|]. apply Forall_app. split; [done|].
    repeat constructor. eauto.
Qed.

Lemma piping_start os s0 n :
  length (progs s0) = n → fresh_stages (progs s0) → piping os s0 n 1 s0.
Proof.
  intros Hlen Hfresh. unfold piping.
  split; [done|]. split; [lia|]. split; [|split; [|split; [|split; [|split; [|split; [|split]]]]]];
    try done; try lia.
  - split; [|split; [|split]]; [intros; lia|intros; lia|by left|done].
  - unfold fresh_stages in Hfresh. rewrite Forall_lookup in Hfresh.
    split; intros p Hp; by apply (Hfresh _ _ Hp).
  - exists []. by rewrite app_nil_r.
Qed.

(** [prepare_pipes] either connects all the stages or stops at the first
    pipe that cannot be created, with the pipes created before it open. *)
Lemma prepare_pipes_cases os n s0 :
  (1 ≤ n)%nat → length (progs s0) = n → fresh_stages (progs s0) →
  (∃ s', prepare_pipes os n s0 = (Ret tt, s') ∧ piping os s0 n n s') ∨
  (∃ i s1, (1 ≤ i < n)%nat ∧ piping os s0 n i s1 ∧
     (nofile os < size (fds s1) + 2)%nat ∧
     prepare_pipes os n s0 =
       (Exit EXIT_FAILURE,
        emit (EStderr (Error "pipe() failed.")) (emit (EPipe (-1) 0 0) s1))).
Proof.
  intros Hn Hlen Hfresh. unfold prepare_pipes.
  destruct (for_range_inv_exit (piping os s0 n)
    (λ i code s', ∃ s1, piping os s0 n i s1 ∧
       (nofile os < size (fds s1) + 2)%nat ∧ code = EXIT_FAILURE ∧
       s' = emit (EStderr (Error "pipe() failed.")) (emit (EPipe (-1) 0 0) s1))
    1 n (λ i : nat, r <- pipe os (0, 0) ;;
              let '(status, fd) := r in
              when (negb (status =? 0)) (die "pipe() failed.") ;;;
              set_fd_out (i - 1) (fd.2) ;;; set_fd_in i (fd.1)) s0)
    as [H|(i & code & s' & Hi & Hrun & s1 & Hp & Hsz & -> & ->)];
    [done|by apply piping_start| |by left|].
  - intros i s1 Hi Hinv.
    destruct (pipe_cases os (0, 0) s1) as [(r & w & Hpipe & Hrw & Hr & Hw & Hr0 & Hw0)|[Hpipe Hsz]].
    + left. eexists. rewrite (bind_Ret _ _ _ _ _ Hpipe). split; [reflexivity|].
      apply (wire_piping os s0 n i s1 r w); try done; lia.
    + right. eexists _, _. rewrite (bind_Ret _ _ _ _ _ Hpipe). split; [reflexivity|].
      by exists s1.
  - right. by exists i, s1.
Qed.

Lemma prepare_pipes_spec os n s0 :
  (1 ≤ n)%nat → length (progs s0) = n → fresh_stages (progs s0) →
  (size (fds s0) + 2 * (n - 1) ≤ nofile os)%nat →
  ∃ s', prepare_pipes os n s0 = (Ret tt, s') ∧ piping os s0 n n s'.
Proof.
  intros Hn Hlen Hfresh Hsize.
  destruct (prepare_pipes_cases os n s0 Hn Hlen Hfresh)
    as [H|(i & s1 & Hi & Hp & Hsz & _)]; [done|].
  destruct Hp as (_ & _ & _ & _ & _ & Hs & _). lia.
Qed.

(** ** Launching a stage: the parent *)

Lemma start_program_parent os n cur s prog :
  progs s !! cur = Some prog → (cur < n)%nat →
  (length (children s) < nproc os)%nat →
  ((0 < cur)%nat → 0 ≤ fd_in prog ∧ is_Some (fds s !! fd_in prog)) →
  ((cur + 1 < n)%nat → 0 ≤ fd_out prog ∧ is_Some (fds s !! fd_out prog)) →
  ((0 < cur)%nat → (cur + 1 < n)%nat → fd_in prog ≠ fd_out prog) →
  let p := Z.pos (base_pid os) + Z.of_nat (length (children s)) in
  start_program os n cur s =
    (Ret tt,
     mkState (<[cur := mkProgram (argv prog) (argc prog) p (-1) (-1)]> (progs s))
             (close_all (parent_closes n cur prog) (fds s))
             (npipes s)
             (children s ++ [forked p (start_program_child os n cur) s])
             (reaped s)
             (trace s ++ [EFork p] ++
              (map (λ fd, EClose fd 0) (parent_closes n cur prog)))).
Proof.
  intros Hprog Hcur Hfork Hin Hout Hne p.
  unfold start_program.
  assert (fork os (start_program_child os n cur) s =
            (Ret p, mkState (progs s) (fds s) (npipes s)
                      (children s ++ [forked p (start_program_child os n cur) s])
                      (reaped s) (trace s ++ [EFork p]))) as Hf.
  { unfold fork. by rewrite bool_decide_eq_true_2. }
  rewrite (bind_Ret _ _ _ _ _ Hf).
  assert ((p <? 0) = false) as -> by (apply Z.ltb_ge; lia).
  rewrite (bind_Ret _ _ _ tt _) by reflexivity.
  rewrite (bind_prog_at cur _ _
             (mkProgram (argv prog) (argc prog) p (fd_in prog) (fd_out prog)));
    cycle 1.
  { unfold set_progs; cbn [progs].
    rewrite list_lookup_alter, decide_True by done. rewrite Hprog. reflexivity. }
  cbn [fd_in fd_out].
  assert (∀ s', progs s' = alter (λ p0, mkProgram (argv p0) (argc p0) p (fd_in p0) (fd_out p0)) cur (progs s) →
     (set_fd_in cur (-1);;; set_fd_out cur (-1)) s' =
     (Ret tt, mkState (<[cur := mkProgram (argv prog) (argc prog) p (-1) (-1)]> (progs s))
                (fds s') (npipes s') (children s') (reaped s') (trace s'))) as Hsets.
  { intros s' Hs'. unfold set_fd_in, set_fd_out, bind, modify, set_progs; cbn.
    do 2 f_equal. rewrite Hs'. apply list_eq. intros j.
    rewrite !list_lookup_alter. repeat case_decide; subst; try done.
    - rewrite list_lookup_insert_eq by (by eapply lookup_lt_Some).
      rewrite Hprog. reflexivity.
    - by rewrite list_lookup_insert_ne by done. }
  unfold parent_closes.
  destruct (0 <? cur)%nat eqn:H0; cbn [andb].
  - apply Nat.ltb_lt in H0. destruct (Hin H0) as [Hin0 [fi Hfi]].
    rewrite (proj2 (Z.leb_le _ _) Hin0). cbn [when].
    erewrite (bind_Ret (bind (close _) _)); cycle 1.
    { erewrite (bind_Ret (close _)); [|by eapply close_open]. reflexivity. }
    destruct (decide (cur + 1 < n)%nat) as [Hlast|Hlast].
    + rewrite (proj2 (Nat.ltb_lt _ _) Hlast).
      assert ((Z.of_nat cur =? Z.of_nat n - 1) = false) as -> by (apply Z.eqb_neq; lia).
      destruct (Hout Hlast) as [Hout0 [fo Hfo]].
      rewrite (proj2 (Z.leb_le _ _) Hout0). cbn [negb andb when].
      erewrite (bind_Ret (bind (close _) _)); cycle 1.
      { erewrite (bind_Ret (close _)); [|eapply close_open]; [reflexivity|].
        cbn. rewrite lookup_delete_ne; [done|]. by apply Hne. }
      rewrite Hsets by reflexivity. cbn. by rewrite <- ?app_assoc, ?app_nil_r.
    + rewrite (proj2 (Nat.ltb_ge _ _)) by lia.
      assert ((Z.of_nat cur =? Z.of_nat n - 1) = true) as -> by (apply Z.eqb_eq; lia).
      cbn [negb andb when].
      rewrite (bind_Ret _ _ _ tt _) by reflexivity.
      rewrite Hsets by reflexivity. cbn. by rewrite <- ?app_assoc, ?app_nil_r.
  - rewrite (bind_Ret _ _ _ tt _) by reflexivity.
    destruct (decide (cur + 1 < n)%nat) as [Hlast|Hlast].
    + rewrite (proj2 (Nat.ltb_lt _ _) Hlast).
      assert ((Z.of_nat cur =? Z.of_nat n - 1) = false) as -> by (apply Z.eqb_neq; lia).
      destruct (Hout Hlast) as [Hout0 [fo Hfo]].
      rewrite (proj2 (Z.leb_le _ _) Hout0). cbn [negb andb when].
      erewrite (bind_Ret (bind (close _) _)); cycle 1.
      { erewrite (bind_Ret (close _)); [|by eapply close_open]. reflexivity. }
      rewrite Hsets by reflexivity. cbn. by rewrite <- ?app_assoc, ?app_nil_r.
    + rewrite (proj2 (Nat.ltb_ge _ _)) by lia.
      assert ((Z.of_nat cur =? Z.of_nat n - 1) = true) as -> by (apply Z.eqb_eq; lia).
      cbn [negb andb when].
      rewrite (bind_Ret _ _ _ tt _) by reflexivity.
      rewrite Hsets by reflexivity. cbn. by rewrite <- ?app_assoc, ?app_nil_r.
Qed.

Lemma lookup_close_all l (t : gmap Z File) fd :
  close_all l t !! fd = if decide (fd ∈ l) then None else t !! fd.
Proof.
  unfold close_all. revert t. induction l as [|x l IH]; intros t; simpl.
  - done.
  - rewrite IH. destruct (decide (fd ∈ l)) as [Hin|Hout].
    + rewrite decide_True; [done|]. by right.
    + destruct (decide (fd = x)) as [->|Hne].
      * rewrite lookup_delete_eq. rewrite decide_True; [done|]. by left.
      * rewrite lookup_delete_ne by done. rewrite decide_False; [done|].
        by intros [?|?]%elem_of_cons.
Qed.

Lemma elem_of_parent_closes n cur prog fd :
  fd ∈ parent_closes n cur prog ↔
  ((0 < cur)%nat ∧ fd = fd_in prog) ∨ ((cur + 1 < n)%nat ∧ fd = fd_out prog).
Proof.
  unfold parent_closes. rewrite elem_of_app.
  destruct (Nat.ltb_spec 0 cur), (Nat.ltb_spec (cur + 1) n);
    rewrite ?list_elem_of_singleton, ?elem_of_nil;
    intuition (try (done || lia)).
Qed.

(** What the launching state tells about the stage to launch. *)
Lemma launching_stage t0 p0 n cur s prog :
  launching t0 p0 n cur s → progs s !! cur = Some prog → (cur < n)%nat →
  ((0 < cur)%nat → 0 ≤ fd_in prog ∧ is_Some (fds s !! fd_in prog)) ∧
  ((cur + 1 < n)%nat → 0 ≤ fd_out prog ∧ is_Some (fds s !! fd_out prog)) ∧
  ((0 < cur)%nat → (cur + 1 < n)%nat → fd_in prog ≠ fd_out prog).
Proof.
  intros (Hlen & (C1 & C2 & C3 & C4) & E) Hprog Hcur.
  split; [|split].
  - intros H0. destruct (C1 cur prog Hprog) as (H1 & H2 & _); [lia..|]. eauto.
  - intros H0. destruct (C2 cur prog Hprog) as (H1 & H2 & _); [lia..|].
    split; [lia|eauto].
  - intros H0 H1 Heq.
    destruct (C1 cur prog Hprog) as (_ & H2 & _); [lia..|].
    destruct (C2 cur prog Hprog) as (_ & H3 & _); [lia..|].
    rewrite Heq in H2. congruence.
Qed.

(** The parent's side of a launch keeps the later stages connected. *)
Lemma launching_step t0 p0 n cur s prog pidv ch re tr :
  launching t0 p0 n cur s → progs s !! cur = Some prog → (cur < n)%nat →
  launching t0 p0 n (S cur)
    (mkState (<[cur := mkProgram (argv prog) (argc prog) pidv (-1) (-1)]> (progs s))
             (close_all (parent_closes n cur prog) (fds s))
             (npipes s) ch re tr).
Proof.
  intros (Hlen & (C1 & C2 & C3 & C4) & (E1 & E2)) Hprog Hcur.
  unfold launching, connected, edges_unwired;
    cbn [progs fds npipes children reaped trace].
  split; [by rewrite length_insert|].
  assert (∀ j p, (S cur ≤ j)%nat →
            <[cur := mkProgram (argv prog) (argc prog) pidv (-1) (-1)]> (progs s) !! j = Some p →
            progs s !! j = Some p) as Hlater.
  { intros j p Hj Hp. by rewrite list_lookup_insert_ne in Hp by lia. }
  split; [split; [|split; [|split]]|split].
  - intros j p Hp Hj Hj1 Hjn. apply Hlater in Hp; [|done].
    destruct (C1 j p Hp) as (H1 & H2 & H3); [lia..|].
    split; [done|]. split; [|done]. rewrite lookup_close_all.
    rewrite decide_False; [done|]. intros [[H0 Heq]|[H0 Heq]]%elem_of_parent_closes.
    + destruct (C1 cur prog Hprog) as (_ & H4 & _); [lia..|].
      rewrite Heq, H4 in H2. injection H2 as H2. lia.
    + destruct (C2 cur prog Hprog) as (_ & H4 & _); [lia..|].
      rewrite Heq, H4 in H2. discriminate.
  - intros j p Hp Hj Hjn. apply Hlater in Hp; [|done].
    destruct (C2 j p Hp) as (H1 & H2 & H3); [lia..|].
    split; [done|]. split; [|done]. rewrite lookup_close_all.
    rewrite decide_False; [done|]. intros [[H0 Heq]|[H0 Heq]]%elem_of_parent_closes.
    + destruct (C1 cur prog Hprog) as (_ & H4 & _); [lia..|].
      rewrite Heq, H4 in H2. discriminate.
    + destruct (C2 cur prog Hprog) as (_ & H4 & _); [lia..|].
      rewrite Heq, H4 in H2. injection H2 as H2. lia.
  - intros fd f Hfd. rewrite lookup_close_all in Hfd.
    destruct (decide (fd ∈ parent_closes n cur prog)) as [|Hnin]; [done|].
    destruct (C3 fd f Hfd) as [H0|(j & p & Hp & Hj & Hcase)]; [by left|].
    right. destruct (decide (j = cur)) as [->|Hjc].
    + exfalso. apply Hnin. apply elem_of_parent_closes.
      rewrite Hprog in Hp. injection Hp as <-.
      destruct Hcase as [(H1 & H2 & H3)|(H1 & H2)]; [left|right]; split; (lia || done).
    + exists j, p. rewrite list_lookup_insert_ne by done.
      split; [done|]. split; [lia|done].
  - apply map_subseteq_spec. intros fd f Hfd. rewrite lookup_close_all.
    rewrite decide_False; [by eapply lookup_weaken|].
    intros [[H0 Heq]|[H0 Heq]]%elem_of_parent_closes.
    + destruct (C1 cur prog Hprog) as (_ & _ & H4); [lia..|]. congruence.
    + destruct (C2 cur prog Hprog) as (_ & _ & H4); [lia..|]. congruence.
  - intros p Hp. destruct (decide (cur = 0)%nat) as [->|Hc].
    + rewrite list_lookup_insert_eq in Hp by lia. by injection Hp as <-.
    + rewrite list_lookup_insert_ne in Hp by done. by apply E1.
  - intros p Hp. destruct (decide (cur = n - 1)%nat) as [->|Hc].
    + rewrite list_lookup_insert_eq in Hp by lia. by injection Hp as <-.
    + rewrite list_lookup_insert_ne in Hp by done. by apply E2.
Qed.

(** ** Launching a stage: the child *)

Lemma elem_of_stage_fds p fd :
  fd ∈ stage_fds p ↔ (0 ≤ fd_in p ∧ fd = fd_in p) ∨ (0 ≤ fd_out p ∧ fd = fd_out p).
Proof.
  unfold stage_fds. rewrite elem_of_app.
  destruct (Z.leb_spec 0 (fd_in p)), (Z.leb_spec 0 (fd_out p));
    rewrite ?list_elem_of_singleton, ?elem_of_nil;
    intuition (try (done || lia)).
Qed.

Lemma open_ends_ge cur (l : list Program) :
  (length l ≤ cur)%nat → open_ends cur l = [].
Proof. intros H. unfold open_ends. by rewrite drop_ge. Qed.

Lemma open_ends_S cur (l : list Program) p :
  l !! cur = Some p → open_ends cur l = stage_fds p ++ open_ends (S cur) l.
Proof. intros H. unfold open_ends. by rewrite (drop_S _ _ _ H). Qed.

Lemma elem_of_open_ends cur (l : list Program) fd :
  fd ∈ open_ends cur l ↔
  ∃ i p, (cur ≤ i)%nat ∧ l !! i = Some p ∧ fd ∈ stage_fds p.
Proof.
  unfold open_ends. rewrite list_elem_of_In, in_flat_map. split.
  - intros (p & Hp & Hfd). apply list_elem_of_In, list_elem_of_lookup in Hp as [j Hj].
    rewrite lookup_drop in Hj. exists (cur + j)%nat, p.
    split; [lia|]. split; [done|]. by apply list_elem_of_In.
  - intros (i & p & Hi & Hp & Hfd). exists p. split; [|by apply list_elem_of_In].
    apply list_elem_of_In, list_elem_of_lookup. exists (i - cur)%nat.
    rewrite lookup_drop. by replace (cur + (i - cur))%nat with i by lia.
Qed.

(** In a launching state the pipe ends of the stages still to launch are
    open, are not descriptors the process started with, and are pairwise
    distinct. *)
Lemma launching_in_file t0 p0 n cur s i p :
  launching t0 p0 n cur s → (cur ≤ i)%nat → progs s !! i = Some p →
  0 ≤ fd_in p →
  (1 ≤ i)%nat ∧ t0 !! fd_in p = None ∧
  fds s !! fd_in p = Some (PipeR (p0 + i - 1)).
Proof.
  intros (Hlen & (C1 & C2 & C3 & C4) & (E1 & E2)) Hi Hp H0.
  assert (i < n)%nat as Hin by (rewrite <- Hlen; by eapply lookup_lt_Some).
  destruct (decide (i = 0)%nat) as [->|Hi0].
  { rewrite (E1 p Hp) in H0. lia. }
  destruct (C1 i p Hp) as (_ & H1 & H2); [lia..|].
  split; [lia|done].
Qed.

Lemma launching_out_file t0 p0 n cur s i p :
  launching t0 p0 n cur s → (cur ≤ i)%nat → progs s !! i = Some p →
  0 ≤ fd_out p →
  (i + 1 < n)%nat ∧ t0 !! fd_out p = None ∧
  fds s !! fd_out p = Some (PipeW (p0 + i)).
Proof.
  intros (Hlen & (C1 & C2 & C3 & C4) & (E1 & E2)) Hi Hp H0.
  assert (i < n)%nat as Hin by (rewrite <- Hlen; by eapply lookup_lt_Some).
  destruct (decide (i = n - 1)%nat) as [->|Hi0].
  { rewrite (E2 p Hp) in H0. lia. }
  destruct (C2 i p Hp) as (_ & H1 & H2); [lia..|].
  split; [lia|done].
Qed.

Lemma launching_end_file t0 p0 n cur s i p fd :
  launching t0 p0 n cur s → (cur ≤ i)%nat → progs s !! i = Some p →
  fd ∈ stage_fds p →
  t0 !! fd = None ∧
  (((1 ≤ i)%nat ∧ fd = fd_in p ∧ fds s !! fd = Some (PipeR (p0 + i - 1))) ∨
   ((i + 1 < n)%nat ∧ fd = fd_out p ∧ fds s !! fd = Some (PipeW (p0 + i)))).
Proof.
  intros HL Hi Hp Hfd.
  apply elem_of_stage_fds in Hfd as [[H0 ->]|[H0 ->]].
  - destruct (launching_in_file _ _ _ _ _ _ _ HL Hi Hp H0) as (H1 & H2 & H3).
    split; [done|]. by left.
  - destruct (launching_out_file _ _ _ _ _ _ _ HL Hi Hp H0) as (H1 & H2 & H3).
    split; [done|]. by right.
Qed.

Lemma launching_open_ends t0 p0 n cur s fd :
  launching t0 p0 n cur s → fd ∈ open_ends cur (progs s) →
  t0 !! fd = None ∧ is_Some (fds s !! fd).
Proof.
  intros HL (i & p & Hi & Hp & Hfd)%elem_of_open_ends.
  destruct (launching_end_file _ _ _ _ _ _ _ _ HL Hi Hp Hfd)
    as [H0 [(_ & _ & H1)|(_ & _ & H1)]]; eauto.
Qed.

Lemma launching_NoDup t0 p0 n cur s :
  launching t0 p0 n cur s → NoDup (open_ends cur (progs s)).
Proof.
  intros HL.
  assert (∀ k a, (cur ≤ a)%nat → (a + k = length (progs s))%nat →
            NoDup (open_ends a (progs s))) as H.
  2:{ destruct (decide (cur ≤ length (progs s))%nat).
      - apply (H (length (progs s) - cur)%nat); lia.
      - rewrite open_ends_ge by lia. constructor. }
  induction k as [|k IH]; intros a Ha Hk.
  { rewrite open_ends_ge by lia. constructor. }
  destruct (lookup_lt_is_Some_2 (progs s) a) as [p Hp]; [lia|].
  rewrite (open_ends_S _ _ _ Hp). apply NoDup_app. split; [|split].
  - unfold stage_fds.
    destruct (Z.leb_spec 0 (fd_in p)) as [Hi0|Hi0],
             (Z.leb_spec 0 (fd_out p)) as [Ho0|Ho0]; simpl;
      [|apply NoDup_singleton|apply NoDup_singleton|apply NoDup_nil_2].
    apply NoDup_cons. split; [|apply NoDup_singleton].
    intros Heq%list_elem_of_singleton.
    destruct (launching_in_file _ _ _ _ _ _ _ HL Ha Hp Hi0) as (_ & _ & H1).
    destruct (launching_out_file _ _ _ _ _ _ _ HL Ha Hp Ho0) as (_ & _ & H2).
    rewrite Heq in H1. congruence.
  - intros fd Hfd (j & q & Hj & Hq & Hfd')%elem_of_open_ends.
    destruct (launching_end_file _ _ _ _ _ a p fd HL Ha Hp Hfd)
      as [_ [(A1 & _ & A2)|(A1 & _ & A2)]];
      destruct (launching_end_file _ _ _ _ _ j q fd HL ltac:(lia) Hq Hfd')
        as [_ [(B1 & _ & B2)|(B1 & _ & B2)]];
      rewrite A2 in B2; try discriminate; injection B2; lia.
  - apply IH; lia.
Qed.

Lemma close_stage_run i c p :
  progs c !! i = Some p → NoDup (stage_fds p) →
  (∀ fd, fd ∈ stage_fds p → is_Some (fds c !! fd)) →
  close_stage i c =
    (Ret tt,
     mkState (progs c) (close_all (stage_fds p) (fds c)) (npipes c)
             (children c) (reaped c)
             (trace c ++ map (λ fd, EClose fd 0) (stage_fds p))).
Proof.
  intros Hp Hnd Hopen. unfold close_stage. rewrite (bind_prog_at _ _ _ _ Hp).
  unfold stage_fds in *.
  destruct (0 <=? fd_in p) eqn:Hi; destruct (0 <=? fd_out p) eqn:Ho;
    cbn [when app] in *.
  - destruct (Hopen (fd_in p)) as [fi Hfi]; [by left|].
    destruct (Hopen (fd_out p)) as [fo Hfo]; [right; by left|].
    apply NoDup_cons in Hnd as [Hne _]. rewrite list_elem_of_singleton in Hne.
    erewrite (bind_Ret (bind (close _) _)); cycle 1.
    { erewrite (bind_Ret (close _)); [|by eapply close_open]. reflexivity. }
    erewrite (bind_Ret (close _)); cycle 1.
    { eapply close_open. cbn. by rewrite lookup_delete_ne. }
    unfold check_return_value, emit, set_fds; cbn. by rewrite <- app_assoc.
  - destruct (Hopen (fd_in p)) as [fi Hfi]; [by left|].
    erewrite (bind_Ret (bind (close _) _)); cycle 1.
    { erewrite (bind_Ret (close _)); [|by eapply close_open]. reflexivity. }
    reflexivity.
  - destruct (Hopen (fd_out p)) as [fo Hfo]; [by left|].
    rewrite (bind_Ret _ _ _ tt _) by reflexivity.
    erewrite (bind_Ret (close _)); [|by eapply close_open]. reflexivity.
  - cbn. rewrite app_nil_r. by destruct c.
Qed.

Lemma close_loop_run k cur c :
  (cur + k = length (progs c))%nat →
  NoDup (open_ends cur (progs c)) →
  (∀ fd, fd ∈ open_ends cur (progs c) → is_Some (fds c !! fd)) →
  for_each (seq cur k) close_stage c =
    (Ret tt,
     mkState (progs c) (close_all (open_ends cur (progs c)) (fds c)) (npipes c)
             (children c) (reaped c)
             (trace c ++ map (λ fd, EClose fd 0) (open_ends cur (progs c)))).
Proof.
  revert cur c. induction k as [|k IH]; intros cur c Hk Hnd Hopen.
  { rewrite open_ends_ge by lia. cbn. rewrite app_nil_r. by destruct c. }
  destruct (lookup_lt_is_Some_2 (progs c) cur) as [p Hp]; [lia|].
  rewrite (open_ends_S _ _ _ Hp) in *.
  apply NoDup_app in Hnd as (Hnd1 & Hdisj & Hnd2).
  cbn [seq for_each].
  erewrite bind_Ret; cycle 1.
  { apply (close_stage_run _ _ p); [done|done|].
    intros fd Hfd. apply Hopen, elem_of_app. by left. }
  rewrite IH; cbn [progs fds npipes children reaped trace].
  - unfold close_all. rewrite foldl_app, map_app, app_assoc. reflexivity.
  - lia.
  - done.
  - intros fd Hfd. rewrite lookup_close_all.
    rewrite decide_False by (intros Hin; by apply (Hdisj fd)).
    apply Hopen, elem_of_app. by right.
Qed.

Lemma child_table_keeps p0 n cur (t : gmap Z File) fd :
  is_Some (t !! fd) → is_Some (child_table p0 n cur t !! fd).
Proof.
  intros [f Hf]. unfold child_table.
  destruct (0 <? cur)%nat, (cur + 1 <? n)%nat;
    rewrite ?lookup_insert; repeat case_decide; eauto.
Qed.

(** The child of stage [cur]: what it does and how it ends. *)
Lemma start_program_child_run os t0 p0 n cur s prog :
  launching t0 p0 n cur s → progs s !! cur = Some prog → (cur < n)%nat →
  ((1 < n)%nat → (2 ≤ nofile os)%nat) →
  start_program_child os n cur (mkState (progs s) (fds s) (npipes s) [] [] []) =
    (match child_end os prog with
     | Ret _ => Exit EXIT_FAILURE
     | Exit code => Exit code
     | Exec file args => Exec file args
     end,
     mkState (progs s)
       (close_all (open_ends cur (progs s)) (child_table p0 n cur (fds s)))
       (npipes s) [] [] (child_calls os n cur (progs s))).
Proof.
  intros HL Hprog Hcur Hfit.
  pose proof HL as (Hlen & (C1 & C2 & C3 & C4) & (E1 & E2)).
  unfold start_program_child. rewrite (bind_prog_at cur _ _ prog) by done.
  set (c0 := mkState (progs s) (fds s) (npipes s) [] [] []).
  (* the redirections *)
  assert (∀ B (k : M B),
    (when (0 <? cur)%nat
       (rv <- dup2 os (fd_in prog) FD_STDIN ;; check_return_value rv "dup2()") ;;;
     when (negb (Z.of_nat cur =? Z.of_nat n - 1))
       (rv <- dup2 os (fd_out prog) FD_STDOUT ;; check_return_value rv "dup2()") ;;;
     k) c0 =
    k (mkState (progs s) (child_table p0 n cur (fds s)) (npipes s) [] []
         (child_dups n cur prog))) as Hdups.
  { intros B k. unfold child_table, child_dups.
    destruct (Nat.ltb_spec 0 cur) as [H0|H0]; cbn [when].
    - destruct (C1 cur prog Hprog) as (Hi0 & Hfi & _); [lia..|].
      erewrite (bind_Ret (bind (dup2 _ _ _) _)); cycle 1.
      { erewrite (bind_Ret (dup2 _ _ _)); [|eapply dup2_open]; [reflexivity|done|].
        unfold FD_STDIN. lia. }
      destruct (Nat.ltb_spec (cur + 1) n) as [H1|H1].
      + assert ((Z.of_nat cur =? Z.of_nat n - 1) = false) as -> by (apply Z.eqb_neq; lia).
        cbn [negb when].
        destruct (C2 cur prog Hprog) as (Ho0 & Hfo & _); [lia..|].
        erewrite (bind_Ret (bind (dup2 _ _ _) _)); cycle 1.
        { erewrite (bind_Ret (dup2 _ _ _)); [|eapply dup2_open]; [reflexivity| |].
          - cbn. unfold FD_STDIN. rewrite lookup_insert_ne by lia. done.
          - unfold FD_STDOUT. lia. }
        reflexivity.
      + assert ((Z.of_nat cur =? Z.of_nat n - 1) = true) as -> by (apply Z.eqb_eq; lia).
        cbn [negb when]. rewrite (bind_Ret _ _ _ tt _) by reflexivity.
        reflexivity.
    - rewrite (bind_Ret _ _ _ tt _) by reflexivity.
      destruct (Nat.ltb_spec (cur + 1) n) as [H1|H1].
      + assert ((Z.of_nat cur =? Z.of_nat n - 1) = false) as -> by (apply Z.eqb_neq; lia).
        cbn [negb when].
        destruct (C2 cur prog Hprog) as (Ho0 & Hfo & _); [lia..|].
        erewrite (bind_Ret (bind (dup2 _ _ _) _)); cycle 1.
        { erewrite (bind_Ret (dup2 _ _ _)); [|eapply dup2_open]; [reflexivity|done|].
          unfold FD_STDOUT. lia. }
        reflexivity.
      + assert ((Z.of_nat cur =? Z.of_nat n - 1) = true) as -> by (apply Z.eqb_eq; lia).
        cbn [negb when]. rewrite (bind_Ret _ _ _ tt _) by reflexivity.
        reflexivity. }
  rewrite Hdups.
  (* the closing loop *)
  set (c2 := mkState (progs s) (child_table p0 n cur (fds s)) (npipes s) [] [] _).
  erewrite (bind_Ret (for_range cur n close_stage)); cycle 1.
  { unfold for_range. apply close_loop_run; subst c2; cbn [progs fds].
    - lia.
    - by eapply launching_NoDup.
    - intros fd Hfd. apply child_table_keeps.
      by eapply (launching_open_ends t0 p0 n cur s fd). }
  (* execvp *)
  unfold child_calls, child_end. rewrite Hprog. cbn [default from_option].
  unfold bind at 1, execvp. subst c2. cbn.
  destruct (can_exec os (hd "" (argv prog)));
    unfold emit, exit; cbn; rewrite <- ?app_assoc; reflexivity.
Qed.

Lemma forked_child os t0 p0 n cur s prog pidv :
  launching t0 p0 n cur s → progs s !! cur = Some prog → (cur < n)%nat →
  ((1 < n)%nat → (2 ≤ nofile os)%nat) →
  forked pidv (start_program_child os n cur) s =
    mkChild pidv (child_calls os n cur (progs s))
      (close_all (open_ends cur (progs s)) (child_table p0 n cur (fds s)))
      (child_end os prog).
Proof.
  intros HL Hprog Hcur Hfit. unfold forked.
  rewrite (start_program_child_run os t0 p0 n cur s prog) by done.
  cbv zeta. cbn [fst snd trace fds]. f_equal.
  unfold child_end. by destruct (can_exec os _).
Qed.

Lemma lookup_child_table p0 n cur (t : gmap Z File) fd :
  child_table p0 n cur t !! fd =
  if decide (fd = FD_STDOUT ∧ (cur + 1 < n)%nat) then Some (PipeW (p0 + cur))
  else if decide (fd = FD_STDIN ∧ (0 < cur)%nat) then Some (PipeR (p0 + cur - 1))
  else t !! fd.
Proof.
  unfold child_table, FD_STDIN, FD_STDOUT.
  destruct (Nat.ltb_spec 0 cur), (Nat.ltb_spec (cur + 1) n);
    rewrite ?lookup_insert; repeat case_decide; try done; lia.
Qed.

Lemma launching_other t0 p0 n cur s fd :
  launching t0 p0 n cur s → fd ∉ open_ends cur (progs s) →
  fds s !! fd = t0 !! fd.
Proof.
  intros (Hlen & (C1 & C2 & C3 & C4) & E) Hnin.
  destruct (fds s !! fd) as [f|] eqn:Hfd.
  - destruct (C3 fd f Hfd) as [H0|(i & p & Hp & Hi & Hcase)]; [done|].
    exfalso. apply Hnin. apply elem_of_open_ends. exists i, p.
    split; [done|]. split; [done|]. apply elem_of_stage_fds.
    destruct Hcase as [(H1 & H2 & ->)|(H1 & ->)].
    + left. destruct (C1 i p Hp) as (? & _); [lia..|]. done.
    + right. destruct (C2 i p Hp) as (? & _); [lia..|]. split; [lia|done].
  - symmetry. by eapply lookup_weaken_None.
Qed.

(** With descriptors 0 and 1 open at the start, the child ends with the
    table it started from, its standard input and output redirected. *)
Lemma child_final_table t0 p0 n cur s :
  launching t0 p0 n cur s →
  is_Some (t0 !! FD_STDIN) → is_Some (t0 !! FD_STDOUT) →
  close_all (open_ends cur (progs s)) (child_table p0 n cur (fds s)) =
  child_table p0 n cur t0.
Proof.
  intros HL [f0 H0] [f1 H1]. apply map_eq. intros fd.
  rewrite lookup_close_all, !lookup_child_table.
  destruct (decide (fd ∈ open_ends cur (progs s))) as [Hin|Hnin].
  - destruct (launching_open_ends _ _ _ _ _ _ HL Hin) as [Hfd _].
    rewrite decide_False by (intros [-> _]; congruence).
    rewrite decide_False by (intros [-> _]; congruence). done.
  - by rewrite (launching_other _ _ _ _ _ _ HL Hnin).
Qed.

(** ** The loops of [main] *)

Lemma story_app tr1 tr2 : story (tr1 ++ tr2) = story tr1 ++ story tr2.
Proof. apply filter_app. Qed.

Lemma story_closes (l : list Z) : story (map (λ fd, EClose fd 0) l) = [].
Proof. induction l as [|fd l IH]; [done|]. exact IH. Qed.

Lemma launch_story_S os l i :
  launch_story os l (S i) =
  launch_story os l i ++
  [EStderr (Starting i (name_of (default null_program (l !! i))));
   EFork (pid_of os i)].
Proof.
  unfold launch_story. rewrite seq_S, flat_map_app. done.
Qed.

Lemma wait_story_S os l cs i :
  wait_story os l cs (S i) =
  wait_story os l cs i ++
  [EStderr (Waiting i (name_of (default null_program (l !! i))));
   EWaitpid (pid_of os i) (if wait_fails os (pid_of os i) then -1 else pid_of os i);
   EStderr (ExitedWith i (name_of (default null_program (l !! i)))
              (default 0 (report os <$> cs !! i)))].
Proof.
  unfold wait_story. rewrite seq_S, flat_map_app. done.
Qed.

Lemma launching_trace t0 p0 n cur s s' :
  progs s' = progs s → fds s' = fds s →
  launching t0 p0 n cur s → launching t0 p0 n cur s'.
Proof.
  unfold launching, connected, edges_unwired. intros -> ->. done.
Qed.

Lemma child_calls_drop os n i (l l' : list Program) :
  drop i l = drop i l' → child_calls os n i l = child_calls os n i l'.
Proof.
  intros H. unfold child_calls, open_ends. rewrite H.
  assert (l !! i = l' !! i) as ->; [|done].
  rewrite <- (Nat.add_0_r i), <- !lookup_drop. by rewrite H.
Qed.

(** One iteration of the spawning loop: a launch when a process can be
    created, the end of [main] otherwise. *)
Lemma spawn_child_step os t0 p0 n l tr1 i s :
  spawning os t0 p0 n l tr1 i s → (i < n)%nat →
  ((1 < n)%nat → (2 ≤ nofile os)%nat) →
  ((i < nproc os)%nat →
     ∃ s', spawn_child os n i s = (Ret tt, s') ∧
           spawning os t0 p0 n l tr1 (S i) s') ∧
  ((nproc os ≤ i)%nat →
     ∃ s', spawn_child os n i s = (Exit EXIT_FAILURE, s')).
Proof.
  intros (HL & Hdrop & Hrel & Hlen & Hch & Hre & Hnp & Hst) Hi Hfit.
  pose proof HL as (Hlenp & _).
  destruct (lookup_lt_is_Some_2 (progs s) i) as [prog Hprog]; [lia|].
  assert (l !! i = Some prog) as Hl.
  { rewrite <- (Nat.add_0_r i), <- lookup_drop, <- Hdrop, lookup_drop.
    by rewrite Nat.add_0_r. }
  unfold spawn_child. rewrite (bind_prog_at _ _ _ _ Hprog).
  rewrite (bind_Ret _ _ _ tt _) by reflexivity.
  set (s1 := emit _ s).
  assert (launching t0 p0 n i s1) as HL1 by (by eapply launching_trace).
  split.
  - intros Hfork.
    destruct (launching_stage _ _ _ _ _ _ HL1 Hprog Hi) as (Hin & Hout & Hne).
    rewrite (start_program_parent os n i s1 prog); try done;
      [|cbn; lia].
    eexists. split; [reflexivity|].
    unfold spawning.
    cbn [progs fds npipes children reaped trace s1 emit].
    rewrite Hlen. fold (pid_of os i).
    split; [by apply launching_step|].
    split; [|split; [|split; [|split; [|split; [|split]]]]].
    + rewrite drop_insert_lt by lia.
      replace (S i) with (i + 1)%nat by lia.
      rewrite <- !drop_drop, Hdrop. done.
    + intros j p Hj Hp. destruct (decide (j = i)) as [->|Hji].
      * rewrite list_lookup_insert_eq by lia. rewrite Hl in Hp. by injection Hp as <-.
      * rewrite list_lookup_insert_ne by done. apply Hrel; [lia|done].
    + rewrite length_app. simpl. lia.
    + intros j Hj. destruct (decide (j = i)) as [->|Hji].
      * eexists. rewrite lookup_app_r by lia. rewrite Hlen, Nat.sub_diag.
        split; [reflexivity|].
        rewrite (forked_child os t0 p0 n i s1 prog) by done.
        unfold stage_child; cbn [c_pid c_trace c_end c_fds].
        split; [done|]. split; [by apply child_calls_drop|].
        split; [by rewrite Hl|].
        intros H0 H1. by apply child_final_table.
      * destruct (Hch j) as (c & Hc & Hsc); [lia|].
        exists c. rewrite lookup_app_l by lia. done.
    + done.
    + done.
    + rewrite !story_app, story_closes, app_nil_r. rewrite Hst.
      rewrite launch_story_S, Hl, <- !app_assoc. done.
  - intros Hfork. unfold start_program.
    erewrite (bind_Ret (fork _ _)); cycle 1.
    { unfold fork. rewrite bool_decide_eq_false_2; [reflexivity|]. cbn. lia. }
    cbn. eexists. reflexivity.
Qed.

Lemma pid_of_inj os i j : pid_of os i = pid_of os j → i = j.
Proof. unfold pid_of. lia. Qed.

Lemma find_child_in_order os (cs : list Child) i c :
  (∀ j c', cs !! j = Some c' → c_pid c' = pid_of os j) →
  cs !! i = Some c → find_child (pid_of os i) cs = Some c.
Proof.
  intros Hord Hc. unfold find_child.
  assert (list_find (λ c', c_pid c' = pid_of os i) cs = Some (i, c)) as ->; [|done].
  apply list_find_Some. split; [done|]. split; [by apply Hord|].
  intros j y Hy Hj Heq. rewrite (Hord j y Hy) in Heq.
  apply pid_of_inj in Heq. lia.
Qed.

(** What [wait_on_program] does, case by case. *)
Lemma wait_on_program_never_launched os prog s :
  pid prog < 0 → wait_on_program os prog s = (Ret (-1), s).
Proof.
  intros H. unfold wait_on_program. by rewrite (proj2 (Z.ltb_lt _ _) H).
Qed.

Lemma wait_on_program_reaps os prog s c :
  0 ≤ pid prog → find_child (pid prog) (children s) = Some c →
  pid prog ∉ reaped s → wait_fails os (pid prog) = false →
  wait_on_program os prog s =
    (Ret (WEXITSTATUS (wstatus (child_termination os c))),
     mkState (progs s) (fds s) (npipes s) (children s) (pid prog :: reaped s)
             (trace s ++ [EWaitpid (pid prog) (pid prog)])).
Proof.
  intros H0 Hc Hre Hw. unfold wait_on_program.
  rewrite (proj2 (Z.ltb_ge _ _) H0).
  erewrite bind_Ret; cycle 1.
  { unfold waitpid. rewrite Hc, Hw. by rewrite bool_decide_eq_false_2. }
  cbv beta iota zeta. by rewrite Z.eqb_refl.
Qed.

Lemma wait_on_program_wait_error os prog s :
  0 ≤ pid prog →
  find_child (pid prog) (children s) = None ∨ pid prog ∈ reaped s ∨
    wait_fails os (pid prog) = true →
  wait_on_program os prog s =
    (Ret (-1), emit (EWaitpid (pid prog) (-1)) s).
Proof.
  intros H0 Herr. unfold wait_on_program.
  rewrite (proj2 (Z.ltb_ge _ _) H0).
  erewrite bind_Ret; cycle 1.
  { unfold waitpid. destruct (find_child _ _) as [c|]; [|reflexivity].
    assert (bool_decide (pid prog ∈ reaped s) || wait_fails os (pid prog) = true) as ->;
      [|reflexivity].
    destruct Herr as [?|[?|Hw]]; [done| |rewrite Hw; by rewrite orb_true_r].
    by rewrite bool_decide_eq_true_2. }
  cbv beta iota zeta.
  assert ((-1 =? pid prog) = false) as -> by (apply Z.eqb_neq; lia). done.
Qed.

(** One iteration of the waiting loop. *)
Lemma wait_for_child_step os s2 i s p c :
  reaping os s2 i s →
  (∀ j c', children s2 !! j = Some c' → c_pid c' = pid_of os j) →
  progs s2 !! i = Some p → pid p = pid_of os i → children s2 !! i = Some c →
  ∃ s', wait_for_child os i s = (Ret tt, s') ∧ reaping os s2 (S i) s'.
Proof.
  intros (Hp & Hf & Hn & Hc & Hre & Hst) Hord Hpi Hpid Hci.
  unfold wait_for_child.
  rewrite (bind_prog_at i _ _ p) by (by rewrite Hp).
  rewrite (bind_Ret _ _ _ tt _) by reflexivity.
  set (s1 := emit _ s).
  assert (0 ≤ pid p) as H0 by (rewrite Hpid; unfold pid_of; lia).
  assert (pid p ∉ reaped s1) as Hnr.
  { intros (j & Hj & Heq)%Hre. rewrite Hpid in Heq.
    apply pid_of_inj in Heq. lia. }
  assert (find_child (pid p) (children s1) = Some c) as Hfc.
  { rewrite Hpid. cbn. rewrite Hc. by apply find_child_in_order. }
  destruct (wait_fails os (pid p)) eqn:Hw.
  - rewrite (bind_Ret _ _ _ _ _ (wait_on_program_wait_error os p s1 H0 ltac:(auto))).
    eexists. split; [reflexivity|].
    unfold reaping. cbn [progs fds npipes children reaped trace emit s1].
    repeat split; try done.
    + intros q Hq. destruct (Hre q Hq) as (j & Hj & ->). exists j. split; [lia|done].
    + rewrite !story_app, Hst, wait_story_S, Hpi, Hci, <- !app_assoc.
      apply (f_equal (app _)). apply (f_equal (app _)).
      simpl. unfold report. rewrite (Hord i c Hci), <- Hpid, Hw.
      reflexivity.
  - rewrite (bind_Ret _ _ _ _ _ (wait_on_program_reaps os p s1 c H0 Hfc Hnr Hw)).
    eexists. split; [reflexivity|].
    unfold reaping. cbn [progs fds npipes children reaped trace emit s1].
    repeat split; try done.
    + intros q [->|Hq]%elem_of_cons.
      * exists i. split; [lia|done].
      * destruct (Hre q Hq) as (j & Hj & ->). exists j. split; [lia|done].
    + rewrite !story_app, Hst, wait_story_S, Hpi, Hci, <- !app_assoc.
      apply (f_equal (app _)). apply (f_equal (app _)).
      simpl. unfold report. rewrite (Hord i c Hci), <- Hpid, Hw.
      reflexivity.
Qed.

(** ** The parser from the initial state *)

Lemma parse_command_line_boot max_num_progs (cl_argv : list string) t0 :
  (2 ≤ length cl_argv)%nat →
  let gs := split_groups (drop 1 cl_argv) in
  let v := classify max_num_progs 0 gs in
  let r := parse_command_line max_num_progs (length cl_argv) cl_argv (boot t0) in
  r = (match v with Accepted => Ret (length gs) | _ => Exit EXIT_FAILURE end,
       mkState (progs r.2) t0 0 [] [] (diagnostic v)) ∧
  match v with
  | Accepted => progs r.2 = map stage_of gs
  | TooManyPrograms => progs r.2 = map stage_of (take max_num_progs gs)
  | _ => True
  end.
Proof.
  intros Hlen gs v r. subst r.
  rewrite parse_command_line_scan by done.
  destruct (scan_groups_classify max_num_progs 0 gs (boot t0))
    as (H1 & H2 & H3 & H4 & H5 & H6 & H7); [lia|].
  fold gs. fold v in H1, H2, H7.
  destruct (scan_groups max_num_progs 0 gs (boot t0)) as [o [pr fd np ch re tr]].
  cbn in *. subst. split; [|by rewrite Nat.sub_0_r in H7].
  by destruct v.
Qed.

Lemma parse_command_line_short max_num_progs (cl_argv : list string) s :
  (length cl_argv ≤ 1)%nat →
  parse_command_line max_num_progs (length cl_argv) cl_argv s = (Ret 0%nat, s).
Proof.
  intros H. unfold parse_command_line.
  destruct (length cl_argv) as [|[|k]] eqn:E; [done|done|lia].
Qed.

Lemma accepted_groups max_num_progs gs :
  gs ≠ [[]] → gs ≠ [] → accept_cond max_num_progs 0 gs →
  (1 ≤ length gs ≤ max_num_progs)%nat ∧ fresh_stages (map stage_of gs).
Proof.
  intros H1 H2 [Ha Hl]. split.
  - destruct gs; [done|]. simpl in *. lia.
  - apply Forall_forall. intros p Hp.
    apply list_elem_of_In, in_map_iff in Hp as (g & <- & _). done.
Qed.

(** ** The end of the launches *)

Lemma launching_done t0 p0 n s : launching t0 p0 n n s → fds s = t0.
Proof.
  intros (Hlen & (C1 & C2 & C3 & C4) & E). apply map_eq. intros fd.
  destruct (fds s !! fd) as [f|] eqn:Hfd.
  - destruct (C3 fd f Hfd) as [H0|(i & p & Hp & Hi & Hcase)]; [done|].
    apply lookup_lt_Some in Hp. lia.
  - symmetry. by eapply lookup_weaken_None.
Qed.

Lemma free_programs_run n s :
  ∃ l, free_programs n s =
         (Ret tt, mkState l (fds s) (npipes s) (children s) (reaped s) (trace s)).
Proof.
  unfold free_programs, for_range. generalize (seq 0 (n - 0)). intros idx.
  revert s. induction idx as [|i idx IH]; intros s.
  - exists (progs s). by destruct s.
  - cbn [for_each]. rewrite (bind_Ret _ _ _ tt _) by reflexivity.
    destruct (IH (set_progs
      (alter (λ p, mkProgram [] (argc p) (pid p) (fd_in p) (fd_out p)) i) s))
      as [l Hl].
    exists l. rewrite Hl. reflexivity.
Qed.

Lemma spawning_start os t0 p0 n sa sb :
  fds sa = t0 → npipes sa = p0 → children sa = [] → reaped sa = [] →
  piping os sa n n sb →
  spawning os t0 p0 n (progs sb) (trace sb) 0 sb ∧
  ((1 < n)%nat → (2 ≤ nofile os)%nat).
Proof.
  intros <- <- Hc Hr (Hlen & Hfit & Hconn & Hedge & Hnp & Hsz & Hsame & Hch & Hre & _).
  split; [|done]. unfold spawning, launching, launch_story.
  rewrite Hch, Hre, Hc, Hr. simpl. rewrite app_nil_r.
  split; [done|]. split; [done|]. split; [intros; lia|]. split; [done|].
  split; [intros; lia|]. done.
Qed.

(** The spawning loop, when processes can be created. *)
Lemma spawn_loop os t0 p0 n l tr1 cur s :
  spawning os t0 p0 n l tr1 0 s → (cur ≤ n)%nat → (cur ≤ nproc os)%nat →
  ((1 < n)%nat → (2 ≤ nofile os)%nat) →
  ∃ s', for_range 0 cur (spawn_child os n) s = (Ret tt, s') ∧
        spawning os t0 p0 n l tr1 cur s'.
Proof.
  intros H0 Hcur Hproc Hfit.
  apply (for_range_inv (spawning os t0 p0 n l tr1)); [lia|done|].
  intros i s1 Hi Hinv.
  destruct (spawn_child_step os t0 p0 n l tr1 i s1 Hinv) as [Hok _]; [lia|done|].
  apply Hok. lia.
Qed.

(** The spawning loop, read backwards: if it returned, it launched. *)
Lemma spawn_loop_inv os t0 p0 n l tr1 cur s s' :
  spawning os t0 p0 n l tr1 0 s → (cur ≤ n)%nat →
  ((1 < n)%nat → (2 ≤ nofile os)%nat) →
  for_range 0 cur (spawn_child os n) s = (Ret tt, s') →
  spawning os t0 p0 n l tr1 cur s' ∧ (cur ≤ nproc os)%nat.
Proof.
  intros H0 Hcur Hfit Hrun.
  destruct (for_range_inv_exit
    (λ i s1, spawning os t0 p0 n l tr1 i s1 ∧ (i ≤ nproc os)%nat)
    (λ _ _ _, True) 0 cur (spawn_child os n) s)
    as [(s1 & Hrun1 & Hinv)|(i & code & s1 & _ & Hrun1 & _)]; [lia| | | |].
  - split; [done|lia].
  - intros i s1 Hi [Hinv Hle].
    destruct (spawn_child_step os t0 p0 n l tr1 i s1 Hinv) as [Hok Hfail];
      [lia|done|].
    destruct (decide (i < nproc os)%nat) as [Hlt|Hge].
    + left. destruct (Hok Hlt) as (s2 & Hs2 & Hinv2). exists s2.
      split; [done|]. split; [done|lia].
    + right. destruct Hfail as (s2 & Hs2); [lia|]. by exists EXIT_FAILURE, s2.
  - rewrite Hrun in Hrun1. by injection Hrun1 as <-.
  - rewrite Hrun in Hrun1. discriminate.
Qed.

(** The waiting loop. *)
Lemma wait_loop os t0 p0 n l tr1 s2 :
  spawning os t0 p0 n l tr1 n s2 → length l = n →
  ∃ s', for_range 0 n (wait_for_child os) s2 = (Ret tt, s') ∧
        reaping os s2 n s'.
Proof.
  intros (HL & Hdrop & Hrel & Hlen & Hch & Hre & Hnp & Hst) Hl.
  assert (∀ j c', children s2 !! j = Some c' → c_pid c' = pid_of os j) as Hord.
  { intros j c' Hc'. destruct (Hch j) as (c & Hc & Hsc & _).
    - rewrite <- Hlen. by eapply lookup_lt_Some.
    - congruence. }
  apply (for_range_inv (reaping os s2)); [lia| |].
  - unfold reaping, wait_story. rewrite Hre. simpl. rewrite app_nil_r.
    repeat split; try done. by intros q ?%elem_of_nil.
  - intros i s1 Hi Hinv.
    destruct (lookup_lt_is_Some_2 l i) as [p Hp]; [lia|].
    destruct (Hch i) as (c & Hc & _); [lia|].
    apply (wait_for_child_step os s2 i s1
             (mkProgram (argv p) (argc p) (pid_of os i) (-1) (-1)) c Hinv Hord);
      [|reflexivity|done].
    apply Hrel; [lia|done].
Qed.

Lemma launch_story_names os l1 l2 n :
  (∀ j, (j < n)%nat → name_of (default null_program (l1 !! j)) =
                       name_of (default null_program (l2 !! j))) →
  launch_story os l1 n = launch_story os l2 n.
Proof.
  induction n as [|n IH]; intros H; [done|].
  rewrite !launch_story_S, IH, H by (intros; auto with lia). done.
Qed.

Lemma wait_story_names os l1 l2 cs n :
  (∀ j, (j < n)%nat → name_of (default null_program (l1 !! j)) =
                       name_of (default null_program (l2 !! j))) →
  wait_story os l1 cs n = wait_story os l2 cs n.
Proof.
  induction n as [|n IH]; intros H; [done|].
  rewrite !wait_story_S, IH, H by (intros; auto with lia). done.
Qed.

Lemma same_stages_name l1 l2 j :
  same_stages l1 l2 →
  name_of (default null_program (l1 !! j)) = name_of (default null_program (l2 !! j)).
Proof.
  intros H. apply same_stages_lookup with (j := j) in H.
  destruct (l1 !! j) as [p1|], (l2 !! j) as [p2|]; try done.
  simpl in *. unfold name_of. by injection H as -> _ _.
Qed.

(** The run of [main] on a well-formed command line, when the pipes and
    the processes can be created. *)
Lemma main_after_pipes os t0 (cl_argv : list string) sb :
  (2 ≤ length cl_argv)%nat →
  let gs := split_groups (drop 1 cl_argv) in
  let n := length gs in
  accept_cond MAX_NUM_PROGRAMS 0 gs →
  prepare_pipes os n (mkState (map stage_of gs) t0 0 [] [] []) = (Ret tt, sb) →
  (n ≤ nproc os)%nat →
  ∃ s' lb,
    main os cl_argv (boot t0) = (Ret 0, s') ∧
    fds s' = t0 ∧ npipes s' = (n - 1)%nat ∧ reaped s' ⊆ pid_of os <$> seq 0 n ∧
    length (children s') = n ∧
    same_stages lb (map stage_of gs) ∧
    (∀ j, (j < n)%nat →
       ∃ c, children s' !! j = Some c ∧ stage_child os t0 0 n lb j c) ∧
    story (trace s') =
      launch_story os (map stage_of gs) n ++
      wait_story os (map stage_of gs) (children s') n ++
      [EStderr EverythingIsGood].
Proof.
  intros Hlen gs n Hacc Hpipes Hproc.
  pose proof (tokens_groups cl_argv Hlen) as Hne. fold gs in Hne.
  destruct (accepted_groups _ gs Hne (split_groups_not_nil _) Hacc) as [Hn Hfresh].
  fold n in Hn.
  (* parsing *)
  destruct (parse_command_line_boot MAX_NUM_PROGRAMS cl_argv t0 Hlen) as [Hparse Hprogs].
  fold gs in Hparse, Hprogs.
  rewrite (proj2 (proj1 (classify_iff MAX_NUM_PROGRAMS 0 gs ltac:(lia) Hne)) Hacc)
    in Hparse, Hprogs.
  rewrite Hprogs in Hparse. clear Hprogs. fold n in Hparse.
  set (sa := mkState (map stage_of gs) t0 0 [] [] []) in *.
  (* pipes *)
  destruct (prepare_pipes_cases os n sa)
    as [(sb' & Hrun & Hpiping)|(i & s1 & _ & _ & _ & Hrun)];
    [lia|cbn; by rewrite length_map|done| |];
    fold sa in Hpipes; rewrite Hpipes in Hrun; [|discriminate].
  injection Hrun as <-.
  destruct (spawning_start os t0 0%nat n sa sb) as [Hsp0 Hfit]; try done.
  pose proof Hpiping as (Hlb & _ & _ & _ & _ & _ & Hsame & _ & _ & evs & Htr & _ & Hevs).
  (* launches *)
  destruct (spawn_loop os t0 0%nat n (progs sb) (trace sb) n sb)
    as (sc & Hspawn & Hsc); [done|lia|lia|done|].
  (* waits *)
  destruct (wait_loop os t0 0%nat n (progs sb) (trace sb) sc Hsc Hlb)
    as (sd & Hwait & Hsd).
  destruct (free_programs_run n sd) as [lf Hfree].
  exists (emit (EStderr EverythingIsGood)
            (mkState lf (fds sd) (npipes sd) (children sd) (reaped sd) (trace sd))),
         (progs sb).
  split.
  { unfold main.
    rewrite (bind_Ret _ _ _ tt (boot t0)) by reflexivity.
    assert ((length cl_argv <=? 1)%nat = false) as -> by (apply Nat.leb_gt; lia).
    cbn [when]. rewrite (bind_Ret _ _ _ tt (boot t0)) by reflexivity.
    rewrite (bind_Ret _ _ _ _ _ Hparse).
    rewrite (bind_Ret _ _ _ _ _ Hpipes).
    rewrite (bind_Ret _ _ _ _ _ Hspawn).
    rewrite (bind_Ret _ _ _ _ _ Hwait).
    rewrite (bind_Ret _ _ _ _ _ Hfree).
    reflexivity. }
  destruct Hsc as (HL & Hdrop & Hrel & Hlenc & Hch & Hre & Hnp & Hst).
  destruct Hsd as (Hp & Hf & Hnpd & Hc & Hred & Hstd).
  cbn [progs fds npipes children reaped trace emit].
  split; [rewrite Hf; by eapply launching_done|].
  split; [lia|].
  split.
  { intros q Hq. destruct (Hred q Hq) as (j & Hj & ->).
    apply list_elem_of_fmap. exists j. split; [done|]. apply elem_of_seq. lia. }
  split; [by rewrite Hc|].
  split; [done|].
  split; [by rewrite Hc|].
  rewrite story_app, Hstd, Hst, Hc. cbn [story filter list_filter].
  rewrite <- !app_assoc.
  assert (story (trace sb) = []) as ->.
  { rewrite Htr, story_app. cbn. clear -Hevs.
    induction Hevs as [|e evs (r & w & ->) _ IH]; [done|]. exact IH. }
  cbn [app]. f_equal; [|f_equal].
  - apply launch_story_names. intros j _. by apply same_stages_name.
  - apply wait_story_names. intros j Hj.
    change (map stage_of gs) with (progs sa).
    rewrite <- (same_stages_name (progs sb) (progs sa) j Hsame).
    destruct (lookup_lt_is_Some_2 (progs sb) j) as [p Hpj]; [lia|].
    rewrite (Hrel j p Hj Hpj), Hpj. done.
Qed.

(** The same, with descriptors to spare. *)
Lemma main_run os t0 (cl_argv : list string) :
  (2 ≤ length cl_argv)%nat →
  let gs := split_groups (drop 1 cl_argv) in
  let n := length gs in
  accept_cond MAX_NUM_PROGRAMS 0 gs →
  (size t0 + 2 * (n - 1) ≤ nofile os)%nat →
  (n ≤ nproc os)%nat →
  ∃ s' lb,
    main os cl_argv (boot t0) = (Ret 0, s') ∧
    fds s' = t0 ∧ npipes s' = (n - 1)%nat ∧ reaped s' ⊆ pid_of os <$> seq 0 n ∧
    length (children s') = n ∧
    same_stages lb (map stage_of gs) ∧
    (∀ j, (j < n)%nat →
       ∃ c, children s' !! j = Some c ∧ stage_child os t0 0 n lb j c) ∧
    story (trace s') =
      launch_story os (map stage_of gs) n ++
      wait_story os (map stage_of gs) (children s') n ++
      [EStderr EverythingIsGood].
Proof.
  intros Hlen gs n Hacc Hfd Hproc.
  pose proof (tokens_groups cl_argv Hlen) as Hne. fold gs in Hne.
  destruct (accepted_groups _ gs Hne (split_groups_not_nil _) Hacc) as [Hn Hfresh].
  destruct (prepare_pipes_spec os n (mkState (map stage_of gs) t0 0 [] [] []))
    as (sb & Hpipes & _); [lia|cbn; by rewrite length_map|done|done|].
  by apply (main_after_pipes os t0 cl_argv sb).
Qed.

(** ** The status word *)

Lemma WEXITSTATUS_exited k :
  0 ≤ k ≤ 255 → WEXITSTATUS (wstatus (Exited k)) = k.
Proof.
  intros Hk. unfold WEXITSTATUS, wstatus.
  change 65280 with (Z.shiftl 255 8).
  rewrite <- Z.shiftl_land, Z.shiftr_shiftl_l by lia.
  rewrite Z.sub_diag, Z.shiftl_0_r, <- Z.land_assoc, Z.land_diag.
  change 255 with (Z.ones 8). rewrite Z.land_ones by lia.
  apply Z.mod_small. lia.
Qed.

Lemma WEXITSTATUS_byte status :
  WEXITSTATUS status = Z.land (Z.shiftr status 8) 255.
Proof.
  unfold WEXITSTATUS. apply Z.bits_inj'. intros i Hi.
  rewrite Z.shiftr_spec, !Z.land_spec, Z.shiftr_spec by lia. f_equal.
  change 65280 with (Z.shiftl 255 8). rewrite Z.shiftl_spec by lia.
  f_equal. lia.
Qed.

Lemma WEXITSTATUS_range status : 0 ≤ WEXITSTATUS status ≤ 255.
Proof.
  rewrite WEXITSTATUS_byte.
  replace (Z.land (Z.shiftr status 8) 255) with (Z.shiftr status 8 `mod` 2 ^ 8).
  2:{ change 255 with (Z.ones 8). by rewrite Z.land_ones by lia. }
  pose proof (Z.mod_pos_bound (Z.shiftr status 8) (2 ^ 8)). lia.
Qed.

Lemma WEXITSTATUS_signaled sig core :
  WEXITSTATUS (wstatus (Signaled sig core)) = 0.
Proof.
  unfold WEXITSTATUS, wstatus. apply Z.bits_inj'. intros i Hi.
  rewrite Z.bits_0, Z.shiftr_spec, Z.land_spec, Z.lor_spec, Z.land_spec by lia.
  assert (Z.testbit 127 (i + 8) = false) as ->.
  { change 127 with (Z.ones 7). apply Z.ones_spec_high. lia. }
  assert (Z.testbit (if core then 128 else 0) (i + 8) = false) as ->.
  { destruct core; [|apply Z.bits_0].
    change 128 with (2 ^ 7). apply Z.pow2_bits_false. lia. }
  by rewrite andb_false_r.
Qed.

(** ** The state in which a stage is launched *)

(** If [main] got as far as launching stage [cur], the stages from [cur]
    on are connected and the earlier ones are launched. *)
Lemma launch_prefix os t0 (cl_argv : list string) n sa sb cur s :
  parse_command_line MAX_NUM_PROGRAMS (length cl_argv) cl_argv (boot t0) = (Ret n, sa) →
  prepare_pipes os n sa = (Ret tt, sb) →
  for_range 0 cur (spawn_child os n) sb = (Ret tt, s) →
  (cur < n)%nat →
  spawning os t0 0 n (progs sb) (trace sb) cur s ∧
  ((1 < n)%nat → (2 ≤ nofile os)%nat) ∧ length (progs sb) = n.
Proof.
  intros Hparse Hpipes Hspawn Hcur.
  destruct (decide (length cl_argv ≤ 1)%nat) as [Hshort|Hlong].
  { rewrite parse_command_line_short in Hparse by done.
    injection Hparse as <- _. lia. }
  assert (2 ≤ length cl_argv)%nat as Hlen by lia.
  pose proof (tokens_groups cl_argv Hlen) as Hne.
  destruct (parse_command_line_boot MAX_NUM_PROGRAMS cl_argv t0 Hlen) as [Hr Hprogs].
  set (gs := split_groups (drop 1 cl_argv)) in *.
  pose proof (classify_sound MAX_NUM_PROGRAMS 0 gs ltac:(lia) Hne) as Hsound.
  rewrite Hparse in Hr.
  destruct (classify MAX_NUM_PROGRAMS 0 gs) eqn:Hv; try discriminate.
  rewrite Hparse in Hprogs. cbn [snd] in Hr, Hprogs. rewrite Hprogs in Hr. injection Hr as Hn Hsa.
  subst n. clear Hparse Hprogs.
  destruct (accepted_groups _ gs Hne (split_groups_not_nil _) Hsound) as [Hn Hfresh].
  destruct (prepare_pipes_cases os (length gs) sa)
    as [(sb' & Hrun & Hpiping)|(i & s1 & _ & _ & _ & Hrun)];
    [lia|by rewrite Hsa; cbn; rewrite length_map|by rewrite Hsa| |].
  2:{ rewrite Hpipes in Hrun. discriminate. }
  rewrite Hpipes in Hrun. injection Hrun as <-.
  assert (fds sa = t0 ∧ npipes sa = 0%nat ∧ children sa = [] ∧ reaped sa = [])
    as (Hf & Hnp & Hch & Hre) by (by rewrite Hsa).
  destruct (spawning_start os t0 0%nat (length gs) sa sb Hf Hnp Hch Hre Hpiping)
    as [Hsp0 Hfit].
  destruct (spawn_loop_inv os t0 0%nat (length gs) (progs sb) (trace sb) cur sb s)
    as [Hsp _]; [done|lia|done|done|].
  split; [done|]. split; [done|]. by destruct Hpiping.
Qed.

(** A launch from a launching state: the parent's new state and the child. *)
Lemma start_program_launching os t0 p0 n cur s prog :
  launching t0 p0 n cur s → progs s !! cur = Some prog → (cur < n)%nat →
  (length (children s) < nproc os)%nat →
  ((1 < n)%nat → (2 ≤ nofile os)%nat) →
  let p := pid_of os (length (children s)) in
  let s' := mkState (<[cur := mkProgram (argv prog) (argc prog) p (-1) (-1)]> (progs s))
              (close_all (parent_closes n cur prog) (fds s)) (npipes s)
              (children s ++
                 [mkChild p (child_calls os n cur (progs s))
                    (close_all (open_ends cur (progs s)) (child_table p0 n cur (fds s)))
                    (child_end os prog)])
              (reaped s)
              (trace s ++ [EFork p] ++ (map (λ fd, EClose fd 0) (parent_closes n cur prog))) in
  start_program os n cur s = (Ret tt, s') ∧ launching t0 p0 n (S cur) s'.
Proof.
  intros HL Hprog Hcur Hfork Hfit p s'.
  destruct (launching_stage _ _ _ _ _ _ HL Hprog Hcur) as (Hin & Hout & Hne).
  split.
  - rewrite (start_program_parent os n cur s prog) by done.
    unfold s', p, pid_of. do 3 f_equal.
    by rewrite (forked_child os t0 p0 n cur s prog).
  - by apply launching_step.
Qed.

(** ** Reading the trace *)

Lemma omap_story {A} (f : event → option A) tr :
  (∀ e, lifecycle e = false → f e = None) →
  omap f (story tr) = omap f tr.
Proof.
  intros Hf. induction tr as [|e tr IH]; [done|].
  unfold story in *. rewrite filter_cons. destruct (lifecycle e) eqn:He.
  - rewrite decide_True by done. cbn. by rewrite IH.
  - rewrite decide_False by (by intros ?). cbn. rewrite (Hf e He). exact IH.
Qed.

Lemma story_projections os l cs n tr :
  story tr = launch_story os l n ++ wait_story os l cs n ++ [EStderr EverythingIsGood] →
  forks tr = pid_of os <$> seq 0 n ∧
  waits tr = pid_of os <$> seq 0 n ∧
  exit_reports tr = (λ j, (j, default 0 (report os <$> cs !! j))) <$> seq 0 n.
Proof.
  intros Hst.
  assert (forks (launch_story os l n) = pid_of os <$> seq 0 n ∧
          waits (launch_story os l n) = [] ∧
          exit_reports (launch_story os l n) = []) as (F1 & W1 & R1).
  { clear. induction n as [|n (IH1 & IH2 & IH3)]; [done|].
    rewrite launch_story_S, seq_S, fmap_app. unfold forks, waits, exit_reports in *.
    rewrite !omap_app, IH1, IH2, IH3. done. }
  assert (forks (wait_story os l cs n) = [] ∧
          waits (wait_story os l cs n) = pid_of os <$> seq 0 n ∧
          exit_reports (wait_story os l cs n) =
            (λ j, (j, default 0 (report os <$> cs !! j))) <$> seq 0 n) as (F2 & W2 & R2).
  { clear. induction n as [|n (IH1 & IH2 & IH3)]; [done|].
    rewrite wait_story_S, seq_S, !fmap_app. unfold forks, waits, exit_reports in *.
    rewrite !omap_app, IH1, IH2, IH3. done. }
  unfold forks, waits, exit_reports in *.
  rewrite <- (omap_story _ tr), <- (omap_story (λ e, match e with EWaitpid p _ => Some p | _ => None end) tr),
    <- (omap_story (λ e, match e with EStderr (ExitedWith i _ st) => Some (i, st) | _ => None end) tr);
    try (by intros []).
  rewrite Hst, !omap_app, F1, F2, W1, W2, R1, R2. cbn. by rewrite !app_nil_r.
Qed.

Lemma map_is_fmap {A B} (f : A → B) (l : list A) : map f l = f <$> l.
Proof. induction l as [|x l IH]; [done|]. cbn. by rewrite IH. Qed.

(** What a returning parse tells. *)
Lemma parse_command_line_returns (cl_argv : list string) t0 n sa :
  (2 ≤ length cl_argv)%nat →
  parse_command_line MAX_NUM_PROGRAMS (length cl_argv) cl_argv (boot t0) = (Ret n, sa) →
  let gs := split_groups (drop 1 cl_argv) in
  accept_cond MAX_NUM_PROGRAMS 0 gs ∧ n = length gs ∧
  sa = mkState (map stage_of gs) t0 0 [] [] [].
Proof.
  intros Hlen Hparse gs.
  pose proof (tokens_groups cl_argv Hlen) as Hne.
  destruct (parse_command_line_boot MAX_NUM_PROGRAMS cl_argv t0 Hlen) as [Hr Hprogs].
  fold gs in Hr, Hprogs, Hne.
  pose proof (classify_sound MAX_NUM_PROGRAMS 0 gs ltac:(lia) Hne) as Hsound.
  rewrite Hparse in Hr.
  destruct (classify MAX_NUM_PROGRAMS 0 gs) eqn:Hv; try discriminate.
  rewrite Hparse in Hprogs. cbn [snd] in Hr, Hprogs. rewrite Hprogs in Hr.
  injection Hr as Hn Hsa. done.
Qed.

Lemma child_end_stage os lb gs j g :
  same_stages lb (map stage_of gs) → gs !! j = Some g →
  child_end os (default null_program (lb !! j)) = child_end os (stage_of g).
Proof.
  intros Hsame Hg. apply same_stages_lookup with (j := j) in Hsame.
  rewrite map_is_fmap, list_lookup_fmap, Hg in Hsame.
  destruct (lb !! j) as [p|]; [|done]. simpl in Hsame.
  injection Hsame as Ha _ _. unfold child_end. simpl. by rewrite Ha.
Qed.

(** * The properties *)

(** C2.  In a pipeline of [n ≥ 1] stages launched in increasing order, the
    child created by [start_program] for stage [cur] duplicates the stage's
    [fd_in] onto descriptor 0 when [cur > 0] and its [fd_out] onto
    descriptor 1 when [cur < n - 1], then closes every pipe descriptor of
    every stage with index [≥ cur] (all of them open until then, the two
    just duplicated included), and only then calls [execvp]; when [execvp]
    fails the child alone exits, with [EXIT_FAILURE], and the parent goes
    on.  When the orchestrator was started with descriptors 0 and 1 open,
    the child is left with the table the orchestrator started with, its
    input and output replaced by the pipe ends. *)
Theorem start_program_child_redirects_closes_execs
    os t0 (cl_argv : list string) n sa sb cur s prog :
  parse_command_line MAX_NUM_PROGRAMS (length cl_argv) cl_argv (boot t0) = (Ret n, sa) →
  prepare_pipes os n sa = (Ret tt, sb) →
  for_range 0 cur (spawn_child os n) sb = (Ret tt, s) →
  (cur < n)%nat → (cur < nproc os)%nat →
  progs s !! cur = Some prog →
  ∃ s' c,
    start_program os n cur s = (Ret tt, s') ∧
    children s' = children s ++ [c] ∧
    c_trace c =
      (if (0 <? cur)%nat then [EDup2 (fd_in prog) FD_STDIN FD_STDIN] else []) ++
      (if (cur + 1 <? n)%nat then [EDup2 (fd_out prog) FD_STDOUT FD_STDOUT] else []) ++
      (map (λ fd, EClose fd 0) (open_ends cur (progs s))) ++
      [EExecvp (hd "" (argv prog)) (argv prog)] ++
      (if can_exec os (hd "" (argv prog)) then []
       else [EStderr (Error "execvp() failed.")]) ∧
    (∀ fd, fd ∈ open_ends cur (progs s) ↔
       ∃ i p, (cur ≤ i)%nat ∧ progs s !! i = Some p ∧
              ((0 ≤ fd_in p ∧ fd = fd_in p) ∨ (0 ≤ fd_out p ∧ fd = fd_out p))) ∧
    (∀ fd, fd ∈ open_ends cur (progs s) → is_Some (fds s !! fd)) ∧
    ((0 < cur)%nat → fds s !! fd_in prog = Some (PipeR (cur - 1)) ∧
                     fd_in prog ∈ open_ends cur (progs s)) ∧
    ((cur + 1 < n)%nat → fds s !! fd_out prog = Some (PipeW cur) ∧
                         fd_out prog ∈ open_ends cur (progs s)) ∧
    c_end c = (if can_exec os (hd "" (argv prog))
               then Exec (hd "" (argv prog)) (argv prog)
               else Exit EXIT_FAILURE) ∧
    (can_exec os (hd "" (argv prog)) = false →
     child_termination os c = Exited EXIT_FAILURE) ∧
    (is_Some (t0 !! FD_STDIN) → is_Some (t0 !! FD_STDOUT) →
     c_fds c = child_table 0 n cur t0).
Proof.
  intros Hparse Hpipes Hspawn Hcur Hfork Hprog.
  destruct (launch_prefix os t0 cl_argv n sa sb cur s Hparse Hpipes Hspawn Hcur)
    as ((HL & _ & _ & Hlen & _) & Hfit & _).
  destruct (start_program_launching os t0 0%nat n cur s prog HL Hprog Hcur)
    as [Hrun _]; [lia|done|].
  eexists _, _. split; [exact Hrun|]. cbn [children c_trace c_end c_fds].
  split; [done|].
  split.
  { unfold child_calls, child_dups. rewrite Hprog. cbn [default from_option id].
    by rewrite <- !app_assoc. }
  split.
  { intros fd. rewrite elem_of_open_ends. setoid_rewrite elem_of_stage_fds. done. }
  split.
  { intros fd Hfd. by eapply (launching_open_ends t0 0%nat n cur s fd). }
  pose proof HL as (_ & (C1 & C2 & _) & _).
  split.
  { intros H0. destruct (C1 cur prog Hprog) as (Hi & Hf & _); [lia..|].
    split; [done|]. apply elem_of_open_ends. exists cur, prog.
    split; [done|]. split; [done|]. apply elem_of_stage_fds. by left. }
  split.
  { intros H0. destruct (C2 cur prog Hprog) as (Hi & Hf & _); [lia..|].
    split; [done|]. apply elem_of_open_ends. exists cur, prog.
    split; [done|]. split; [done|]. apply elem_of_stage_fds. right.
    split; [lia|done]. }
  split; [done|].
  split.
  { intros Hno. unfold child_termination, child_end. cbn. by rewrite Hno. }
  intros H0 H1. by apply child_final_table.
Qed.

Lemma start_program_child_redirects_closes_execs_witness :
  parse_command_line MAX_NUM_PROGRAMS (length demo_argv) demo_argv (boot std_table)
    = (Ret 3%nat, demo_parsed) ∧
  prepare_pipes demo_os 3 demo_parsed = (Ret tt, demo_piped) ∧
  for_range 0 1 (spawn_child demo_os 3) demo_piped = (Ret tt, demo_launched0) ∧
  progs demo_launched0 !! 1%nat = Some demo_stage1 ∧
  ∃ s' c,
    start_program demo_os 3 1 demo_launched0 = (Ret tt, s') ∧
    children s' = children demo_launched0 ++ [c] ∧
    c_trace c =
      [EDup2 3 0 0; EDup2 6 1 1; EClose 3 0; EClose 6 0; EClose 5 0;
       EExecvp "tr" ["tr"; "a-z"; "A-Z"]] ∧
    c_fds c = <[1 := PipeW 1]> (<[0 := PipeR 0]> std_table).
Proof.
  assert (parse_command_line MAX_NUM_PROGRAMS (length demo_argv) demo_argv
            (boot std_table) = (Ret 3%nat, demo_parsed)) as H1
    by (vm_compute; reflexivity).
  assert (prepare_pipes demo_os 3 demo_parsed = (Ret tt, demo_piped)) as H2
    by (vm_compute; reflexivity).
  assert (for_range 0 1 (spawn_child demo_os 3) demo_piped = (Ret tt, demo_launched0)) as H3
    by (vm_compute; reflexivity).
  assert (progs demo_launched0 !! 1%nat = Some demo_stage1) as H4
    by (vm_compute; reflexivity).
  do 4 (split; [assumption|]).
  destruct (start_program_child_redirects_closes_execs demo_os std_table demo_argv
              3 demo_parsed demo_piped 1 demo_launched0 demo_stage1 H1 H2 H3)
    as (s' & c & Hrun & Hch & Htr & _ & _ & _ & _ & _ & _ & Hfds);
    [vm_compute; lia|vm_compute; lia|exact H4|].
  exists s', c. split; [exact Hrun|]. split; [exact Hch|].
  split; [rewrite Htr; vm_compute; reflexivity|].
  rewrite Hfds; [reflexivity|vm_compute; eauto|vm_compute; eauto].
Defined.

(** C3.  When [start_program] returns in the parent for stage [cur], the
    parent has closed its copies of the pipe ends handed to the child (the
    stage's [fd_in] when [cur > 0], its [fd_out] when [cur < n - 1]), has
    recorded the child's pid and has set both descriptor fields of the
    stage to [-1]; it holds no descriptor it did not hold before, and
    once the last stage is launched its descriptor table is the one the
    process started with: no pipe end is left open in the orchestrator. *)
Theorem start_program_parent_releases
    os t0 (cl_argv : list string) n sa sb cur s prog :
  parse_command_line MAX_NUM_PROGRAMS (length cl_argv) cl_argv (boot t0) = (Ret n, sa) →
  prepare_pipes os n sa = (Ret tt, sb) →
  for_range 0 cur (spawn_child os n) sb = (Ret tt, s) →
  (cur < n)%nat → (cur < nproc os)%nat →
  progs s !! cur = Some prog →
  ∃ s',
    start_program os n cur s = (Ret tt, s') ∧
    progs s' !! cur =
      Some (mkProgram (argv prog) (argc prog) (pid_of os cur) (-1) (-1)) ∧
    ((0 < cur)%nat →
       fds s !! fd_in prog = Some (PipeR (cur - 1)) ∧ fds s' !! fd_in prog = None) ∧
    ((cur + 1 < n)%nat →
       fds s !! fd_out prog = Some (PipeW cur) ∧ fds s' !! fd_out prog = None) ∧
    fds s' ⊆ fds s ∧ t0 ⊆ fds s' ∧
    ((cur + 1 = n)%nat → fds s' = t0).
Proof.
  intros Hparse Hpipes Hspawn Hcur Hfork Hprog.
  destruct (launch_prefix os t0 cl_argv n sa sb cur s Hparse Hpipes Hspawn Hcur)
    as ((HL & _ & _ & Hlen & _) & Hfit & _).
  destruct (start_program_launching os t0 0%nat n cur s prog HL Hprog Hcur)
    as [Hrun HL']; [lia|done|].
  eexists. split; [exact Hrun|]. cbn [progs fds].
  pose proof HL as (Hlenp & (C1 & C2 & _) & _).
  split.
  { rewrite list_lookup_insert_eq by lia. by rewrite Hlen. }
  split.
  { intros H0. destruct (C1 cur prog Hprog) as (_ & Hf & _); [lia..|].
    split; [done|]. rewrite lookup_close_all, decide_True; [done|].
    apply elem_of_parent_closes. by left. }
  split.
  { intros H0. destruct (C2 cur prog Hprog) as (_ & Hf & _); [lia..|].
    split; [done|]. rewrite lookup_close_all, decide_True; [done|].
    apply elem_of_parent_closes. by right. }
  split.
  { apply map_subseteq_spec. intros fd f. rewrite lookup_close_all.
    by case_decide. }
  split.
  { by destruct HL' as (_ & (_ & _ & _ & H4) & _). }
  intros Hlast. replace (S cur) with n in HL' by lia.
  by apply launching_done in HL'.
Qed.

Lemma start_program_parent_releases_witness :
  parse_command_line MAX_NUM_PROGRAMS (length demo_argv) demo_argv (boot std_table)
    = (Ret 3%nat, demo_parsed) ∧
  prepare_pipes demo_os 3 demo_parsed = (Ret tt, demo_piped) ∧
  for_range 0 2 (spawn_child demo_os 3) demo_piped = (Ret tt, demo_launched01) ∧
  progs demo_launched01 !! 2%nat = Some demo_stage2 ∧
  ∃ s',
    start_program demo_os 3 2 demo_launched01 = (Ret tt, s') ∧
    progs s' !! 2%nat = Some (mkProgram ["wc"] 1 102 (-1) (-1)) ∧
    fds s' = std_table.
Proof.
  assert (parse_command_line MAX_NUM_PROGRAMS (length demo_argv) demo_argv
            (boot std_table) = (Ret 3%nat, demo_parsed)) as H1
    by (vm_compute; reflexivity).
  assert (prepare_pipes demo_os 3 demo_parsed = (Ret tt, demo_piped)) as H2
    by (vm_compute; reflexivity).
  assert (for_range 0 2 (spawn_child demo_os 3) demo_piped = (Ret tt, demo_launched01)) as H3
    by (vm_compute; reflexivity).
  assert (progs demo_launched01 !! 2%nat = Some demo_stage2) as H4
    by (vm_compute; reflexivity).
  do 4 (split; [assumption|]).
  destruct (start_program_parent_releases demo_os std_table demo_argv
              3 demo_parsed demo_piped 2 demo_launched01 demo_stage2 H1 H2 H3)
    as (s' & Hrun & Hp & _ & _ & _ & _ & Hfds);
    [vm_compute; lia|vm_compute; lia|exact H4|].
  exists s'. split; [exact Hrun|]. split; [exact Hp|]. apply Hfds. reflexivity.
Defined.

(** C6.  On [n ≥ 1] freshly parsed stages, with descriptors to spare,
    [prepare_pipes] creates exactly [n - 1] pipes; the write end of pipe
    [i] is in stage [i]'s [fd_out] and its read end in stage [i+1]'s
    [fd_in]; stage 0 has no input descriptor and stage [n - 1] no output
    descriptor; the descriptor table gains exactly these [2 (n - 1)]
    descriptors, and for [n = 1] nothing happens at all. *)
Theorem prepare_pipes_connects os n s0 :
  (1 ≤ n)%nat → length (progs s0) = n → fresh_stages (progs s0) →
  (size (fds s0) + 2 * (n - 1) ≤ nofile os)%nat →
  ∃ s' evs,
    prepare_pipes os n s0 = (Ret tt, s') ∧
    npipes s' = (npipes s0 + (n - 1))%nat ∧
    trace s' = trace s0 ++ evs ∧ length evs = (n - 1)%nat ∧
    Forall (λ e, ∃ r w, e = EPipe 0 r w) evs ∧
    size (fds s') = (size (fds s0) + 2 * (n - 1))%nat ∧
    fds s0 ⊆ fds s' ∧
    length (progs s') = n ∧ same_stages (progs s') (progs s0) ∧
    (∀ i p q, progs s' !! i = Some p → progs s' !! S i = Some q →
       0 < fd_out p ∧ fds s' !! fd_out p = Some (PipeW (npipes s0 + i)) ∧
       fds s0 !! fd_out p = None ∧
       0 ≤ fd_in q ∧ fds s' !! fd_in q = Some (PipeR (npipes s0 + i)) ∧
       fds s0 !! fd_in q = None) ∧
    (∀ p, progs s' !! 0%nat = Some p → fd_in p = -1) ∧
    (∀ p, progs s' !! (n - 1)%nat = Some p → fd_out p = -1) ∧
    (∀ fd f, fds s' !! fd = Some f →
       fds s0 !! fd = Some f ∨
       ∃ i p, progs s' !! i = Some p ∧
              (((1 ≤ i)%nat ∧ fd = fd_in p) ∨ ((i + 1 < n)%nat ∧ fd = fd_out p))) ∧
    (n = 1%nat → s' = s0).
Proof.
  intros Hn Hlen Hfresh Hsize.
  destruct (prepare_pipes_spec os n s0 Hn Hlen Hfresh Hsize) as (s' & Hrun & Hp).
  destruct Hp as (Hl & _ & (C1 & C2 & C3 & C4) & (E1 & E2) & Hnp & Hsz & Hsame & _ & _ & evs & Htr & Hevl & Hevs).
  exists s', evs. repeat (split; [done|]).
  split.
  { intros i p q Hp Hq.
    assert (S i < n)%nat as Hi by (rewrite <- Hl; by eapply lookup_lt_Some).
    destruct (C2 i p Hp) as (H1 & H2 & H3); [lia..|].
    destruct (C1 (S i) q Hq) as (H4 & H5 & H6); [lia..|].
    replace (npipes s0 + S i - 1)%nat with (npipes s0 + i)%nat in H5 by lia.
    done. }
  split; [done|]. split; [done|].
  split.
  { intros fd f Hfd. destruct (C3 fd f Hfd) as [?|(i & p & Hp & _ & Hcase)]; [by left|].
    right. exists i, p. split; [done|].
    destruct Hcase as [(? & ? & ?)|(? & ?)]; [by left|by right]. }
  intros ->. unfold prepare_pipes in Hrun.
  rewrite for_range_nil in Hrun by lia. by injection Hrun as <-.
Qed.

Lemma prepare_pipes_connects_witness :
  (1 ≤ 3)%nat ∧ length (progs demo_parsed) = 3%nat ∧
  fresh_stages (progs demo_parsed) ∧
  (size (fds demo_parsed) + 2 * (3 - 1) ≤ nofile demo_os)%nat ∧
  ∃ s', prepare_pipes demo_os 3 demo_parsed = (Ret tt, s') ∧
        npipes s' = 2%nat ∧ size (fds s') = 7%nat.
Proof.
  assert (fresh_stages (progs demo_parsed)) as Hfresh.
  { apply (bool_decide_unpack _). vm_compute. exact I. }
  assert (size (fds demo_parsed) + 2 * (3 - 1) ≤ nofile demo_os)%nat as Hsize.
  { vm_compute. lia. }
  split; [lia|]. split; [reflexivity|]. split; [exact Hfresh|]. split; [exact Hsize|].
  destruct (prepare_pipes_connects demo_os 3 demo_parsed)
    as (s' & evs & Hrun & Hnp & _ & _ & _ & Hsz & _);
    [lia|reflexivity|exact Hfresh|exact Hsize|].
  exists s'. split; [exact Hrun|]. split; [exact Hnp|exact Hsz].
Defined.

(** C4, as the program has it.  When a pipe cannot be created,
    [prepare_pipes] writes the diagnostic and ends the whole process with
    [EXIT_FAILURE]; it closes nothing itself: the [k] pipes created before
    the failure are still open when [exit] is called, and the trace of
    [prepare_pipes] holds the [k] successful calls, the failed one and the
    diagnostic only. *)
Theorem prepare_pipes_failure_exits os n s0 code s' :
  (1 ≤ n)%nat → length (progs s0) = n → fresh_stages (progs s0) →
  prepare_pipes os n s0 = (Exit code, s') →
  code = EXIT_FAILURE ∧
  ∃ k evs,
    (k < n - 1)%nat ∧
    npipes s' = (npipes s0 + k)%nat ∧
    size (fds s') = (size (fds s0) + 2 * k)%nat ∧
    fds s0 ⊆ fds s' ∧
    trace s' =
      trace s0 ++ evs ++ [EPipe (-1) 0 0; EStderr (Error "pipe() failed.")] ∧
    length evs = k ∧ Forall (λ e, ∃ r w, e = EPipe 0 r w) evs ∧
    (nofile os < size (fds s') + 2)%nat.
Proof.
  intros Hn Hlen Hfresh Hrun.
  destruct (prepare_pipes_cases os n s0 Hn Hlen Hfresh)
    as [(s1 & Hrun1 & _)|(i & s1 & Hi & Hp & Hfull & Hrun1)];
    rewrite Hrun in Hrun1; [discriminate|].
  injection Hrun1 as -> ->. split; [done|].
  destruct Hp as (_ & _ & (_ & _ & _ & C4) & _ & Hnp & Hsz & _ & _ & _ & evs & Htr & Hevl & Hevs).
  exists (i - 1)%nat, evs. cbn [npipes fds trace emit].
  split; [lia|]. split; [done|]. split; [done|]. split; [done|].
  split; [by rewrite Htr, <- !app_assoc|]. done.
Qed.

Lemma prepare_pipes_failure_exits_witness :
  (1 ≤ 3)%nat ∧ length (progs demo_parsed) = 3%nat ∧
  fresh_stages (progs demo_parsed) ∧
  prepare_pipes tight_os 3 demo_parsed =
    (Exit 1, (prepare_pipes tight_os 3 demo_parsed).2) ∧
  ∃ k, npipes (prepare_pipes tight_os 3 demo_parsed).2 = (0 + k)%nat ∧
       size (fds (prepare_pipes tight_os 3 demo_parsed).2) = (3 + 2 * k)%nat.
Proof.
  assert (fresh_stages (progs demo_parsed)) as Hfresh.
  { apply (bool_decide_unpack _). vm_compute. exact I. }
  assert (prepare_pipes tight_os 3 demo_parsed =
            (Exit 1, (prepare_pipes tight_os 3 demo_parsed).2)) as Hrun.
  { vm_compute. reflexivity. }
  split; [lia|]. split; [reflexivity|]. split; [exact Hfresh|]. split; [exact Hrun|].
  destruct (prepare_pipes_failure_exits tight_os 3 demo_parsed 1 _
              ltac:(lia) eq_refl Hfresh Hrun)
    as (_ & k & evs & _ & Hnp & Hsz & _).
  exists k. split; [exact Hnp|exact Hsz].
Defined.

(** C4 as stated fails: with room for five descriptors and three stages,
    the second pipe cannot be created; [prepare_pipes] exits without a
    single [close], the two ends of the first pipe (descriptors 3 and 4)
    still open. *)
Lemma prepare_pipes_failure_closes_nothing :
  (prepare_pipes tight_os 3 demo_parsed).1 = Exit EXIT_FAILURE ∧
  fds (prepare_pipes tight_os 3 demo_parsed).2 !! 3 = Some (PipeR 0) ∧
  fds (prepare_pipes tight_os 3 demo_parsed).2 !! 4 = Some (PipeW 0) ∧
  trace (prepare_pipes tight_os 3 demo_parsed).2 =
    [EPipe 0 3 4; EPipe (-1) 0 0; EStderr (Error "pipe() failed.")].
Proof. vm_compute. done. Qed.

(** C1, as the program has it.  Waiting on a launched stage whose wait
    succeeds returns the stage's exit code [k] ([0 ≤ k ≤ 255]) when it
    exited normally with code [k]; when the stage was killed by a signal
    it returns 0, the exit-status byte of the status word: the result is
    always a number from 0 to 255, with no variant for abnormal
    termination and no signal number in it. *)
Theorem wait_on_program_exit_status os prog s c :
  0 ≤ pid prog → find_child (pid prog) (children s) = Some c →
  pid prog ∉ reaped s → wait_fails os (pid prog) = false →
  (∀ k, 0 ≤ k ≤ 255 → child_termination os c = Exited k →
        (wait_on_program os prog s).1 = Ret k) ∧
  (∀ sig core, child_termination os c = Signaled sig core →
        (wait_on_program os prog s).1 = Ret 0) ∧
  (∃ k, 0 ≤ k ≤ 255 ∧ (wait_on_program os prog s).1 = Ret k).
Proof.
  intros H0 Hc Hre Hw.
  rewrite (wait_on_program_reaps os prog s c H0 Hc Hre Hw). cbn [fst].
  split; [|split].
  - intros k Hk ->. by rewrite WEXITSTATUS_exited.
  - intros sig core ->. by rewrite WEXITSTATUS_signaled.
  - eexists. split; [apply WEXITSTATUS_range|reflexivity].
Qed.

Lemma wait_on_program_exit_status_witness :
  0 ≤ pid (demo_entry 1) ∧
  (∃ c, find_child (pid (demo_entry 1)) (children demo_running) = Some c ∧
        child_termination demo_os c = Signaled 9 false) ∧
  (pid (demo_entry 1) ∉ reaped demo_running) ∧
  wait_fails demo_os (pid (demo_entry 1)) = false ∧
  (wait_on_program demo_os (demo_entry 1) demo_running).1 = Ret 0.
Proof.
  assert (0 ≤ pid (demo_entry 1)) as H0 by (vm_compute; discriminate).
  assert (pid (demo_entry 1) ∉ reaped demo_running) as Hre.
  { apply (bool_decide_unpack _). vm_compute. exact I. }
  assert (wait_fails demo_os (pid (demo_entry 1)) = false) as Hw by reflexivity.
  destruct (find_child (pid (demo_entry 1)) (children demo_running)) as [c|] eqn:Hc;
    [|vm_compute in Hc; discriminate].
  assert (child_termination demo_os c = Signaled 9 false) as Hsig.
  { vm_compute in Hc. injection Hc as <-. reflexivity. }
  split; [exact H0|]. split; [by exists c|]. split; [exact Hre|]. split; [exact Hw|].
  destruct (wait_on_program_exit_status demo_os (demo_entry 1) demo_running c
              H0 Hc Hre Hw) as (_ & Hsignal & _).
  exact (Hsignal 9 false Hsig).
Defined.

(** C1 as stated fails: the second stage of the concrete pipeline is
    killed by signal 9 and the first exits with code 0, and
    [wait_on_program] returns 0 for both. *)
Lemma wait_on_program_signal_reported_as_zero :
  ∃ c0 c1,
    find_child (pid (demo_entry 0)) (children demo_running) = Some c0 ∧
    find_child (pid (demo_entry 1)) (children demo_running) = Some c1 ∧
    child_termination demo_os c0 = Exited 0 ∧
    child_termination demo_os c1 = Signaled 9 false ∧
    (wait_on_program demo_os (demo_entry 0) demo_running).1 = Ret 0 ∧
    (wait_on_program demo_os (demo_entry 1) demo_running).1 = Ret 0.
Proof. vm_compute. eexists _, _. repeat split. Qed.

(** C9, as the program has it.  [wait_on_program] always returns; it
    returns [-1] both when the stage was never launched (no system call is
    made) and when [waitpid] fails, and a number from 0 to 255 otherwise:
    the two failures give the same value, which no successful wait
    gives. *)
Theorem wait_on_program_failures os prog s :
  ∃ r, (wait_on_program os prog s).1 = Ret r ∧
    (pid prog < 0 → r = -1 ∧ (wait_on_program os prog s).2 = s) ∧
    (0 ≤ pid prog →
       (find_child (pid prog) (children s) = None ∨ pid prog ∈ reaped s ∨
        wait_fails os (pid prog) = true) →
       r = -1 ∧
       (wait_on_program os prog s).2 = emit (EWaitpid (pid prog) (-1)) s) ∧
    (0 ≤ pid prog →
       is_Some (find_child (pid prog) (children s)) → pid prog ∉ reaped s →
       wait_fails os (pid prog) = false →
       0 ≤ r ≤ 255).
Proof.
  destruct (decide (pid prog < 0)) as [Hneg|Hpos].
  { exists (-1). rewrite wait_on_program_never_launched by done.
    split; [done|]. split; [done|]. split; intros; lia. }
  assert (0 ≤ pid prog) as H0 by lia.
  destruct (find_child (pid prog) (children s)) as [c|] eqn:Hc.
  2:{ exists (-1). rewrite wait_on_program_wait_error by auto.
      split; [done|]. split; [intros; lia|]. split; [done|].
      by intros _ [? ?]. }
  destruct (decide (pid prog ∈ reaped s)) as [Hin|Hnin].
  { exists (-1). rewrite wait_on_program_wait_error by auto.
    split; [done|]. split; [intros; lia|]. split; [done|]. done. }
  destruct (wait_fails os (pid prog)) eqn:Hw.
  { exists (-1). rewrite wait_on_program_wait_error by auto.
    split; [done|]. split; [intros; lia|]. split; [done|]. done. }
  eexists. rewrite (wait_on_program_reaps os prog s c H0 Hc Hnin Hw).
  split; [reflexivity|]. split; [intros; lia|]. split.
  - intros _ [?|[?|?]]; done.
  - intros. apply WEXITSTATUS_range.
Qed.

(** C9 as stated fails: for an entry never launched and for the third
    stage of the concrete pipeline, whose [waitpid] fails,
    [wait_on_program] returns the same [-1]. *)
Lemma wait_on_program_failures_indistinguishable :
  pid never_launched < 0 ∧
  0 ≤ pid (demo_entry 2) ∧ wait_fails demo_os (pid (demo_entry 2)) = true ∧
  (wait_on_program demo_os never_launched demo_running).1 = Ret (-1) ∧
  (wait_on_program demo_os (demo_entry 2) demo_running).1 = Ret (-1).
Proof. vm_compute. repeat split; discriminate. Qed.

(** C10.  The maximum is ten programs: on a command line all of whose
    groups are non-empty, [parse_command_line] returns the groups when
    there are at most ten, and otherwise writes [Too many programs.] and
    exits when the eleventh group begins, with the first ten groups stored
    and nothing after them. *)
Theorem parse_command_line_at_most_ten t0 (cl_argv : list string) :
  (2 ≤ length cl_argv)%nat →
  all_nonempty (split_groups (drop 1 cl_argv)) →
  MAX_NUM_PROGRAMS = 10%nat ∧
  ((length (split_groups (drop 1 cl_argv)) ≤ 10)%nat →
   parse_command_line MAX_NUM_PROGRAMS (length cl_argv) cl_argv (boot t0) =
     (Ret (length (split_groups (drop 1 cl_argv))),
      mkState (map stage_of (split_groups (drop 1 cl_argv))) t0 0 [] [] [])) ∧
  ((10 < length (split_groups (drop 1 cl_argv)))%nat →
   parse_command_line MAX_NUM_PROGRAMS (length cl_argv) cl_argv (boot t0) =
     (Exit EXIT_FAILURE,
      mkState (map stage_of (take 10 (split_groups (drop 1 cl_argv)))) t0 0 [] []
              [EStderr (Error "Too many programs.")])).
Proof.
  intros Hlen Hall. split; [reflexivity|].
  pose proof (tokens_groups cl_argv Hlen) as Hne.
  destruct (parse_command_line_boot MAX_NUM_PROGRAMS cl_argv t0 Hlen) as [Hr Hprogs].
  set (gs := split_groups (drop 1 cl_argv)) in *.
  destruct (classify_iff MAX_NUM_PROGRAMS 0 gs ltac:(lia) Hne) as (HA & HT & _ & _).
  split.
  - intros Hle.
    assert (classify MAX_NUM_PROGRAMS 0 gs = Accepted) as Hv.
    { apply HA. split; [done|]. unfold MAX_NUM_PROGRAMS. lia. }
    rewrite Hv in Hr, Hprogs. rewrite Hr. cbn [diagnostic]. by rewrite Hprogs.
  - intros Hgt.
    assert (classify MAX_NUM_PROGRAMS 0 gs = TooManyPrograms) as Hv.
    { apply HT. unfold too_many_cond, MAX_NUM_PROGRAMS. rewrite Nat.sub_0_r.
      split; [lia|]. split.
      - by apply Forall_take.
      - intros Hd. apply (f_equal (λ l, l !! 0%nat)) in Hd.
        rewrite lookup_drop in Hd. simpl in Hd.
        by apply (all_nonempty_lookup gs (10 + 0) Hall). }
    rewrite Hv in Hr, Hprogs. rewrite Hr. cbn [diagnostic]. by rewrite Hprogs.
Qed.

Lemma parse_command_line_at_most_ten_witness :
  (2 ≤ length eleven_argv)%nat ∧
  all_nonempty (split_groups (drop 1 eleven_argv)) ∧
  (10 < length (split_groups (drop 1 eleven_argv)))%nat ∧
  parse_command_line MAX_NUM_PROGRAMS (length eleven_argv) eleven_argv (boot std_table) =
    (Exit EXIT_FAILURE,
     mkState (map stage_of [["a"]; ["b"]; ["c"]; ["d"]; ["e"]; ["f"]; ["g"]; ["h"];
                            ["i"]; ["j"]]) std_table 0 [] []
             [EStderr (Error "Too many programs.")]).
Proof.
  assert (2 ≤ length eleven_argv)%nat as Hlen by (vm_compute; lia).
  assert (all_nonempty (split_groups (drop 1 eleven_argv))) as Hall.
  { apply (bool_decide_unpack _). vm_compute. exact I. }
  assert (10 < length (split_groups (drop 1 eleven_argv)))%nat as Hgt
    by (vm_compute; lia).
  split; [exact Hlen|]. split; [exact Hall|]. split; [exact Hgt|].
  destruct (parse_command_line_at_most_ten std_table eleven_argv Hlen Hall)
    as (_ & _ & Hmany).
  exact (Hmany Hgt).
Defined.

(** C5, as the program has it.  The parser stops at the first defect it
    meets reading from the left: [Empty program.] exactly when the first
    empty group is among the first ten and a delimiter ends it;
    [Last program is empty.] exactly when the last token is a delimiter
    and the groups before it are non-empty and at most ten;
    [Too many programs.] exactly when the first ten groups are non-empty
    and more than a lone final delimiter follows them.  In each case
    [main] ends there, with no pipe created and no process forked.  The
    parser returns exactly when all groups are non-empty and at most ten,
    and then it returns them, in order, as the argument vectors of the
    stages. *)
Theorem parse_command_line_first_defect os t0 (cl_argv : list string) :
  (2 ≤ length cl_argv)%nat →
  let gs := split_groups (drop 1 cl_argv) in
  let r := parse_command_line MAX_NUM_PROGRAMS (length cl_argv) cl_argv (boot t0) in
  let failed msg := r.1 = Exit EXIT_FAILURE ∧ trace r.2 = [EStderr (Error msg)] in
  (failed "Empty program." ↔ empty_cond MAX_NUM_PROGRAMS 0 gs) ∧
  (failed "Last program is empty." ↔ last_cond MAX_NUM_PROGRAMS 0 gs) ∧
  (failed "Too many programs." ↔ too_many_cond MAX_NUM_PROGRAMS 0 gs) ∧
  (∀ code, r.1 = Exit code →
     main os cl_argv (boot t0) = (Exit code, r.2) ∧
     fds r.2 = t0 ∧ npipes r.2 = 0%nat ∧ children r.2 = [] ∧
     (failed "Empty program." ∨ failed "Last program is empty." ∨
      failed "Too many programs.")) ∧
  (accept_cond MAX_NUM_PROGRAMS 0 gs ↔
   r = (Ret (length gs), mkState (map stage_of gs) t0 0 [] [] [])).
Proof.
  intros Hlen gs r failed.
  pose proof (tokens_groups cl_argv Hlen) as Hne. fold gs in Hne.
  destruct (parse_command_line_boot MAX_NUM_PROGRAMS cl_argv t0 Hlen) as [Hr Hprogs].
  fold gs r in Hr, Hprogs.
  destruct (classify_iff MAX_NUM_PROGRAMS 0 gs ltac:(lia) Hne) as (HA & HT & HE & HL).
  assert (main os cl_argv (boot t0) =
            bind (parse_command_line MAX_NUM_PROGRAMS (length cl_argv) cl_argv)
              (λ num_programs,
                 prepare_pipes os num_programs ;;;
                 for_range 0 num_programs (spawn_child os num_programs) ;;;
                 for_range 0 num_programs (wait_for_child os) ;;;
                 free_programs num_programs ;;;
                 eprint EverythingIsGood ;;; ret 0) (boot t0)) as Hmain.
  { unfold main. rewrite (bind_Ret _ _ _ tt (boot t0)) by reflexivity.
    assert ((length cl_argv <=? 1)%nat = false) as -> by (apply Nat.leb_gt; lia).
    cbn [when]. by rewrite (bind_Ret _ _ _ tt (boot t0)) by reflexivity. }
  unfold failed.
  destruct (classify MAX_NUM_PROGRAMS 0 gs) eqn:Hv; rewrite Hr; cbn [fst snd trace diagnostic].
  - (* accepted *)
    split; [split; [by intros [? _]|by intros ?%HE]|].
    split; [split; [by intros [? _]|by intros ?%HL]|].
    split; [split; [by intros [? _]|by intros ?%HT]|].
    split; [by intros code ?|].
    split; [intros _; by rewrite Hprogs|intros _; by apply HA].
  - (* too many *)
    split; [split; [by intros [_ ?]|by intros ?%HE]|].
    split; [split; [by intros [_ ?]|by intros ?%HL]|].
    split; [split; [intros _; by apply HT|done]|].
    split.
    { intros code [= <-].
      split; [rewrite Hmain; apply bind_Exit; fold r; by rewrite Hr|].
      do 3 (split; [done|]). by right; right. }
    split; [by intros ?%HA|by intros ?].
  - (* empty program *)
    split; [split; [intros _; by apply HE|done]|].
    split; [split; [by intros [_ ?]|by intros ?%HL]|].
    split; [split; [by intros [_ ?]|by intros ?%HT]|].
    split.
    { intros code [= <-].
      split; [rewrite Hmain; apply bind_Exit; fold r; by rewrite Hr|].
      do 3 (split; [done|]). by left. }
    split; [by intros ?%HA|by intros ?].
  - (* last program empty *)
    split; [split; [by intros [_ ?]|by intros ?%HE]|].
    split; [split; [intros _; by apply HL|done]|].
    split; [split; [by intros [_ ?]|by intros ?%HT]|].
    split.
    { intros code [= <-].
      split; [rewrite Hmain; apply bind_Exit; fold r; by rewrite Hr|].
      do 3 (split; [done|]). by right; left. }
    split; [by intros ?%HA|by intros ?].
Qed.

Lemma parse_command_line_first_defect_witness :
  (2 ≤ length lone_delimiter_argv)%nat ∧
  empty_cond MAX_NUM_PROGRAMS 0 (split_groups (drop 1 lone_delimiter_argv)) ∧
  main demo_os lone_delimiter_argv (boot std_table) =
    (Exit 1, mkState [stage_of []] std_table 0 [] [] [EStderr (Error "Empty program.")]).
Proof.
  assert (2 ≤ length lone_delimiter_argv)%nat as Hlen by (vm_compute; lia).
  destruct (parse_command_line_first_defect demo_os std_table lone_delimiter_argv Hlen)
    as (HE & _ & _ & Hmain & _).
  split; [exact Hlen|]. split.
  - apply HE. vm_compute. split; reflexivity.
  - destruct (Hmain 1) as (Hm & _); [vm_compute; reflexivity|].
    rewrite Hm. vm_compute. reflexivity.
Defined.

(** C5 as stated fails, each way.  A lone delimiter is the last token with
    nothing after it, and the error is [Empty program.]; a command line
    with an empty group after ten groups gets [Too many programs.]; a
    command line with thirteen groups, the second one empty, gets
    [Empty program.]. *)
Lemma parse_command_line_reports_one_defect :
  last lone_delimiter_argv = Some "--" ∧
  trace (parse_command_line MAX_NUM_PROGRAMS (length lone_delimiter_argv)
           lone_delimiter_argv (boot std_table)).2 =
    [EStderr (Error "Empty program.")] ∧
  split_groups (drop 1 late_empty_argv) !! 10%nat = Some [] ∧
  trace (parse_command_line MAX_NUM_PROGRAMS (length late_empty_argv)
           late_empty_argv (boot std_table)).2 =
    [EStderr (Error "Too many programs.")] ∧
  length (split_groups (drop 1 early_empty_argv)) = 13%nat ∧
  trace (parse_command_line MAX_NUM_PROGRAMS (length early_empty_argv)
           early_empty_argv (boot std_table)).2 =
    [EStderr (Error "Empty program.")].
Proof. vm_compute. repeat split. Qed.

(** C7.  On a well-formed command line of [n ≥ 1] groups, with
    descriptors and processes to spare, [main] forks the stages in the
    order 0, ..., [n - 1], each after its [Starting] line, then waits for
    them in the same order, and writes exactly [n] exit-code reports, the
    [j]-th for stage [j]; child [j] runs (or fails to run) the program of
    group [j]. *)
Theorem main_launches_then_waits os t0 (cl_argv : list string) :
  (2 ≤ length cl_argv)%nat →
  accept_cond MAX_NUM_PROGRAMS 0 (split_groups (drop 1 cl_argv)) →
  (size t0 + 2 * (length (split_groups (drop 1 cl_argv)) - 1) ≤ nofile os)%nat →
  (length (split_groups (drop 1 cl_argv)) ≤ nproc os)%nat →
  let gs := split_groups (drop 1 cl_argv) in
  let n := length gs in
  ∃ s',
    main os cl_argv (boot t0) = (Ret 0, s') ∧
    length (children s') = n ∧
    (∀ j c, children s' !! j = Some c →
       c_pid c = pid_of os j ∧
       ∃ g, gs !! j = Some g ∧ c_end c = child_end os (stage_of g)) ∧
    story (trace s') =
      launch_story os (map stage_of gs) n ++
      wait_story os (map stage_of gs) (children s') n ++
      [EStderr EverythingIsGood] ∧
    forks (trace s') = pid_of os <$> seq 0 n ∧
    waits (trace s') = pid_of os <$> seq 0 n ∧
    exit_reports (trace s') =
      (λ j, (j, default 0 (report os <$> children s' !! j))) <$> seq 0 n.
Proof.
  intros Hlen Hacc Hfd Hproc gs n.
  destruct (main_run os t0 cl_argv Hlen Hacc Hfd Hproc)
    as (s' & lb & Hmain & _ & _ & _ & Hlc & Hsame & Hch & Hst).
  fold gs n in Hlc, Hsame, Hch, Hst.
  exists s'. split; [done|]. split; [done|].
  split.
  { intros j c Hc.
    assert (j < n)%nat as Hj by (rewrite <- Hlc; by eapply lookup_lt_Some).
    destruct (Hch j Hj) as (c' & Hc' & Hpid & _ & Hend & _).
    rewrite Hc in Hc'. injection Hc' as <-. split; [done|].
    destruct (lookup_lt_is_Some_2 gs j Hj) as [g Hg]. exists g. split; [done|].
    rewrite Hend. by eapply child_end_stage. }
  split; [done|]. by apply story_projections in Hst.
Qed.

Lemma main_launches_then_waits_witness :
  (2 ≤ length demo_argv)%nat ∧
  accept_cond MAX_NUM_PROGRAMS 0 (split_groups (drop 1 demo_argv)) ∧
  (size std_table + 2 * (length (split_groups (drop 1 demo_argv)) - 1) ≤ nofile demo_os)%nat ∧
  (length (split_groups (drop 1 demo_argv)) ≤ nproc demo_os)%nat ∧
  ∃ s',
    main demo_os demo_argv (boot std_table) = (Ret 0, s') ∧
    forks (trace s') = [100; 101; 102] ∧
    waits (trace s') = [100; 101; 102] ∧
    exit_reports (trace s') = [(0%nat, 0); (1%nat, 0); (2%nat, -1)].
Proof.
  assert (2 ≤ length demo_argv)%nat as Hlen by (vm_compute; lia).
  assert (accept_cond MAX_NUM_PROGRAMS 0 (split_groups (drop 1 demo_argv))) as Hacc.
  { split; [apply (bool_decide_unpack _); vm_compute; exact I|vm_compute; lia]. }
  assert (size std_table + 2 * (length (split_groups (drop 1 demo_argv)) - 1)
            ≤ nofile demo_os)%nat as Hfd by (vm_compute; lia).
  assert (length (split_groups (drop 1 demo_argv)) ≤ nproc demo_os)%nat as Hproc
    by (vm_compute; lia).
  do 4 (split; [assumption|]).
  destruct (main_launches_then_waits demo_os std_table demo_argv Hlen Hacc Hfd Hproc)
    as (s' & Hmain & _ & _ & _ & Hf & Hw & Hr).
  exists s'. split; [exact Hmain|]. split; [exact Hf|]. split; [exact Hw|].
  rewrite Hr.
  assert (s' = (main demo_os demo_argv (boot std_table)).2) as -> by (by rewrite Hmain).
  vm_compute. reflexivity.
Defined.

(** C8.  Whenever parsing and [prepare_pipes] return and a process can be
    created for every stage, [main] returns 0, whatever the stages' ends:
    it waits for every stage in order, also after a failed wait, and
    reports for stage [j] [-1] when waiting for it failed and the
    exit-status byte of its status word otherwise. *)
Theorem main_returns_zero os t0 (cl_argv : list string) n sa sb :
  (2 ≤ length cl_argv)%nat →
  parse_command_line MAX_NUM_PROGRAMS (length cl_argv) cl_argv (boot t0) = (Ret n, sa) →
  prepare_pipes os n sa = (Ret tt, sb) →
  (n ≤ nproc os)%nat →
  ∃ s',
    main os cl_argv (boot t0) = (Ret 0, s') ∧
    length (children s') = n ∧
    waits (trace s') = pid_of os <$> seq 0 n ∧
    length (exit_reports (trace s')) = n ∧
    (∀ j c, children s' !! j = Some c →
       c_pid c = pid_of os j ∧
       exit_reports (trace s') !! j =
         Some (j, if wait_fails os (pid_of os j) then -1
                  else WEXITSTATUS (wstatus (child_termination os c)))).
Proof.
  intros Hlen Hparse Hpipes Hproc.
  destruct (parse_command_line_returns cl_argv t0 n sa Hlen Hparse) as (Hacc & -> & ->).
  destruct (main_after_pipes os t0 cl_argv sb Hlen Hacc Hpipes Hproc)
    as (s' & lb & Hmain & _ & _ & _ & Hlc & Hsame & Hch & Hst).
  apply story_projections in Hst as (_ & Hw & Hr).
  exists s'. split; [done|]. split; [done|]. split; [done|].
  split; [by rewrite Hr, length_fmap, length_seq|].
  intros j c Hc.
  assert (j < length (split_groups (drop 1 cl_argv)))%nat as Hj
    by (rewrite <- Hlc; by eapply lookup_lt_Some).
  destruct (Hch j Hj) as (c' & Hc' & Hpid & _).
  rewrite Hc in Hc'. injection Hc' as <-. split; [done|].
  rewrite Hr, list_lookup_fmap, lookup_seq_lt by done. cbn.
  rewrite Hc. cbn. unfold report. by rewrite Hpid.
Qed.

Lemma main_returns_zero_witness :
  (2 ≤ length demo_argv)%nat ∧
  parse_command_line MAX_NUM_PROGRAMS (length demo_argv) demo_argv (boot std_table)
    = (Ret 3%nat, demo_parsed) ∧
  prepare_pipes demo_os 3 demo_parsed = (Ret tt, demo_piped) ∧
  (3 ≤ nproc demo_os)%nat ∧
  ∃ s',
    main demo_os demo_argv (boot std_table) = (Ret 0, s') ∧
    waits (trace s') = [100; 101; 102] ∧
    exit_reports (trace s') !! 2%nat = Some (2%nat, -1).
Proof.
  assert (2 ≤ length demo_argv)%nat as Hlen by (vm_compute; lia).
  assert (parse_command_line MAX_NUM_PROGRAMS (length demo_argv) demo_argv
            (boot std_table) = (Ret 3%nat, demo_parsed)) as H1
    by (vm_compute; reflexivity).
  assert (prepare_pipes demo_os 3 demo_parsed = (Ret tt, demo_piped)) as H2
    by (vm_compute; reflexivity).
  assert (3 ≤ nproc demo_os)%nat as H3 by (vm_compute; lia).
  do 4 (split; [assumption|]).
  destruct (main_returns_zero demo_os std_table demo_argv 3 demo_parsed demo_piped
              Hlen H1 H2 H3) as (s' & Hmain & Hlc & Hw & _ & Hr).
  exists s'. split; [exact Hmain|]. split; [exact Hw|].
  destruct (lookup_lt_is_Some_2 (children s') 2) as [c Hc]; [rewrite Hlc; lia|].
  destruct (Hr 2%nat c Hc) as [_ Hr2]. exact Hr2.
Defined.

(** * Further properties of the program *)

(** ** Groups and tokens *)

Lemma join_groups_cons g gs :
  gs ≠ [] → join_groups (g :: gs) = g ++ "--" :: join_groups gs.
Proof. by destruct gs. Qed.

Lemma split_groups_delim l : split_groups ("--" :: l) = [] :: split_groups l.
Proof. cbn [split_groups]. by rewrite decide_True. Qed.

Lemma join_split l : join_groups (split_groups l) = l.
Proof.
  induction l as [|t l IH]; [done|].
  destruct (decide (t = "--")) as [->|Ht].
  - rewrite split_groups_delim, join_groups_cons by apply split_groups_not_nil.
    by rewrite IH.
  - rewrite split_groups_hd by done.
    pose proof (split_groups_not_nil l) as Hne.
    destruct (split_groups l) as [|g [|g' gs]]; [done|..]; simpl in *.
    + by rewrite IH.
    + by rewrite <- IH.
Qed.

Lemma split_groups_plain g : "--" ∉ g → split_groups g = [g].
Proof.
  induction g as [|t g IH]; intros Hg; [done|].
  apply not_elem_of_cons in Hg as [Ht Hg].
  rewrite split_groups_hd by done. by rewrite IH.
Qed.

Lemma split_groups_app g l :
  "--" ∉ g → split_groups (g ++ "--" :: l) = g :: split_groups l.
Proof.
  induction g as [|t g IH]; intros Hg.
  - apply split_groups_delim.
  - apply not_elem_of_cons in Hg as [Ht Hg]. simpl app.
    rewrite split_groups_hd by done. by rewrite IH.
Qed.

Lemma split_join gs :
  gs ≠ [] → Forall (λ g, "--" ∉ g) gs → split_groups (join_groups gs) = gs.
Proof.
  induction gs as [|g gs IH]; intros Hne Hgs; [done|].
  apply Forall_cons in Hgs as [Hg Hgs].
  destruct (decide (gs = [])) as [->|Hne'].
  - by apply split_groups_plain.
  - rewrite join_groups_cons, split_groups_app by done. by rewrite IH.
Qed.

Lemma split_groups_no_delim l : Forall (λ g, "--" ∉ g) (split_groups l).
Proof.
  induction l as [|t l IH]; [repeat constructor; by intros ?%elem_of_nil|].
  destruct (decide (t = "--")) as [->|Ht].
  - rewrite split_groups_delim. constructor; [by intros ?%elem_of_nil|done].
  - rewrite split_groups_hd by done.
    pose proof (split_groups_not_nil l) as Hne.
    destruct (split_groups l) as [|g gs]; [done|].
    apply Forall_cons in IH as [Hg Hgs]. constructor; [|done].
    simpl. by apply not_elem_of_cons.
Qed.

Lemma join_groups_length gs g :
  g ∈ gs → (length g ≤ length (join_groups gs))%nat.
Proof.
  induction gs as [|g' gs IH]; [by intros ?%elem_of_nil|].
  intros Hg. destruct (decide (gs = [])) as [->|Hne].
  - apply list_elem_of_singleton in Hg as ->. done.
  - rewrite join_groups_cons by done. rewrite length_app. simpl.
    apply elem_of_cons in Hg as [->|Hg]; [lia|].
    specialize (IH Hg). lia.
Qed.

Lemma split_groups_length l g :
  g ∈ split_groups l → (length g ≤ length l)%nat.
Proof. intros Hg. apply join_groups_length in Hg. by rewrite join_split in Hg. Qed.

(** ** What the parser stores, however it ends *)

Lemma scan_groups_progs max_num_progs count gs s :
  (count ≤ max_num_progs)%nat →
  ∃ k, (count + k ≤ max_num_progs)%nat ∧
       progs (scan_groups max_num_progs count gs s).2 =
         progs s ++ map stage_of (take k gs).
Proof.
  revert count s. induction gs as [|g gs IH]; intros count s Hc.
  { exists 0%nat. split; [lia|]. simpl. by rewrite app_nil_r. }
  cbn [scan_groups].
  destruct (count =? max_num_progs)%nat eqn:E.
  { exists 0%nat. split; [lia|]. simpl. by rewrite app_nil_r. }
  apply Nat.eqb_neq in E.
  destruct (decide (g = [])) as [->|Hg].
  { exists 1%nat. split; [lia|]. done. }
  destruct gs as [|g' gs'].
  { exists 1%nat. split; [lia|]. done. }
  destruct (decide (g' :: gs' = [[]])) as [Heq|Hne].
  { injection Heq as -> ->. exists 1%nat. split; [lia|]. done. }
  assert (match g' :: gs' with
          | [] => (Ret (S count), set_progs (λ l, l ++ [stage_of g]) s)
          | [[]] => (Exit EXIT_FAILURE,
                     emit (EStderr (Error "Last program is empty."))
                       (set_progs (λ l, l ++ [stage_of g]) s))
          | _ => scan_groups max_num_progs (S count) (g' :: gs')
                   (set_progs (λ l, l ++ [stage_of g]) s)
          end = scan_groups max_num_progs (S count) (g' :: gs')
                  (set_progs (λ l, l ++ [stage_of g]) s)) as ->.
  { destruct g' as [|? ?]; [destruct gs'; [done|reflexivity]|reflexivity]. }
  destruct (IH (S count) (set_progs (λ l, l ++ [stage_of g]) s)) as (k & Hk & Hp); [lia|].
  exists (S k). split; [lia|]. rewrite Hp. cbn [progs set_progs take map].
  by rewrite <- app_assoc.
Qed.

Lemma parse_command_line_progs max_num_progs (cl_argv : list string) t0 :
  ∃ k, (k ≤ max_num_progs)%nat ∧ (k = 0%nat ∨ (2 ≤ length cl_argv)%nat) ∧
       progs (parse_command_line max_num_progs (length cl_argv) cl_argv (boot t0)).2 =
         map stage_of (take k (split_groups (drop 1 cl_argv))).
Proof.
  destruct (decide (2 ≤ length cl_argv)%nat) as [Hlen|Hlen].
  - rewrite parse_command_line_scan by done.
    destruct (scan_groups_progs max_num_progs 0 (split_groups (drop 1 cl_argv)) (boot t0))
      as (k & Hk & Hp); [lia|].
    exists k. split; [lia|]. split; [by right|]. by rewrite Hp.
  - rewrite parse_command_line_short by lia. exists 0%nat. split; [lia|].
    split; [by left|]. done.
Qed.

(** X1.  However [parse_command_line] ends, by returning or by one of its
    errors, the entries it has initialised are the first groups of the
    command line, in order and at most [max_num_progs] of them, so that it
    never writes past the array it was given; each entry holds fewer
    arguments than the command line has tokens, so that the arguments and
    the terminating null pointer fit in the [argc + 1] pointers allocated
    for it; no delimiter is stored as an argument, and no process and no
    descriptor is recorded yet. *)
Theorem parse_command_line_in_bounds max_num_progs (cl_argv : list string) t0 :
  let r := parse_command_line max_num_progs (length cl_argv) cl_argv (boot t0) in
  (length (progs r.2) ≤ max_num_progs)%nat ∧
  progs r.2 =
    map stage_of (take (length (progs r.2)) (split_groups (drop 1 cl_argv))) ∧
  Forall (parsed_entry (length cl_argv)) (progs r.2).
Proof.
  intros r. subst r.
  destruct (parse_command_line_progs max_num_progs cl_argv t0) as (k & Hk & Hk0 & ->).
  set (gs := split_groups (drop 1 cl_argv)).
  rewrite length_map, length_take.
  split; [lia|]. split.
  { f_equal. destruct (decide (k ≤ length gs)%nat).
    - by rewrite Nat.min_l.
    - rewrite Nat.min_r by lia. by rewrite !take_ge by lia. }
  apply Forall_forall. intros p Hp.
  apply list_elem_of_In, in_map_iff in Hp as (g & <- & Hg).
  apply list_elem_of_In in Hg.
  destruct Hk0 as [->|Hlen]; [by apply elem_of_nil in Hg|].
  apply elem_of_take in Hg as (i & Hg & _).
  apply list_elem_of_lookup_2 in Hg.
  unfold parsed_entry, stage_of. cbn [argv argc pid fd_in fd_out].
  split; [done|]. split.
  - pose proof (split_groups_length _ _ Hg) as Hl.
    rewrite length_drop in Hl. lia.
  - split; [|done].
    pose proof (split_groups_no_delim (drop 1 cl_argv)) as Hnd.
    rewrite Forall_forall in Hnd. by apply Hnd.
Qed.

(** ** The parser and the command line, back and forth *)

Lemma argv_stage_of gs : argv <$> map stage_of gs = gs.
Proof. induction gs as [|g gs IH]; [done|]. csimpl. by rewrite IH. Qed.

Lemma split_groups_count l :
  length (split_groups l) = S (length (filter (λ t, t = "--") l)).
Proof.
  induction l as [|t l IH]; [done|].
  rewrite filter_cons. destruct (decide (t = "--")) as [->|Ht].
  - rewrite split_groups_delim. simpl. by rewrite IH.
  - rewrite split_groups_hd by done.
    pose proof (split_groups_not_nil l) as Hne.
    destruct (split_groups l); [done|]. simpl in *. done.
Qed.

(** X2.  When [parse_command_line] returns, the command line can be read
    back from the array: the argument vectors of the entries, in order and
    with a delimiter between two of them, are the tokens after the program
    name.  The value returned is the number of entries, at most
    [max_num_progs]; it is 0 exactly when there is no token after the
    program name, and otherwise one more than the number of delimiters;
    every entry has an argument. *)
Theorem parse_command_line_join max_num_progs (cl_argv : list string) t0 n s :
  parse_command_line max_num_progs (length cl_argv) cl_argv (boot t0) = (Ret n, s) →
  join_groups (argv <$> progs s) = drop 1 cl_argv ∧
  n = length (progs s) ∧ (n ≤ max_num_progs)%nat ∧
  (n = 0%nat ↔ (length cl_argv ≤ 1)%nat) ∧
  ((2 ≤ length cl_argv)%nat →
   n = S (length (filter (λ t, t = "--") (drop 1 cl_argv)))) ∧
  Forall (λ p, argv p ≠ []) (progs s).
Proof.
  intros Hrun.
  destruct (decide (2 ≤ length cl_argv)%nat) as [Hlen|Hlen].
  - pose proof (tokens_groups cl_argv Hlen) as Hne.
    destruct (parse_command_line_boot max_num_progs cl_argv t0 Hlen) as [Hr Hprogs].
    rewrite Hrun in Hr, Hprogs. cbn [snd] in Hr, Hprogs.
    set (gs := split_groups (drop 1 cl_argv)) in *.
    destruct (classify max_num_progs 0 gs) eqn:Hv; try discriminate.
    apply (classify_iff max_num_progs 0 gs ltac:(lia) Hne) in Hv as [Hall Hfit].
    injection Hr as -> _. rewrite Hprogs.
    rewrite argv_stage_of, length_map.
    split; [apply join_split|]. split; [done|]. split; [lia|]. split.
    + pose proof (split_groups_not_nil (drop 1 cl_argv)) as Hnil. fold gs in Hnil.
      destruct gs; [done|]. simpl. lia.
    + split; [intros _; apply split_groups_count|].
      apply Forall_forall. intros p Hp.
      apply list_elem_of_In, in_map_iff in Hp as (g & <- & Hg).
      apply list_elem_of_In in Hg. unfold all_nonempty in Hall.
      rewrite Forall_forall in Hall. by apply Hall.
  - rewrite parse_command_line_short in Hrun by lia. injection Hrun as <- <-.
    cbn. split.
    + destruct cl_argv as [|? [|? ?]]; [done|done|simpl in Hlen; lia].
    + split; [done|]. split; [lia|]. split; [split; [lia|done]|].
      split; [intros; lia|done].
Qed.

Lemma parse_command_line_join_witness :
  parse_command_line MAX_NUM_PROGRAMS (length demo_argv) demo_argv (boot std_table)
    = (Ret 3%nat, demo_parsed) ∧
  join_groups (argv <$> progs demo_parsed) =
    ["echo"; "hi"; "--"; "tr"; "a-z"; "A-Z"; "--"; "wc"].
Proof.
  assert (parse_command_line MAX_NUM_PROGRAMS (length demo_argv) demo_argv
            (boot std_table) = (Ret 3%nat, demo_parsed)) as H1
    by (vm_compute; reflexivity).
  split; [exact H1|].
  destruct (parse_command_line_join MAX_NUM_PROGRAMS demo_argv std_table 3
              demo_parsed H1) as (Hj & _).
  rewrite Hj. reflexivity.
Defined.

(** X3.  Conversely, for at most [max_num_progs] groups, each with an
    argument and none holding a delimiter, [parse_command_line] on a
    program name followed by the groups, with a delimiter between two of
    them, returns their number and stores exactly these groups, in order,
    as the argument vectors of the entries; it writes nothing and touches
    no descriptor. *)
Theorem parse_command_line_of_join max_num_progs (name : string) gs t0 :
  gs ≠ [] → (length gs ≤ max_num_progs)%nat →
  Forall (λ g, g ≠ [] ∧ "--" ∉ g) gs →
  parse_command_line max_num_progs (length (name :: join_groups gs))
      (name :: join_groups gs) (boot t0) =
    (Ret (length gs), mkState (map stage_of gs) t0 0 [] [] []).
Proof.
  intros Hne Hfit Hgs.
  assert (Forall (λ g, "--" ∉ g) gs) as Hnd by (eapply Forall_impl; [exact Hgs|by intros ? [_ ?]]).
  assert (all_nonempty gs) as Hall by (eapply Forall_impl; [exact Hgs|by intros ? [? _]]).
  assert (2 ≤ length (name :: join_groups gs))%nat as Hlen.
  { destruct gs as [|g gs']; [done|].
    apply Forall_cons in Hall as [Hg _].
    assert (1 ≤ length g)%nat by (destruct g; [done|simpl; lia]).
    pose proof (join_groups_length (g :: gs') g ltac:(by left)). simpl in *. lia. }
  destruct (parse_command_line_boot max_num_progs (name :: join_groups gs) t0 Hlen)
    as [Hr Hprogs].
  pose proof (tokens_groups _ Hlen) as Hne1.
  cbn [drop] in Hr, Hprogs, Hne1. rewrite drop_0 in Hr, Hprogs, Hne1.
  rewrite split_join in Hr, Hprogs, Hne1 by done.
  rewrite (proj2 (proj1 (classify_iff max_num_progs 0 gs ltac:(lia) Hne1)))
    in Hr, Hprogs by (split; [done|lia]).
  rewrite Hr. cbn [diagnostic]. by rewrite Hprogs.
Qed.

Lemma parse_command_line_of_join_witness :
  [["echo"; "hi"]; ["tr"; "a-z"; "A-Z"]; ["wc"]] ≠ ([] : list (list string)) ∧
  (length [["echo"; "hi"]; ["tr"; "a-z"; "A-Z"]; ["wc"]] ≤ MAX_NUM_PROGRAMS)%nat ∧
  Forall (λ g : list string, g ≠ [] ∧ "--" ∉ g)
    [["echo"; "hi"]; ["tr"; "a-z"; "A-Z"]; ["wc"]] ∧
  "runpipeline" :: join_groups [["echo"; "hi"]; ["tr"; "a-z"; "A-Z"]; ["wc"]] = demo_argv ∧
  parse_command_line MAX_NUM_PROGRAMS (length demo_argv) demo_argv (boot std_table) =
    (Ret 3%nat,
     mkState (map stage_of [["echo"; "hi"]; ["tr"; "a-z"; "A-Z"]; ["wc"]])
       std_table 0 [] [] []).
Proof.
  assert (Forall (λ g : list string, g ≠ [] ∧ "--" ∉ g)
            [["echo"; "hi"]; ["tr"; "a-z"; "A-Z"]; ["wc"]]) as Hgs.
  { apply (bool_decide_unpack _). vm_compute. exact I. }
  split; [done|]. split; [vm_compute; lia|]. split; [exact Hgs|].
  split; [reflexivity|].
  exact (parse_command_line_of_join MAX_NUM_PROGRAMS "runpipeline"
           [["echo"; "hi"]; ["tr"; "a-z"; "A-Z"]; ["wc"]] std_table
           ltac:(done) ltac:(vm_compute; lia) Hgs).
Defined.

(** ** A command line without programs *)

Lemma main_short os (cl_argv : list string) s :
  (length cl_argv ≤ 1)%nat →
  main os cl_argv s =
    (Exit EXIT_FAILURE,
     mkState [] (fds s) (npipes s) (children s) (reaped s)
       (trace s ++ [EStderr (Error
          "Specify at least one program to run. Multiple programs are separated by --")])).
Proof.
  intros Hlen. unfold main. rewrite (bind_Ret _ _ _ tt _) by reflexivity.
  assert ((length cl_argv <=? 1)%nat = true) as -> by (by apply Nat.leb_le).
  reflexivity.
Qed.

(** X4.  Started with no argument after the program name (or with no
    argument vector at all), [main] writes the usage line and exits with
    [EXIT_FAILURE], before anything is parsed, piped or forked.  It is
    this test of [main] that rejects such a command line: for
    [parse_command_line] it is an empty pipeline, for which it returns 0
    with the state untouched. *)
Theorem main_without_arguments os (cl_argv : list string) s :
  (length cl_argv ≤ 1)%nat →
  main os cl_argv s =
    (Exit EXIT_FAILURE,
     mkState [] (fds s) (npipes s) (children s) (reaped s)
       (trace s ++ [EStderr (Error
          "Specify at least one program to run. Multiple programs are separated by --")])) ∧
  ∀ max_num_progs,
    parse_command_line max_num_progs (length cl_argv) cl_argv s = (Ret 0%nat, s).
Proof.
  intros Hlen. split; [by apply main_short|].
  intros max_num_progs. by apply parse_command_line_short.
Qed.

Lemma main_without_arguments_witness :
  (length ["runpipeline"] ≤ 1)%nat ∧
  main demo_os ["runpipeline"] (boot std_table) =
    (Exit 1,
     mkState [] std_table 0 [] []
       [EStderr (Error
          "Specify at least one program to run. Multiple programs are separated by --")]).
Proof.
  split; [simpl; lia|].
  exact (proj1 (main_without_arguments demo_os ["runpipeline"] (boot std_table)
                  ltac:(simpl; lia))).
Defined.

(** ** Room for the pipes *)

Lemma size_in_range os (t : gmap Z File) :
  fds_in_range os t → (size t ≤ nofile os)%nat.
Proof.
  intros Hr.
  assert (dom t ⊆ (list_to_set (seqZ 0 (Z.of_nat (nofile os))) : gset Z)) as Hsub.
  { intros fd Hfd. apply elem_of_dom in Hfd as [f Hf].
    apply elem_of_list_to_set, elem_of_seqZ. apply (Hr fd f Hf). }
  apply subseteq_size in Hsub. rewrite size_dom in Hsub.
  rewrite size_list_to_set in Hsub by apply NoDup_seqZ.
  rewrite length_seqZ in Hsub. lia.
Qed.

Lemma fds_in_range_insert os (t : gmap Z File) fd f :
  0 ≤ fd < Z.of_nat (nofile os) → fds_in_range os t → fds_in_range os (<[fd := f]> t).
Proof. intros Hfd Hr. by apply map_Forall_insert_2. Qed.

(** [prepare_pipes_cases], with the descriptors in range. *)
Lemma prepare_pipes_cases_range os n s0 :
  (1 ≤ n)%nat → length (progs s0) = n → fresh_stages (progs s0) →
  fds_in_range os (fds s0) →
  (∃ s', prepare_pipes os n s0 = (Ret tt, s') ∧ piping os s0 n n s' ∧
         fds_in_range os (fds s')) ∨
  (∃ i s1, (1 ≤ i < n)%nat ∧ piping os s0 n i s1 ∧ fds_in_range os (fds s1) ∧
     (nofile os < size (fds s1) + 2)%nat ∧
     prepare_pipes os n s0 =
       (Exit EXIT_FAILURE,
        emit (EStderr (Error "pipe() failed.")) (emit (EPipe (-1) 0 0) s1))).
Proof.
  intros Hn Hlen Hfresh Hrange. unfold prepare_pipes.
  destruct (for_range_inv_exit
    (λ i s, piping os s0 n i s ∧ fds_in_range os (fds s))
    (λ i code s', ∃ s1, piping os s0 n i s1 ∧ fds_in_range os (fds s1) ∧
       (nofile os < size (fds s1) + 2)%nat ∧ code = EXIT_FAILURE ∧
       s' = emit (EStderr (Error "pipe() failed.")) (emit (EPipe (-1) 0 0) s1))
    1 n (λ i : nat, r <- pipe os (0, 0) ;;
              let '(status, fd) := r in
              when (negb (status =? 0)) (die "pipe() failed.") ;;;
              set_fd_out (i - 1) (fd.2) ;;; set_fd_in i (fd.1)) s0)
    as [(s' & Hrun & Hp & Hr)|(i & code & s' & Hi & Hrun & s1 & Hp & Hr & Hsz & -> & ->)];
    [done|split; [by apply piping_start|done]| | |].
  - intros i s1 Hi [Hinv Hr].
    destruct (pipe_cases os (0, 0) s1) as [(r & w & Hpipe & Hrw & Hr1 & Hw1 & Hr0 & Hw0)|[Hpipe Hsz]].
    + left. eexists. rewrite (bind_Ret _ _ _ _ _ Hpipe). split; [reflexivity|].
      split; [apply (wire_piping os s0 n i s1 r w); try done; lia|].
      cbn [fds]. by repeat apply fds_in_range_insert.
    + right. eexists _, _. rewrite (bind_Ret _ _ _ _ _ Hpipe). split; [reflexivity|].
      by exists s1.
  - left. by exists s'.
  - right. by exists i, s1.
Qed.

(** X5.  [prepare_pipes] on [n ≥ 1] parsed entries returns exactly when
    the descriptor table has room for the [2 (n - 1)] pipe ends, and
    otherwise exits with [EXIT_FAILURE]; either way the number of pipes it
    has created, all still open, is the smaller of [n - 1] and half the
    number of free descriptors. *)
Theorem prepare_pipes_room os n s0 :
  (1 ≤ n)%nat → length (progs s0) = n → fresh_stages (progs s0) →
  fds_in_range os (fds s0) →
  let r := prepare_pipes os n s0 in
  let free := (nofile os - size (fds s0))%nat in
  (r.1 = Ret tt ↔ (2 * (n - 1) ≤ free)%nat) ∧
  (r.1 = Exit EXIT_FAILURE ↔ (free < 2 * (n - 1))%nat) ∧
  npipes r.2 = (npipes s0 + (n - 1) `min` (free / 2))%nat ∧
  size (fds r.2) = (size (fds s0) + 2 * ((n - 1) `min` (free / 2)))%nat.
Proof.
  intros Hn Hlen Hfresh Hrange r free. subst r.
  pose proof (size_in_range os _ Hrange) as Hs0.
  destruct (prepare_pipes_cases_range os n s0 Hn Hlen Hfresh Hrange)
    as [(s' & -> & Hp & Hr)|(i & s1 & Hi & Hp & Hr & Hfull & ->)];
    cbn [fst snd npipes fds emit];
    destruct Hp as (_ & _ & _ & _ & Hnp & Hsz & _);
    pose proof (size_in_range os _ Hr) as Hs1.
  - assert (n - 1 ≤ free / 2)%nat as Hle.
    { apply Nat.div_le_lower_bound; [done|]. subst free. lia. }
    split; [split; [intros _; subst free; lia|done]|].
    split; [split; [done|intros ?; subst free; lia]|].
    rewrite Nat.min_l by done. done.
  - assert (free / 2 = i - 1)%nat as Hdiv.
    { symmetry. apply (Nat.div_unique free 2 (i - 1) (free - 2 * (i - 1)));
        subst free; lia. }
    split; [split; [done|intros ?; subst free; lia]|].
    split; [split; [intros _; subst free; lia|done]|].
    rewrite Hdiv, Nat.min_r by lia. done.
Qed.

Lemma prepare_pipes_room_witness :
  (1 ≤ 3)%nat ∧ length (progs demo_parsed) = 3%nat ∧
  fresh_stages (progs demo_parsed) ∧ fds_in_range tight_os (fds demo_parsed) ∧
  (prepare_pipes tight_os 3 demo_parsed).1 = Exit EXIT_FAILURE ∧
  npipes (prepare_pipes tight_os 3 demo_parsed).2 = 1%nat ∧
  size (fds (prepare_pipes tight_os 3 demo_parsed).2) = 5%nat.
Proof.
  assert (fresh_stages (progs demo_parsed)) as Hfresh.
  { apply (bool_decide_unpack _). vm_compute. exact I. }
  assert (fds_in_range tight_os (fds demo_parsed)) as Hrange.
  { apply (bool_decide_unpack _). vm_compute. exact I. }
  split; [lia|]. split; [reflexivity|]. split; [exact Hfresh|]. split; [exact Hrange|].
  destruct (prepare_pipes_room tight_os 3 demo_parsed ltac:(lia) eq_refl Hfresh Hrange)
    as (_ & Hexit & Hnp & Hsz).
  split; [apply Hexit; vm_compute; lia|].
  split; [rewrite Hnp; reflexivity|rewrite Hsz; reflexivity].
Defined.

(** The beginning of [main] on a well-formed command line. *)
Lemma main_parsed os (cl_argv : list string) t0 :
  (2 ≤ length cl_argv)%nat →
  let gs := split_groups (drop 1 cl_argv) in
  let n := length gs in
  accept_cond MAX_NUM_PROGRAMS 0 gs →
  (1 ≤ n ≤ MAX_NUM_PROGRAMS)%nat ∧ fresh_stages (map stage_of gs) ∧
  main os cl_argv (boot t0) =
    (prepare_pipes os n ;;;
     for_range 0 n (spawn_child os n) ;;;
     for_range 0 n (wait_for_child os) ;;;
     free_programs n ;;;
     eprint EverythingIsGood ;;; ret 0) (mkState (map stage_of gs) t0 0 [] [] []).
Proof.
  intros Hlen gs n Hacc.
  pose proof (tokens_groups cl_argv Hlen) as Hne. fold gs in Hne.
  destruct (accepted_groups _ gs Hne (split_groups_not_nil _) Hacc) as [Hn Hfresh].
  split; [done|]. split; [done|].
  destruct (parse_command_line_boot MAX_NUM_PROGRAMS cl_argv t0 Hlen) as [Hparse Hprogs].
  fold gs in Hparse, Hprogs.
  rewrite (proj2 (proj1 (classify_iff MAX_NUM_PROGRAMS 0 gs ltac:(lia) Hne)) Hacc)
    in Hparse, Hprogs.
  rewrite Hprogs in Hparse. clear Hprogs. fold n in Hparse.
  unfold main.
  rewrite (bind_Ret _ _ _ tt (boot t0)) by reflexivity.
  assert ((length cl_argv <=? 1)%nat = false) as -> by (apply Nat.leb_gt; lia).
  cbn [when]. rewrite (bind_Ret _ _ _ tt (boot t0)) by reflexivity.
  by rewrite (bind_Ret _ _ _ _ _ Hparse).
Qed.



(** ** Running out of processes *)

Lemma for_range_split lo mid hi body s :
  (lo ≤ mid ≤ hi)%nat →
  for_range lo hi body s = (for_range lo mid body ;;; for_range mid hi body) s.
Proof.
  intros H. unfold for_range.
  replace (hi - lo)%nat with ((mid - lo) + (hi - mid))%nat by lia.
  rewrite seq_app, for_each_app. by replace (lo + (mid - lo))%nat with mid by lia.
Qed.

Lemma for_range_first lo hi body s :
  (lo < hi)%nat →
  for_range lo hi body s = (body lo ;;; for_range (S lo) hi body) s.
Proof.
  intros H. unfold for_range.
  replace (hi - lo)%nat with (S (hi - S lo)) by lia. reflexivity.
Qed.

(** [spawn_child] when no process can be created. *)
Lemma spawn_child_no_process os n i s prog :
  progs s !! i = Some prog → (nproc os ≤ length (children s))%nat →
  spawn_child os n i s =
    (Exit EXIT_FAILURE,
     emit (EStderr (Error "fork() failed."))
       (emit (EFork (-1)) (emit (EStderr (Starting i (name_of prog))) s))).
Proof.
  intros Hprog Hfull. unfold spawn_child. rewrite (bind_prog_at _ _ _ _ Hprog).
  rewrite (bind_Ret _ _ _ tt _) by reflexivity.
  unfold start_program.
  erewrite (bind_Ret (fork _ _)); cycle 1.
  { unfold fork. rewrite bool_decide_eq_false_2; [reflexivity|]. cbn. lia. }
  reflexivity.
Qed.

Lemma launch_story_projections os l n :
  forks (launch_story os l n) = pid_of os <$> seq 0 n ∧
  waits (launch_story os l n) = [] ∧
  exit_reports (launch_story os l n) = [].
Proof.
  induction n as [|n (IH1 & IH2 & IH3)]; [done|].
  rewrite launch_story_S, seq_S, fmap_app. unfold forks, waits, exit_reports in *.
  rewrite !omap_app, IH1, IH2, IH3. done.
Qed.

Lemma forks_story tr : forks (story tr) = forks tr.
Proof. apply omap_story. by intros []. Qed.

Lemma waits_story tr : waits (story tr) = waits tr.
Proof. apply omap_story. by intros []. Qed.

Lemma exit_reports_story tr : exit_reports (story tr) = exit_reports tr.
Proof. apply omap_story. by intros []. Qed.

Lemma story_pipes evs :
  Forall (λ e, ∃ r w, e = EPipe 0 r w) evs → story evs = [].
Proof. induction 1 as [|e evs (r & w & ->) _ IH]; [done|exact IH]. Qed.

(** The spawning loop, when the processes run out at stage [nproc os]. *)
Lemma spawn_loop_no_process os t0 p0 n l tr1 s :
  spawning os t0 p0 n l tr1 0 s → (nproc os < n)%nat →
  ((1 < n)%nat → (2 ≤ nofile os)%nat) →
  ∃ sc prog,
    spawning os t0 p0 n l tr1 (nproc os) sc ∧
    progs sc !! nproc os = Some prog ∧
    for_range 0 n (spawn_child os n) s =
      (Exit EXIT_FAILURE,
       emit (EStderr (Error "fork() failed."))
         (emit (EFork (-1)) (emit (EStderr (Starting (nproc os) (name_of prog))) sc))).
Proof.
  intros Hsp0 Hproc Hfit.
  destruct (spawn_loop os t0 p0 n l tr1 (nproc os) s)
    as (sc & Hspawn & Hsc); [done|lia|lia|done|].
  pose proof Hsc as (HL & _ & _ & Hlenc & _).
  destruct (lookup_lt_is_Some_2 (progs sc) (nproc os)) as [prog Hprog];
    [destruct HL as [-> _]; lia|].
  exists sc, prog. split; [done|]. split; [done|].
  rewrite (for_range_split 0 (nproc os) n) by lia.
  rewrite (bind_Ret _ _ _ _ _ Hspawn).
  rewrite for_range_first by lia.
  apply bind_Exit. apply spawn_child_no_process; [done|lia].
Qed.

(** X7.  On a well-formed command line of [n] groups, with room for the
    pipes but with only [k < n] processes left to create, [main] launches
    the stages 0, ..., [k - 1], fails to fork stage [k], writes
    [fork() failed.] and exits with [EXIT_FAILURE]; it does not wait for
    any of the children it has launched, and the line
    [Parent: Everything is good.] is not written. *)
Theorem main_without_processes os t0 (cl_argv : list string) :
  (2 ≤ length cl_argv)%nat →
  accept_cond MAX_NUM_PROGRAMS 0 (split_groups (drop 1 cl_argv)) →
  (size t0 + 2 * (length (split_groups (drop 1 cl_argv)) - 1) ≤ nofile os)%nat →
  (nproc os < length (split_groups (drop 1 cl_argv)))%nat →
  let gs := split_groups (drop 1 cl_argv) in
  let k := nproc os in
  ∃ s',
    main os cl_argv (boot t0) = (Exit EXIT_FAILURE, s') ∧
    length (children s') = k ∧
    (∀ j c, children s' !! j = Some c →
       c_pid c = pid_of os j ∧
       ∃ g, gs !! j = Some g ∧ c_end c = child_end os (stage_of g)) ∧
    story (trace s') =
      launch_story os (map stage_of gs) k ++
      [EStderr (Starting k (hd "" (default [] (gs !! k))));
       EFork (-1); EStderr (Error "fork() failed.")] ∧
    forks (trace s') = (pid_of os <$> seq 0 k) ++ [-1] ∧
    waits (trace s') = [] ∧ reaped s' = [] ∧ exit_reports (trace s') = [].
Proof.
  intros Hlen Hacc Hfd Hproc gs k.
  destruct (main_parsed os cl_argv t0 Hlen Hacc) as (Hn & Hfresh & ->).
  fold gs in Hn, Hfresh, Hfd, Hproc |- *. set (n := length gs) in *.
  set (sa := mkState (map stage_of gs) t0 0 [] [] []).
  destruct (prepare_pipes_spec os n sa) as (sb & Hpipes & Hpiping);
    [lia|cbn; by rewrite length_map|done|done|].
  rewrite (bind_Ret _ _ _ _ _ Hpipes).
  destruct (spawning_start os t0 0%nat n sa sb) as [Hsp0 Hfit]; try done.
  pose proof Hpiping as (Hlb & _ & _ & _ & _ & _ & Hsame & _ & _ & evs & Htr & _ & Hevs).
  destruct (spawn_loop_no_process os t0 0%nat n (progs sb) (trace sb) sb Hsp0 Hproc Hfit)
    as (sc & prog & Hsc & Hprog & Hloop).
  fold k in Hsc, Hprog, Hloop.
  destruct Hsc as (HL & Hdrop & Hrel & Hlenc & Hch & Hre & Hnp & Hst).
  eexists. split; [by apply bind_Exit|].
  cbn [children trace reaped emit].
  assert (name_of prog = hd "" (default [] (gs !! k))) as Hname.
  { assert (progs sb !! k = Some prog) as Hb.
    { rewrite <- (Nat.add_0_r k), <- lookup_drop, <- Hdrop, lookup_drop.
      by rewrite Nat.add_0_r. }
    pose proof (same_stages_name (progs sb) (progs sa) k Hsame) as Hn1.
    rewrite Hb in Hn1. cbn [default from_option id] in Hn1. rewrite Hn1.
    cbn [progs sa]. rewrite map_is_fmap, list_lookup_fmap.
    destruct (lookup_lt_is_Some_2 gs k) as [g Hg]; [lia|].
    by rewrite Hg. }
  assert (story (trace sc ++ [EStderr (Starting k (name_of prog))] ++
                 [EFork (-1)] ++ [EStderr (Error "fork() failed.")]) =
          launch_story os (map stage_of gs) k ++
          [EStderr (Starting k (hd "" (default [] (gs !! k))));
           EFork (-1); EStderr (Error "fork() failed.")]) as Hstory.
  { rewrite story_app, Hst, Htr, story_app, (story_pipes evs Hevs), app_nil_r.
    cbn [trace sa story filter list_filter app]. rewrite Hname. f_equal.
    apply launch_story_names. intros j _. by apply same_stages_name. }
  rewrite <- !app_assoc.
  split; [done|]. split.
  { intros j c Hc.
    assert (j < k)%nat as Hj by (rewrite <- Hlenc; by eapply lookup_lt_Some).
    destruct (Hch j Hj) as (c' & Hc' & Hpid & _ & Hend & _).
    rewrite Hc in Hc'. injection Hc' as <-. split; [done|].
    destruct (lookup_lt_is_Some_2 gs j) as [g Hg]; [lia|]. exists g. split; [done|].
    rewrite Hend. exact (child_end_stage os (progs sb) gs j g Hsame Hg). }
  split; [exact Hstory|].
  rewrite <- forks_story, <- waits_story, <- exit_reports_story, Hstory.
  destruct (launch_story_projections os (map stage_of gs) k) as (F & W & R).
  unfold forks, waits, exit_reports in *. rewrite !omap_app, F, W, R. done.
Qed.

Lemma main_without_processes_witness :
  (2 ≤ length demo_argv)%nat ∧
  accept_cond MAX_NUM_PROGRAMS 0 (split_groups (drop 1 demo_argv)) ∧
  (size std_table + 2 * (length (split_groups (drop 1 demo_argv)) - 1)
     ≤ nofile lonely_os)%nat ∧
  (nproc lonely_os < length (split_groups (drop 1 demo_argv)))%nat ∧
  ∃ s', main lonely_os demo_argv (boot std_table) = (Exit EXIT_FAILURE, s') ∧
        forks (trace s') = [100; -1] ∧ waits (trace s') = [] ∧
        last (trace s') = Some (EStderr (Error "fork() failed.")).
Proof.
  assert (2 ≤ length demo_argv)%nat as Hlen by (vm_compute; lia).
  assert (accept_cond MAX_NUM_PROGRAMS 0 (split_groups (drop 1 demo_argv))) as Hacc.
  { split; [apply (bool_decide_unpack _); vm_compute; exact I|vm_compute; lia]. }
  assert (size std_table + 2 * (length (split_groups (drop 1 demo_argv)) - 1)
            ≤ nofile lonely_os)%nat as Hfd by (vm_compute; lia).
  assert (nproc lonely_os < length (split_groups (drop 1 demo_argv)))%nat as Hproc
    by (vm_compute; lia).
  do 4 (split; [assumption|]).
  destruct (main_without_processes lonely_os std_table demo_argv Hlen Hacc Hfd Hproc)
    as (s' & Hmain & _ & _ & _ & Hf & Hw & _).
  exists s'. split; [exact Hmain|]. split; [exact Hf|]. split; [exact Hw|].
  assert (s' = (main lonely_os demo_argv (boot std_table)).2) as -> by (by rewrite Hmain).
  vm_compute. reflexivity.
Defined.

(** ** Who holds the pipe ends *)

Lemma same_stages_argv lb gs j g :
  same_stages lb (map stage_of gs) → gs !! j = Some g →
  argv (default null_program (lb !! j)) = g.
Proof.
  intros Hsame Hg. apply same_stages_lookup with (j := j) in Hsame.
  rewrite map_is_fmap, list_lookup_fmap, Hg in Hsame.
  destruct (lb !! j) as [p|]; [|done]. simpl in *. by injection Hsame as -> _ _.
Qed.

(** X8.  When [main] has run a well-formed pipeline of [n] stages, started
    with descriptors 0 and 1 open and holding no pipe end, every pipe end
    is held by exactly one process at the moment the stages are executed:
    the read end of pipe [k] only by the child of stage [k + 1], as its
    descriptor 0, the write end of pipe [k] only by the child of stage
    [k], as its descriptor 1, and no pipe end by the orchestrator; every
    other descriptor of a child is the one the orchestrator was started
    with, and so are descriptor 0 of the first stage and descriptor 1 of
    the last. *)
Theorem main_pipe_ends_exclusive os t0 (cl_argv : list string) :
  (2 ≤ length cl_argv)%nat →
  accept_cond MAX_NUM_PROGRAMS 0 (split_groups (drop 1 cl_argv)) →
  (size t0 + 2 * (length (split_groups (drop 1 cl_argv)) - 1) ≤ nofile os)%nat →
  (length (split_groups (drop 1 cl_argv)) ≤ nproc os)%nat →
  is_Some (t0 !! FD_STDIN) → is_Some (t0 !! FD_STDOUT) → no_pipe_ends t0 →
  let n := length (split_groups (drop 1 cl_argv)) in
  ∃ s',
    main os cl_argv (boot t0) = (Ret 0, s') ∧
    length (children s') = n ∧
    no_pipe_ends (fds s') ∧
    ∀ j c, children s' !! j = Some c →
      (∀ fd k, c_fds c !! fd = Some (PipeR k) ↔ fd = FD_STDIN ∧ j = S k) ∧
      (∀ fd k, c_fds c !! fd = Some (PipeW k) ↔
                 fd = FD_STDOUT ∧ k = j ∧ (j + 1 < n)%nat) ∧
      (∀ fd, fd ≠ FD_STDIN → fd ≠ FD_STDOUT → c_fds c !! fd = t0 !! fd) ∧
      (j = 0%nat → c_fds c !! FD_STDIN = t0 !! FD_STDIN) ∧
      ((j + 1 = n)%nat → c_fds c !! FD_STDOUT = t0 !! FD_STDOUT).
Proof.
  intros Hlen Hacc Hfd Hproc H0 H1 Hnp n.
  destruct (main_run os t0 cl_argv Hlen Hacc Hfd Hproc)
    as (s' & lb & Hmain & Hfds & _ & _ & Hlc & Hsame & Hch & _).
  fold n in Hlc, Hch.
  exists s'. split; [done|]. split; [done|]. split; [by rewrite Hfds|].
  intros j c Hc.
  assert (j < n)%nat as Hj by (rewrite <- Hlc; by eapply lookup_lt_Some).
  destruct (Hch j Hj) as (c' & Hc' & _ & _ & _ & Htab).
  rewrite Hc in Hc'. injection Hc' as <-.
  specialize (Htab H0 H1).
  assert (∀ fd f, t0 !! fd = Some f → is_pipe_end f = false) as Hno
    by (intros fd f Hf; exact (Hnp fd f Hf)).
  split; [|split].
  - intros fd k. rewrite Htab, lookup_child_table.
    destruct (decide (fd = FD_STDOUT ∧ (j + 1 < n)%nat)) as [[-> _]|Hout].
    { split; [done|]. intros [? _]. done. }
    destruct (decide (fd = FD_STDIN ∧ (0 < j)%nat)) as [[-> Hpos]|Hin].
    { split.
      - intros [= <-]. split; [done|lia].
      - intros [_ ->]. do 2 f_equal. lia. }
    split.
    + intros Hf. by apply Hno in Hf.
    + intros [-> ->]. exfalso. apply Hin. split; [done|lia].
  - intros fd k. rewrite Htab, lookup_child_table.
    destruct (decide (fd = FD_STDOUT ∧ (j + 1 < n)%nat)) as [[-> Hlt]|Hout].
    { split.
      - intros [= <-]. split; [done|]. split; [lia|done].
      - intros (_ & -> & _). done. }
    destruct (decide (fd = FD_STDIN ∧ (0 < j)%nat)) as [[-> Hpos]|Hin].
    { split; [done|]. intros (? & _). done. }
    split.
    + intros Hf. by apply Hno in Hf.
    + intros (-> & -> & ?). tauto.
  - split; [|split].
    + intros fd Hn0 Hn1. rewrite Htab, lookup_child_table.
      rewrite decide_False by tauto. by rewrite decide_False by tauto.
    + intros ->. rewrite Htab, lookup_child_table.
      rewrite decide_False by (by intros [? _]).
      by rewrite decide_False by (intros [_ ?]; lia).
    + intros Hlast. rewrite Htab, lookup_child_table.
      rewrite decide_False by (intros [_ ?]; lia).
      by rewrite decide_False by (by intros [? _]).
Qed.

Lemma main_pipe_ends_exclusive_witness :
  (2 ≤ length demo_argv)%nat ∧
  accept_cond MAX_NUM_PROGRAMS 0 (split_groups (drop 1 demo_argv)) ∧
  (size std_table + 2 * (length (split_groups (drop 1 demo_argv)) - 1)
     ≤ nofile demo_os)%nat ∧
  (length (split_groups (drop 1 demo_argv)) ≤ nproc demo_os)%nat ∧
  is_Some (std_table !! FD_STDIN) ∧ is_Some (std_table !! FD_STDOUT) ∧
  no_pipe_ends std_table ∧
  ∃ s' c, main demo_os demo_argv (boot std_table) = (Ret 0, s') ∧
          no_pipe_ends (fds s') ∧
          children s' !! 1%nat = Some c ∧
          (c_fds c !! 0 = Some (PipeR 0) ↔ 0 = FD_STDIN ∧ 1%nat = 1%nat) ∧
          (c_fds c !! 1 = Some (PipeW 1) ↔
             1 = FD_STDOUT ∧ 1%nat = 1%nat ∧ (1 + 1 < 3)%nat).
Proof.
  assert (2 ≤ length demo_argv)%nat as Hlen by (vm_compute; lia).
  assert (accept_cond MAX_NUM_PROGRAMS 0 (split_groups (drop 1 demo_argv))) as Hacc.
  { split; [apply (bool_decide_unpack _); vm_compute; exact I|vm_compute; lia]. }
  assert (size std_table + 2 * (length (split_groups (drop 1 demo_argv)) - 1)
            ≤ nofile demo_os)%nat as Hfd by (vm_compute; lia).
  assert (length (split_groups (drop 1 demo_argv)) ≤ nproc demo_os)%nat as Hproc
    by (vm_compute; lia).
  assert (is_Some (std_table !! FD_STDIN)) as H0 by (vm_compute; eauto).
  assert (is_Some (std_table !! FD_STDOUT)) as H1 by (vm_compute; eauto).
  assert (no_pipe_ends std_table) as Hnp.
  { apply (bool_decide_unpack _). vm_compute. exact I. }
  do 7 (split; [assumption|]).
  destruct (main_pipe_ends_exclusive demo_os std_table demo_argv
              Hlen Hacc Hfd Hproc H0 H1 Hnp) as (s' & Hmain & Hlc & Hnp' & Hends).
  destruct (lookup_lt_is_Some_2 (children s') 1) as [c Hc];
    [rewrite Hlc; vm_compute; lia|].
  exists s', c. split; [exact Hmain|]. split; [exact Hnp'|]. split; [exact Hc|].
  destruct (Hends 1%nat c Hc) as (HR & HW & _).
  split; [exact (HR 0 0%nat)|exact (HW 1 1%nat)].
Defined.

(** ** A program that cannot be executed *)

(** X9.  On a well-formed command line run with room for the pipes and
    the processes, a stage whose program cannot be executed does not stop
    the pipeline: its child calls [execvp] on the program's name and
    arguments, writes [execvp() failed.] and exits with [EXIT_FAILURE];
    [main] still returns 0, and when the wait for that stage succeeds it
    reports the exit value 1 for it. *)
Theorem main_reports_exec_failure os t0 (cl_argv : list string) j g :
  (2 ≤ length cl_argv)%nat →
  accept_cond MAX_NUM_PROGRAMS 0 (split_groups (drop 1 cl_argv)) →
  (size t0 + 2 * (length (split_groups (drop 1 cl_argv)) - 1) ≤ nofile os)%nat →
  (length (split_groups (drop 1 cl_argv)) ≤ nproc os)%nat →
  split_groups (drop 1 cl_argv) !! j = Some g →
  can_exec os (hd "" g) = false →
  wait_fails os (pid_of os j) = false →
  ∃ s' c,
    main os cl_argv (boot t0) = (Ret 0, s') ∧
    children s' !! j = Some c ∧
    (EExecvp (hd "" g) g ∈ c_trace c) ∧
    last (c_trace c) = Some (EStderr (Error "execvp() failed.")) ∧
    c_end c = Exit EXIT_FAILURE ∧
    exit_reports (trace s') !! j = Some (j, 1).
Proof.
  intros Hlen Hacc Hfd Hproc Hg Hexec Hwait.
  destruct (main_run os t0 cl_argv Hlen Hacc Hfd Hproc)
    as (s' & lb & Hmain & _ & _ & _ & Hlc & Hsame & Hch & Hst).
  set (gs := split_groups (drop 1 cl_argv)) in *. set (n := length gs) in *.
  assert (j < n)%nat as Hj by (by eapply lookup_lt_Some).
  destruct (Hch j Hj) as (c & Hc & Hpid & Htr & Hend & _).
  pose proof (same_stages_argv lb gs j g Hsame Hg) as Hargv.
  exists s', c. split; [done|]. split; [done|].
  unfold child_calls in Htr. unfold child_end in Hend.
  rewrite Hargv, Hexec in Htr, Hend.
  split; [rewrite Htr; set_solver|].
  split; [by rewrite Htr, !app_assoc, last_snoc|].
  split; [done|].
  apply story_projections in Hst as (_ & _ & Hr).
  rewrite Hr, list_lookup_fmap, lookup_seq_lt by done. cbn.
  rewrite Hc. cbn. unfold report, child_termination.
  rewrite Hpid, Hwait, Hend. by rewrite WEXITSTATUS_exited.
Qed.

Lemma main_reports_exec_failure_witness :
  (2 ≤ length nope_argv)%nat ∧
  accept_cond MAX_NUM_PROGRAMS 0 (split_groups (drop 1 nope_argv)) ∧
  (size std_table + 2 * (length (split_groups (drop 1 nope_argv)) - 1)
     ≤ nofile demo_os)%nat ∧
  (length (split_groups (drop 1 nope_argv)) ≤ nproc demo_os)%nat ∧
  split_groups (drop 1 nope_argv) !! 1%nat = Some ["nope"; "-x"] ∧
  can_exec demo_os (hd "" ["nope"; "-x"]) = false ∧
  wait_fails demo_os (pid_of demo_os 1) = false ∧
  ∃ s', main demo_os nope_argv (boot std_table) = (Ret 0, s') ∧
        exit_reports (trace s') !! 1%nat = Some (1%nat, 1).
Proof.
  assert (2 ≤ length nope_argv)%nat as Hlen by (vm_compute; lia).
  assert (accept_cond MAX_NUM_PROGRAMS 0 (split_groups (drop 1 nope_argv))) as Hacc.
  { split; [apply (bool_decide_unpack _); vm_compute; exact I|vm_compute; lia]. }
  assert (size std_table + 2 * (length (split_groups (drop 1 nope_argv)) - 1)
            ≤ nofile demo_os)%nat as Hfd by (vm_compute; lia).
  assert (length (split_groups (drop 1 nope_argv)) ≤ nproc demo_os)%nat as Hproc
    by (vm_compute; lia).
  assert (split_groups (drop 1 nope_argv) !! 1%nat = Some ["nope"; "-x"]) as Hg
    by (vm_compute; reflexivity).
  assert (can_exec demo_os (hd "" ["nope"; "-x"]) = false) as Hexec
    by (vm_compute; reflexivity).
  assert (wait_fails demo_os (pid_of demo_os 1) = false) as Hwait
    by (vm_compute; reflexivity).
  do 7 (split; [assumption|]).
  destruct (main_reports_exec_failure demo_os std_table nope_argv 1 ["nope"; "-x"]
              Hlen Hacc Hfd Hproc Hg Hexec Hwait)
    as (s' & c & Hmain & _ & _ & _ & _ & Hr).
  exists s'. split; [exact Hmain|exact Hr].
Defined.

(** ** Waiting twice *)

(** X10.  [wait_on_program] keeps no record of a wait: the entry keeps its
    pid, so that a second call for a stage whose exit value was collected
    calls [waitpid] again, which fails, and returns [-1].  The exit value
    of a stage can be read once; neither call touches the array, the
    descriptors or the children. *)
Theorem wait_on_program_once os prog s c :
  0 ≤ pid prog → find_child (pid prog) (children s) = Some c →
  pid prog ∉ reaped s → wait_fails os (pid prog) = false →
  let r := wait_on_program os prog s in
  r.1 = Ret (WEXITSTATUS (wstatus (child_termination os c))) ∧
  wait_on_program os prog r.2 =
    (Ret (-1),
     mkState (progs s) (fds s) (npipes s) (children s) (pid prog :: reaped s)
       (trace s ++ [EWaitpid (pid prog) (pid prog); EWaitpid (pid prog) (-1)])).
Proof.
  intros H0 Hc Hre Hw r. subst r.
  rewrite (wait_on_program_reaps os prog s c H0 Hc Hre Hw). cbn [fst snd].
  split; [done|].
  rewrite wait_on_program_wait_error; [|done|right; left; cbn; by left].
  unfold emit. cbn. by rewrite <- app_assoc.
Qed.

Lemma wait_on_program_once_witness :
  0 ≤ pid (demo_entry 0) ∧
  (∃ c, find_child (pid (demo_entry 0)) (children demo_running) = Some c) ∧
  (pid (demo_entry 0) ∉ reaped demo_running) ∧
  wait_fails demo_os (pid (demo_entry 0)) = false ∧
  (wait_on_program demo_os (demo_entry 0) demo_running).1 = Ret 0 ∧
  (wait_on_program demo_os (demo_entry 0)
     (wait_on_program demo_os (demo_entry 0) demo_running).2).1 = Ret (-1).
Proof.
  assert (0 ≤ pid (demo_entry 0)) as H0 by (vm_compute; discriminate).
  assert (pid (demo_entry 0) ∉ reaped demo_running) as Hre.
  { apply (bool_decide_unpack _). vm_compute. exact I. }
  assert (wait_fails demo_os (pid (demo_entry 0)) = false) as Hw by reflexivity.
  destruct (find_child (pid (demo_entry 0)) (children demo_running)) as [c|] eqn:Hc;
    [|vm_compute in Hc; discriminate].
  assert (WEXITSTATUS (wstatus (child_termination demo_os c)) = 0) as Hst.
  { vm_compute in Hc. injection Hc as <-. reflexivity. }
  split; [exact H0|]. split; [exists c; reflexivity|]. split; [exact Hre|].
  split; [exact Hw|].
  destruct (wait_on_program_once demo_os (demo_entry 0) demo_running c H0 Hc Hre Hw)
    as [H1 H2].
  split; [rewrite H1, Hst; reflexivity|rewrite H2; reflexivity].
Defined.

(** ** Releasing the argument vectors *)

Lemma free_programs_run_to n s :
  (n ≤ length (progs s))%nat →
  free_programs n s =
    (Ret tt, set_progs (λ l, (freed <$> take n l) ++ drop n l) s).
Proof.
  intros Hn. unfold free_programs. induction n as [|n IH].
  - rewrite for_range_nil by lia. unfold set_progs. cbn. rewrite drop_0. by destruct s.
  - rewrite for_range_S by lia. rewrite (bind_Ret _ _ _ _ _ (IH ltac:(lia))).
    unfold modify, set_progs. cbn [progs fds npipes children reaped trace].
    f_equal. f_equal.
    destruct (lookup_lt_is_Some_2 (progs s) n) as [p Hp]; [lia|].
    rewrite (take_S_r _ _ _ Hp), (drop_S _ _ _ Hp), fmap_app.
    rewrite <- app_assoc. cbn [fmap list_fmap app].
    rewrite alter_app_r_alt by (rewrite length_fmap, length_take; lia).
    rewrite length_fmap, length_take.
    by replace (n - n `min` length (progs s))%nat with 0%nat by lia.
Qed.

(** X11.  [free_programs] on the first [n] entries of the array always
    returns; it sets [argv] to the null pointer in each of these entries
    and changes nothing else: not their other fields, not the entries
    after them, not the descriptors, children or trace.  Calling it a
    second time changes nothing. *)
Theorem free_programs_clears n s :
  (n ≤ length (progs s))%nat →
  free_programs n s =
    (Ret tt,
     mkState ((freed <$> take n (progs s)) ++ drop n (progs s))
       (fds s) (npipes s) (children s) (reaped s) (trace s)) ∧
  free_programs n (free_programs n s).2 = free_programs n s.
Proof.
  intros Hn. split; [by rewrite free_programs_run_to|].
  rewrite (free_programs_run_to n s Hn). cbn [snd].
  rewrite free_programs_run_to; cbn [progs set_progs];
    [|rewrite length_app, length_fmap, length_take, length_drop; lia].
  unfold set_progs. cbn [progs fds npipes children reaped trace]. do 2 f_equal.
  rewrite take_app_length' by (rewrite length_fmap, length_take; lia).
  rewrite drop_app_length' by (rewrite length_fmap, length_take; lia).
  by rewrite <- list_fmap_compose.
Qed.

Lemma free_programs_clears_witness :
  (3 ≤ length (progs demo_running))%nat ∧
  (free_programs 3 demo_running).1 = Ret tt ∧
  progs (free_programs 3 demo_running).2 =
    [mkProgram [] 2 100 (-1) (-1); mkProgram [] 3 101 (-1) (-1);
     mkProgram [] 1 102 (-1) (-1)].
Proof.
  assert (3 ≤ length (progs demo_running))%nat as Hn by (vm_compute; lia).
  split; [exact Hn|].
  destruct (free_programs_clears 3 demo_running Hn) as [-> _].
  split; [reflexivity|]. vm_compute. reflexivity.
Defined.

(** ** What every run of the program keeps *)
































(** ** Steps along a relation *)

Section Steps.

Context (R : relation State) (HR : PreOrder R) (ok : event → Prop).
Hypothesis R_emit : ∀ e s, ok e → R s (emit e s).

Lemma steps_ret {A} (a : A) : steps R (ret a).
Proof. intros s. by split. Qed.

Lemma steps_bind {A B} (m : M A) (k : A → M B) :
  steps R m → (∀ a, steps R (k a)) → steps R (bind m k).
Proof.
  intros Hm Hk s. destruct (Hm s) as [Hr Ho]. unfold bind.
  destruct (m s) as [[a|code|file args] s1]; cbn in *; [|done..].
  destruct (Hk a s1) as [Hr' Ho']. split; [by etrans|done].
Qed.

Lemma steps_when c (m : M unit) : steps R m → steps R (when c m).
Proof. intros Hm. destruct c; [done|apply steps_ret]. Qed.

Lemma steps_for_each l (body : nat → M unit) :
  (∀ i, steps R (body i)) → steps R (for_each l body).
Proof.
  intros Hb. induction l as [|i l IH]; [apply steps_ret|].
  apply steps_bind; [apply Hb|done].
Qed.

Lemma steps_for_range lo hi (body : nat → M unit) :
  (∀ i, steps R (body i)) → steps R (for_range lo hi body).
Proof. apply steps_for_each. Qed.

Lemma steps_get {A} (f : State → A) : steps R (get f).
Proof. intros s. by split. Qed.

Lemma steps_eprint l : ok (EStderr l) → steps R (eprint l).
Proof. intros Hl s. split; [by apply R_emit|done]. Qed.

Lemma steps_die {A} msg : ok (EStderr (Error msg)) → steps R (@die A msg).
Proof. intros Hl s. split; [by apply R_emit|done]. Qed.

Lemma steps_check_return_value rv msg :
  ok (EStderr (Error msg)) → steps R (check_return_value rv msg).
Proof. intros Hl. by apply steps_when, steps_die. Qed.

End Steps.

(** ** The parent's side of a launch, in any state *)

Lemma parent_frame_preorder cur : PreOrder (parent_frame cur).
Proof.
  split.
  - intros s. unfold parent_frame. by repeat split.
  - intros s1 s2 s3 (A1 & A2 & A3 & A4 & A5 & A6 & A7 & A8 & A9)
      (B1 & B2 & B3 & B4 & B5 & B6 & B7 & B8 & B9).
    unfold parent_frame. repeat split; try congruence; try (by etrans).
    intros j Hj. by rewrite B6, A6.
Qed.

Lemma parent_frame_emit cur e s : parent_frame cur s (emit e s).
Proof. unfold parent_frame. repeat split; try done. by apply prefix_app_r. Qed.

Lemma steps_parent_close cur fd : steps (parent_frame cur) (close fd).
Proof.
  intros s. unfold close. destruct (fds s !! fd); (split; [|done]).
  - unfold parent_frame. cbn. repeat split; try done.
    + apply delete_subseteq.
    + by apply prefix_app_r.
  - apply parent_frame_emit.
Qed.

Lemma steps_parent_field cur (f : Program → Program) :
  (∀ p, argv (f p) = argv p ∧ argc (f p) = argc p) →
  steps (parent_frame cur) (modify (set_progs (alter f cur))).
Proof.
  intros Hf s. split; [|done]. unfold parent_frame. cbn.
  repeat split; try done.
  - by rewrite length_alter.
  - intros j Hj. by rewrite list_lookup_alter_ne.
  - apply list_eq. intros j. rewrite !list_lookup_fmap.
    destruct (decide (j = cur)) as [->|Hj].
    + rewrite list_lookup_alter_eq. destruct (progs s !! cur) as [p|]; [|done].
      cbn. f_equal. exact (proj1 (Hf p)).
    + by rewrite list_lookup_alter_ne.
  - apply list_eq. intros j. rewrite !list_lookup_fmap.
    destruct (decide (j = cur)) as [->|Hj].
    + rewrite list_lookup_alter_eq. destruct (progs s !! cur) as [p|]; [|done].
      cbn. f_equal. exact (proj2 (Hf p)).
    + by rewrite list_lookup_alter_ne.
Qed.

(** What [start_program] does in the parent once [fork] has returned the
    pid [child]. *)
Lemma steps_parent_side n cur child :
  steps (parent_frame cur)
    (set_pid cur child ;;;
     prog <- prog_at cur ;;
     when ((0 <? cur)%nat && (0 <=? fd_in prog))
       (rv <- close (fd_in prog) ;;
        check_return_value rv "close()") ;;;
     when (negb (Z.of_nat cur =? Z.of_nat n - 1) && (0 <=? fd_out prog))
       (rv <- close (fd_out prog) ;;
        check_return_value rv "close()") ;;;
     set_fd_in cur (-1) ;;;
     set_fd_out cur (-1)).
Proof.
  unfold set_pid, set_fd_in, set_fd_out, prog_at.
  pose proof (parent_frame_preorder cur) as HR.
  repeat first
    [ apply steps_parent_field; by intros ?
    | apply steps_parent_close
    | apply (steps_get (parent_frame cur) HR)
    | apply (steps_check_return_value (parent_frame cur) HR (λ _, True));
        [intros; apply parent_frame_emit|done]
    | apply (steps_when (parent_frame cur) HR)
    | apply (steps_bind (parent_frame cur) HR); [|intros ?] ].
Qed.

Lemma start_program_forked os n cur s :
  (length (children s) < nproc os)%nat →
  let p := pid_of os (length (children s)) in
  let s1 := mkState (progs s) (fds s) (npipes s)
              (children s ++ [forked p (start_program_child os n cur) s])
              (reaped s) (trace s ++ [EFork p]) in
  start_program os n cur s =
    (set_pid cur p ;;;
     prog <- prog_at cur ;;
     when ((0 <? cur)%nat && (0 <=? fd_in prog))
       (rv <- close (fd_in prog) ;;
        check_return_value rv "close()") ;;;
     when (negb (Z.of_nat cur =? Z.of_nat n - 1) && (0 <=? fd_out prog))
       (rv <- close (fd_out prog) ;;
        check_return_value rv "close()") ;;;
     set_fd_in cur (-1) ;;;
     set_fd_out cur (-1)) s1.
Proof.
  intros Hfork p s1. unfold start_program.
  erewrite (bind_Ret (fork _ _)); cycle 1.
  { unfold fork. rewrite bool_decide_eq_true_2 by done. reflexivity. }
  fold (pid_of os (length (children s))). fold p. fold s1.
  assert ((p <? 0) = false) as -> by (apply Z.ltb_ge; unfold p, pid_of; lia).
  reflexivity.
Qed.

Lemma start_program_no_process os n cur s :
  (nproc os ≤ length (children s))%nat →
  start_program os n cur s =
    (Exit EXIT_FAILURE,
     emit (EStderr (Error "fork() failed.")) (emit (EFork (-1)) s)).
Proof.
  intros Hfull. unfold start_program.
  erewrite (bind_Ret (fork _ _)); cycle 1.
  { unfold fork. rewrite bool_decide_eq_false_2; [reflexivity|lia]. }
  reflexivity.
Qed.

(** The child that [start_program] adds when a process can be created. *)
Lemma start_program_children os n cur s :
  (length (children s) < nproc os)%nat →
  children (start_program os n cur s).2 =
    children s ++
    [forked (pid_of os (length (children s))) (start_program_child os n cur) s].
Proof.
  intros Hfork. rewrite start_program_forked by done.
  destruct (steps_parent_side n cur (pid_of os (length (children s)))
              (mkState (progs s) (fds s) (npipes s)
                 (children s ++
                    [forked (pid_of os (length (children s)))
                       (start_program_child os n cur) s])
                 (reaped s) (trace s ++ [EFork (pid_of os (length (children s)))])))
    as [(_ & F2 & _) _].
  exact F2.
Qed.

(** X13.  In whatever state it is called, [start_program] for stage [cur]
    returns or exits with [EXIT_FAILURE] in the parent and never replaces
    the parent's image; it creates one process when one can be created and
    none otherwise; it opens no descriptor in the parent, creates no pipe
    and waits for no child; in the array it changes no entry other than
    [cur], and no argument vector or argument count at all. *)
Theorem start_program_frame os n cur s :
  let r := start_program os n cur s in
  (r.1 = Ret tt ∨ r.1 = Exit EXIT_FAILURE) ∧
  children r.2 =
    children s ++
    (if bool_decide (length (children s) < nproc os)%nat
     then [forked (pid_of os (length (children s))) (start_program_child os n cur) s]
     else []) ∧
  fds r.2 ⊆ fds s ∧ npipes r.2 = npipes s ∧ reaped r.2 = reaped s ∧
  length (progs r.2) = length (progs s) ∧
  (∀ j, j ≠ cur → progs r.2 !! j = progs s !! j) ∧
  argv <$> progs r.2 = argv <$> progs s ∧
  argc <$> progs r.2 = argc <$> progs s.
Proof.
  intros r. subst r. case_bool_decide as Hfork.
  - rewrite start_program_forked by done.
    destruct (steps_parent_side n cur (pid_of os (length (children s)))
                (mkState (progs s) (fds s) (npipes s)
                   (children s ++
                      [forked (pid_of os (length (children s)))
                         (start_program_child os n cur) s])
                   (reaped s) (trace s ++ [EFork (pid_of os (length (children s)))])))
      as [(F1 & F2 & F3 & F4 & F5 & F6 & F7 & F8 & _) Hout].
    cbn [progs fds npipes children reaped trace] in *.
    split; [|done].
    destruct (_ : outcome unit * State) as [[[]|code|file args] s'];
      cbn in *; [by left|right; by subst|done].
  - rewrite start_program_no_process by lia. cbn. rewrite app_nil_r.
    split; [by right|done].
Qed.

(** ** Launching a stage whose pipes are missing *)

(** X14.  A stage of a pipeline of several stages that is launched while
    the descriptor it has to redirect first is not open (no pipe was made
    for it, or it was launched before) does not run its program: the child
    made for it fails in its first [dup2], writes the [dup2()] error line
    and exits with [EXIT_FAILURE] without closing anything and without
    calling [execvp]. *)
Theorem start_program_unwired os n cur s prog :
  progs s !! cur = Some prog → (cur < n)%nat → (1 < n)%nat →
  (length (children s) < nproc os)%nat →
  ((0 < cur)%nat → fds s !! fd_in prog = None) →
  (cur = 0%nat → fds s !! fd_out prog = None) →
  ∃ c,
    children (start_program os n cur s).2 = children s ++ [c] ∧
    c_pid c = pid_of os (length (children s)) ∧
    c_trace c =
      [if (0 <? cur)%nat then EDup2 (fd_in prog) FD_STDIN (-1)
       else EDup2 (fd_out prog) FD_STDOUT (-1);
       EStderr (Error "dup2()")] ∧
    c_end c = Exit EXIT_FAILURE ∧ c_fds c = fds s.
Proof.
  intros Hprog Hcur Hn Hfork Hin Hout.
  eexists. split; [by apply start_program_children|].
  set (s0 := mkState (progs s) (fds s) (npipes s) [] [] []).
  assert (start_program_child os n cur s0 =
            (Exit EXIT_FAILURE,
             mkState (progs s) (fds s) (npipes s) [] []
               [if (0 <? cur)%nat then EDup2 (fd_in prog) FD_STDIN (-1)
                else EDup2 (fd_out prog) FD_STDOUT (-1);
                EStderr (Error "dup2()")])) as Hrun.
  { unfold start_program_child. rewrite (bind_prog_at _ _ _ prog) by done.
    destruct (0 <? cur)%nat eqn:E; cbn [when].
    - apply Nat.ltb_lt in E.
      apply bind_Exit. erewrite bind_Ret; cycle 1.
      { unfold dup2. cbn [fds s0]. rewrite (Hin E). reflexivity. }
      reflexivity.
    - apply Nat.ltb_ge in E.
      rewrite (bind_Ret _ _ _ tt _) by reflexivity.
      assert ((Z.of_nat cur =? Z.of_nat n - 1) = false) as -> by (apply Z.eqb_neq; lia).
      cbn [negb when].
      apply bind_Exit. erewrite bind_Ret; cycle 1.
      { unfold dup2. cbn [fds s0]. rewrite Hout by lia. reflexivity. }
      reflexivity. }
  unfold forked. fold s0. rewrite Hrun. done.
Qed.

Lemma start_program_unwired_witness :
  progs demo_parsed !! 1%nat = Some (mkProgram ["tr"; "a-z"; "A-Z"] 3 (-1) (-1) (-1)) ∧
  (1 < 3)%nat ∧ (length (children demo_parsed) < nproc demo_os)%nat ∧
  fds demo_parsed !! (-1) = None ∧
  ∃ c, children (start_program demo_os 3 1 demo_parsed).2 = [c] ∧
       c_trace c = [EDup2 (-1) 0 (-1); EStderr (Error "dup2()")] ∧
       c_end c = Exit EXIT_FAILURE.
Proof.
  assert (progs demo_parsed !! 1%nat =
            Some (mkProgram ["tr"; "a-z"; "A-Z"] 3 (-1) (-1) (-1))) as Hprog
    by (vm_compute; reflexivity).
  assert (length (children demo_parsed) < nproc demo_os)%nat as Hfork
    by (vm_compute; lia).
  assert (fds demo_parsed !! (-1) = None) as Hnone by (vm_compute; reflexivity).
  split; [exact Hprog|]. split; [lia|]. split; [exact Hfork|]. split; [exact Hnone|].
  destruct (start_program_unwired demo_os 3 1 demo_parsed _ Hprog
              ltac:(lia) ltac:(lia) Hfork (λ _, Hnone) ltac:(lia))
    as (c & Hch & _ & Htr & Hend & _).
  exists c. split; [exact Hch|]. split; [exact Htr|exact Hend].
Defined.

(** ** The phases of a run *)

Lemma traces_preorder ok : PreOrder (traces ok).
Proof.
  split.
  - intros s. exists []. by rewrite app_nil_r.
  - intros s1 s2 s3 (tr1 & H1 & F1) (tr2 & H2 & F2). exists (tr1 ++ tr2).
    split; [by rewrite H2, H1, app_assoc|by apply Forall_app].
Qed.

Lemma traces_emit (ok : event → Prop) e s : ok e → traces ok s (emit e s).
Proof. intros He. exists [e]. split; [done|by constructor]. Qed.

Lemma steps_traces_set_progs ok (f : list Program → list Program) :
  steps (traces ok) (modify (set_progs f)).
Proof. intros s. split; [|done]. exists []. cbn. by rewrite app_nil_r. Qed.

Lemma steps_traces_pipe os fd : steps (traces setup_event) (pipe os fd).
Proof.
  intros s. unfold pipe.
  destruct (lowest_free os (fds s)) as [r|];
    [destruct (lowest_free os _) as [w|]|]; (split; [|done]);
    eexists [_]; (split; [reflexivity|by constructor]).
Qed.

Lemma steps_traces_fork os child : steps (traces launch_event) (fork os child).
Proof.
  intros s. unfold fork. case_bool_decide; (split; [|done]);
    eexists [_]; (split; [reflexivity|by constructor]).
Qed.

Lemma steps_traces_close fd : steps (traces launch_event) (close fd).
Proof.
  intros s. unfold close. destruct (fds s !! fd); (split; [|done]);
    eexists [_]; (split; [reflexivity|by constructor]).
Qed.

Lemma steps_traces_waitpid os p : steps (traces collect_event) (waitpid os p).
Proof.
  intros s. unfold waitpid.
  destruct (find_child p (children s)); [destruct (_ || _)|]; (split; [|done]);
    eexists [_]; (split; [reflexivity|by constructor]).
Qed.

(** One step through a sequence of calls that writes events of kind [ok]. *)
Ltac traces_step ok :=
  first
    [ apply steps_traces_set_progs
    | apply steps_traces_pipe
    | apply steps_traces_fork
    | apply steps_traces_close
    | apply steps_traces_waitpid
    | apply (steps_ret (traces ok) (traces_preorder ok))
    | apply (steps_get (traces ok) (traces_preorder ok))
    | apply (steps_eprint (traces ok) ok); [apply traces_emit|exact I]
    | apply (steps_die (traces ok) ok); [apply traces_emit|exact I]
    | apply (steps_check_return_value (traces ok) (traces_preorder ok) ok);
        [apply traces_emit|exact I]
    | apply (steps_when (traces ok) (traces_preorder ok))
    | apply (steps_for_range (traces ok) (traces_preorder ok)); intros ?
    | apply (steps_bind (traces ok) (traces_preorder ok)); [|intros ?] ].

Lemma steps_traces_parse_loop fuel max_num_progs cl_argc cl_argv cur_arg prog_count :
  steps (traces setup_event)
    (parse_loop fuel max_num_progs cl_argc cl_argv cur_arg prog_count).
Proof.
  revert cur_arg prog_count. induction fuel as [|fuel IH]; intros cur_arg prog_count;
    cbn [parse_loop]; destruct (cur_arg <? cl_argc)%nat;
    try apply (steps_ret (traces setup_event) (traces_preorder _)).
  unfold init_program, set_args.
  repeat first [apply IH | traces_step setup_event].
Qed.

Lemma steps_traces_prepare_pipes os n :
  steps (traces setup_event) (prepare_pipes os n).
Proof.
  unfold prepare_pipes, set_fd_in, set_fd_out.
  apply (steps_for_range (traces setup_event) (traces_preorder _)). intros i.
  apply (steps_bind (traces setup_event) (traces_preorder _)); [apply steps_traces_pipe|].
  intros [status fd]. repeat traces_step setup_event.
Qed.

Lemma steps_traces_spawn_child os n i :
  steps (traces launch_event) (spawn_child os n i).
Proof.
  unfold spawn_child, start_program, set_pid, set_fd_in, set_fd_out, prog_at.
  repeat first
    [ match goal with |- steps _ (if ?c then _ else _) => destruct c end
    | traces_step launch_event ].
Qed.

Lemma steps_traces_wait_for_child os i :
  steps (traces collect_event) (wait_for_child os i).
Proof.
  unfold wait_for_child, wait_on_program, prog_at.
  repeat first
    [ match goal with
      | |- steps _ (if ?c then _ else _) => destruct c
      | |- steps _ (let '(_, _) := ?r in _) => destruct r
      end
    | traces_step collect_event ].
Qed.

Lemma steps_traces_free_programs n :
  steps (traces collect_event) (free_programs n).
Proof. unfold free_programs. repeat traces_step collect_event. Qed.

Lemma in_phases_bind {A} (inv : State → Prop) ok (m : M A) (k : A → M Z) s :
  (∀ s1 s2, inv s1 → traces ok s1 s2 → inv s2) →
  (∀ s1, inv s1 → in_phases (trace s1)) →
  inv s → steps (traces ok) m →
  (∀ a s1, inv s1 → in_phases (trace (k a s1).2)) →
  in_phases (trace (bind m k s).2).
Proof.
  intros Hstep Hend Hs Hm Hk. destruct (Hm s) as [Hr _]. unfold bind.
  destruct (m s) as [[a|code|file args] s1]; cbn in *.
  - apply Hk. by eapply Hstep.
  - apply Hend. by eapply Hstep.
  - apply Hend. by eapply Hstep.
Qed.

(** The state of [main] in each of its phases. *)
Lemma setup_phase (s1 s2 : State) :
  Forall setup_event (trace s1) → traces setup_event s1 s2 →
  Forall setup_event (trace s2).
Proof. intros H1 (tr & -> & Htr). by apply Forall_app. Qed.

Lemma setup_phase_end (s : State) :
  Forall setup_event (trace s) → in_phases (trace s).
Proof. intros H. exists (trace s), [], []. by rewrite !app_nil_r. Qed.

Lemma launch_phase (s1 s2 : State) :
  (∃ tr1 tr2, trace s1 = tr1 ++ tr2 ∧
     Forall setup_event tr1 ∧ Forall launch_event tr2) →
  traces launch_event s1 s2 →
  ∃ tr1 tr2, trace s2 = tr1 ++ tr2 ∧
    Forall setup_event tr1 ∧ Forall launch_event tr2.
Proof.
  intros (tr1 & tr2 & H1 & F1 & F2) (tr & -> & Htr). exists tr1, (tr2 ++ tr).
  split; [by rewrite H1, app_assoc|]. split; [done|by apply Forall_app].
Qed.

Lemma launch_phase_end (s : State) :
  (∃ tr1 tr2, trace s = tr1 ++ tr2 ∧
     Forall setup_event tr1 ∧ Forall launch_event tr2) →
  in_phases (trace s).
Proof.
  intros (tr1 & tr2 & H1 & F1 & F2). exists tr1, tr2, [].
  by rewrite app_nil_r.
Qed.

Lemma collect_phase (s1 s2 : State) :
  in_phases (trace s1) → traces collect_event s1 s2 → in_phases (trace s2).
Proof.
  intros (tr1 & tr2 & tr3 & H1 & F1 & F2 & F3) (tr & -> & Htr).
  exists tr1, tr2, (tr3 ++ tr).
  split; [by rewrite H1, <- !app_assoc|]. split; [done|]. split; [done|].
  by apply Forall_app.
Qed.

(** X15.  In every run of [main], whatever the command line and the
    behaviour of the system, the calls of the orchestrator come in three
    phases that do not mix: first the pipes are created, then the stages
    are forked and the parent's pipe ends closed, then the children are
    waited for.  No process is forked before the last pipe is created, no
    child is waited for before the last fork, and the orchestrator itself
    never calls [dup2] or [execvp]. *)
Theorem main_in_phases os (cl_argv : list string) t0 :
  ∃ tr1 tr2 tr3,
    trace (main os cl_argv (boot t0)).2 = tr1 ++ tr2 ++ tr3 ∧
    Forall setup_event tr1 ∧ Forall launch_event tr2 ∧ Forall collect_event tr3.
Proof.
  change (in_phases (trace (main os cl_argv (boot t0)).2)).
  pose (I1 := λ s : State, Forall setup_event (trace s)).
  pose (I2 := λ s : State, ∃ tr1 tr2, trace s = tr1 ++ tr2 ∧
                 Forall setup_event tr1 ∧ Forall launch_event tr2).
  pose (I3 := λ s : State, in_phases (trace s)).
  unfold main, parse_command_line.
  apply (in_phases_bind I1 setup_event); [apply setup_phase|apply setup_phase_end|
    constructor|traces_step setup_event|].
  intros _ s1 H1.
  apply (in_phases_bind I1 setup_event); [apply setup_phase|apply setup_phase_end|
    done|repeat traces_step setup_event|].
  intros _ s2 H2.
  apply (in_phases_bind I1 setup_event); [apply setup_phase|apply setup_phase_end|
    done|apply steps_traces_parse_loop|].
  intros n s3 H3.
  apply (in_phases_bind I1 setup_event); [apply setup_phase|apply setup_phase_end|
    done|apply steps_traces_prepare_pipes|].
  intros _ s4 H4.
  apply (in_phases_bind I2 launch_event); [apply launch_phase|apply launch_phase_end|
    exists (trace s4), []; by rewrite app_nil_r|
    apply (steps_for_range (traces launch_event) (traces_preorder _)),
      steps_traces_spawn_child|].
  intros _ s5 H5. apply launch_phase_end in H5.
  apply (in_phases_bind I3 collect_event); [apply collect_phase|done|done|
    apply (steps_for_range (traces collect_event) (traces_preorder _)),
      steps_traces_wait_for_child|].
  intros _ s6 H6.
  apply (in_phases_bind I3 collect_event); [apply collect_phase|done|done|
    apply steps_traces_free_programs|].
  intros _ s7 H7.
  apply (in_phases_bind I3 collect_event); [apply collect_phase|done|done|
    traces_step collect_event|].
  intros _ s8 H8. exact H8.
Qed.

(** ** The state in which [main] returns *)

(** What a wait leaves in the list of the children waited for. *)
Lemma wait_for_child_reaped os s2 i s p c :
  reaping os s2 i s →
  (∀ j c', children s2 !! j = Some c' → c_pid c' = pid_of os j) →
  progs s2 !! i = Some p → pid p = pid_of os i → children s2 !! i = Some c →
  reaped (wait_for_child os i s).2 =
    if wait_fails os (pid_of os i) then reaped s else pid_of os i :: reaped s.
Proof.
  intros (Hp & Hf & Hn & Hc & Hre & Hst) Hord Hpi Hpid Hci.
  unfold wait_for_child.
  rewrite (bind_prog_at i _ _ p) by (by rewrite Hp).
  rewrite (bind_Ret _ _ _ tt _) by reflexivity.
  set (s1 := emit _ s).
  assert (0 ≤ pid p) as H0 by (rewrite Hpid; unfold pid_of; lia).
  assert (pid p ∉ reaped s1) as Hnr.
  { intros (j & Hj & Heq)%Hre. rewrite Hpid in Heq.
    apply pid_of_inj in Heq. lia. }
  assert (find_child (pid p) (children s1) = Some c) as Hfc.
  { rewrite Hpid. cbn. rewrite Hc. by apply find_child_in_order. }
  rewrite <- Hpid. destruct (wait_fails os (pid p)) eqn:Hw.
  - by rewrite (bind_Ret _ _ _ _ _ (wait_on_program_wait_error os p s1 H0 ltac:(auto))).
  - by rewrite (bind_Ret _ _ _ _ _ (wait_on_program_reaps os p s1 c H0 Hfc Hnr Hw)).
Qed.

(** The waiting loop, with the children waited for. *)
Lemma wait_loop_reaped os t0 p0 n l tr1 s2 :
  spawning os t0 p0 n l tr1 n s2 → length l = n →
  ∃ s', for_range 0 n (wait_for_child os) s2 = (Ret tt, s') ∧
        reaping os s2 n s' ∧
        reaped s' =
          rev (filter (λ q, wait_fails os q = false) (pid_of os <$> seq 0 n)).
Proof.
  intros Hsp Hl. pose proof Hsp as (HL & Hdrop & Hrel & Hlen & Hch & Hre & Hnp & Hst).
  assert (∀ j c', children s2 !! j = Some c' → c_pid c' = pid_of os j) as Hord.
  { intros j c' Hc'. destruct (Hch j) as (c & Hc & Hsc & _).
    - rewrite <- Hlen. by eapply lookup_lt_Some.
    - congruence. }
  destruct (for_range_inv
    (λ i s, reaping os s2 i s ∧
            reaped s = rev (filter (λ q, wait_fails os q = false)
                              (pid_of os <$> seq 0 i)))
    0 n (wait_for_child os) s2) as (s' & Hrun & Hinv & Hreaped); [lia| | |].
  - split; [|by rewrite Hre].
    unfold reaping, wait_story. rewrite Hre. simpl. rewrite app_nil_r.
    repeat split; try done. by intros q ?%elem_of_nil.
  - intros i s1 Hi [Hinv Hr1].
    destruct (lookup_lt_is_Some_2 l i) as [p Hp]; [lia|].
    destruct (Hch i) as (c & Hc & _); [lia|].
    assert (progs s2 !! i = Some (mkProgram (argv p) (argc p) (pid_of os i) (-1) (-1)))
      as Hpi by (apply Hrel; [lia|done]).
    destruct (wait_for_child_step os s2 i s1 _ c Hinv Hord Hpi eq_refl Hc)
      as (s3 & Hrun3 & Hinv3).
    exists s3. split; [done|]. split; [done|].
    pose proof (wait_for_child_reaped os s2 i s1 _ c Hinv Hord Hpi eq_refl Hc) as Hr3.
    rewrite Hrun3 in Hr3. cbn [snd] in Hr3. rewrite Hr3, Hr1.
    rewrite seq_S, fmap_app, filter_app, rev_app_distr. cbn [fmap list_fmap].
    rewrite filter_cons, filter_nil. cbn [Nat.add].
    destruct (wait_fails os (pid_of os i)); [by rewrite decide_False|].
    by rewrite decide_True.
  - by exists s'.
Qed.

(** The state in which [main] returns, once the pipes are made. *)
Lemma main_returns_state os t0 (cl_argv : list string) sb :
  (2 ≤ length cl_argv)%nat →
  let gs := split_groups (drop 1 cl_argv) in
  let n := length gs in
  accept_cond MAX_NUM_PROGRAMS 0 gs →
  prepare_pipes os n (mkState (map stage_of gs) t0 0 [] [] []) = (Ret tt, sb) →
  (n ≤ nproc os)%nat →
  ∃ s',
    main os cl_argv (boot t0) = (Ret 0, s') ∧
    fds s' = t0 ∧ npipes s' = (n - 1)%nat ∧ length (children s') = n ∧
    progs s' =
      imap (λ j g, mkProgram [] (length g) (pid_of os j) (-1) (-1)) gs ∧
    reaped s' =
      rev (filter (λ q, wait_fails os q = false) (pid_of os <$> seq 0 n)).
Proof.
  intros Hlen gs n Hacc Hpipes Hproc.
  destruct (main_parsed os cl_argv t0 Hlen Hacc) as (Hn & Hfresh & ->).
  fold gs in Hn, Hfresh |- *. fold n in Hn |- *.
  set (sa := mkState (map stage_of gs) t0 0 [] [] []) in *.
  destruct (prepare_pipes_cases os n sa)
    as [(sb' & Hrun & Hpiping)|(i & s1 & _ & _ & _ & Hrun)];
    [lia|cbn; by rewrite length_map|done| |];
    rewrite Hpipes in Hrun; [|discriminate].
  injection Hrun as <-.
  rewrite (bind_Ret _ _ _ _ _ Hpipes).
  destruct (spawning_start os t0 0%nat n sa sb) as [Hsp0 Hfit]; try done.
  pose proof Hpiping as (Hlb & _ & _ & _ & _ & _ & Hsame & _).
  destruct (spawn_loop os t0 0%nat n (progs sb) (trace sb) n sb)
    as (sc & Hspawn & Hsc); [done|lia|lia|done|].
  rewrite (bind_Ret _ _ _ _ _ Hspawn).
  destruct (wait_loop_reaped os t0 0%nat n (progs sb) (trace sb) sc Hsc Hlb)
    as (sd & Hwait & Hsd & Hreaped).
  rewrite (bind_Ret _ _ _ _ _ Hwait).
  destruct Hsc as (HL & Hdrop & Hrel & Hlenc & Hch & Hre & Hnp & Hst).
  destruct Hsd as (Hp & Hf & Hnpd & Hc & Hred & Hstd).
  assert (length (progs sd) = n) as Hld by (rewrite Hp; by destruct HL).
  rewrite (bind_Ret _ _ _ _ _ (free_programs_run_to n sd ltac:(lia))).
  eexists. split; [reflexivity|].
  cbn [progs fds npipes children reaped trace emit set_progs].
  split; [rewrite Hf; by eapply launching_done|].
  split; [lia|]. split; [by rewrite Hc|]. split; [|done].
  rewrite take_ge, drop_ge, app_nil_r by lia.
  apply list_eq. intros j. rewrite list_lookup_fmap, list_lookup_imap, Hp.
  destruct (gs !! j) as [g|] eqn:Hg; cbn.
  - assert (j < n)%nat as Hj by (by eapply lookup_lt_Some).
    destruct (lookup_lt_is_Some_2 (progs sb) j) as [p Hpj]; [lia|].
    rewrite (Hrel j p Hj Hpj). cbn. unfold freed. cbn.
    pose proof (proj1 (same_stages_lookup _ _) Hsame j) as Hs.
    rewrite Hpj in Hs. cbn [progs sa] in Hs.
    rewrite map_is_fmap, list_lookup_fmap, Hg in Hs. cbn in Hs.
    by injection Hs as _ ->.
  - apply lookup_ge_None in Hg.
    rewrite lookup_ge_None_2; [done|]. rewrite <- Hp, Hld. done.
Qed.

(** X16.  When [main] returns from a well-formed pipeline, the
    orchestrator holds exactly the descriptors it was started with; the
    entry of each stage records the pid of its child and the number of its
    arguments, with the argument vector released and both descriptor
    fields [-1]; and the children waited for are exactly those whose wait
    did not fail, each recorded once (the last one waited for first). *)
Theorem main_final_state os t0 (cl_argv : list string) :
  (2 ≤ length cl_argv)%nat →
  accept_cond MAX_NUM_PROGRAMS 0 (split_groups (drop 1 cl_argv)) →
  (size t0 + 2 * (length (split_groups (drop 1 cl_argv)) - 1) ≤ nofile os)%nat →
  (length (split_groups (drop 1 cl_argv)) ≤ nproc os)%nat →
  let gs := split_groups (drop 1 cl_argv) in
  let n := length gs in
  ∃ s',
    main os cl_argv (boot t0) = (Ret 0, s') ∧
    fds s' = t0 ∧ npipes s' = (n - 1)%nat ∧
    progs s' =
      imap (λ j g, mkProgram [] (length g) (pid_of os j) (-1) (-1)) gs ∧
    reaped s' =
      rev (filter (λ q, wait_fails os q = false) (pid_of os <$> seq 0 n)).
Proof.
  intros Hlen Hacc Hfd Hproc gs n.
  pose proof (tokens_groups cl_argv Hlen) as Hne. fold gs in Hne.
  destruct (accepted_groups _ gs Hne (split_groups_not_nil _) Hacc) as [Hn Hfresh].
  destruct (prepare_pipes_spec os n (mkState (map stage_of gs) t0 0 [] [] []))
    as (sb & Hpipes & _); [lia|cbn; by rewrite length_map|done|done|].
  destruct (main_returns_state os t0 cl_argv sb Hlen Hacc Hpipes Hproc)
    as (s' & Hmain & Hf & Hnp & _ & Hp & Hr).
  by exists s'.
Qed.

Lemma main_final_state_witness :
  (2 ≤ length demo_argv)%nat ∧
  accept_cond MAX_NUM_PROGRAMS 0 (split_groups (drop 1 demo_argv)) ∧
  (size std_table + 2 * (length (split_groups (drop 1 demo_argv)) - 1)
     ≤ nofile demo_os)%nat ∧
  (length (split_groups (drop 1 demo_argv)) ≤ nproc demo_os)%nat ∧
  ∃ s', main demo_os demo_argv (boot std_table) = (Ret 0, s') ∧
        fds s' = std_table ∧
        progs s' = [mkProgram [] 2 100 (-1) (-1); mkProgram [] 3 101 (-1) (-1);
                    mkProgram [] 1 102 (-1) (-1)] ∧
        reaped s' = [101; 100].
Proof.
  assert (2 ≤ length demo_argv)%nat as Hlen by (vm_compute; lia).
  assert (accept_cond MAX_NUM_PROGRAMS 0 (split_groups (drop 1 demo_argv))) as Hacc.
  { split; [apply (bool_decide_unpack _); vm_compute; exact I|vm_compute; lia]. }
  assert (size std_table + 2 * (length (split_groups (drop 1 demo_argv)) - 1)
            ≤ nofile demo_os)%nat as Hfd by (vm_compute; lia).
  assert (length (split_groups (drop 1 demo_argv)) ≤ nproc demo_os)%nat as Hproc
    by (vm_compute; lia).
  do 4 (split; [assumption|]).
  destruct (main_final_state demo_os std_table demo_argv Hlen Hacc Hfd Hproc)
    as (s' & Hmain & Hfds & _ & Hprogs & Hreaped).
  exists s'. split; [exact Hmain|]. split; [exact Hfds|].
  split; [rewrite Hprogs; vm_compute; reflexivity|rewrite Hreaped; vm_compute; reflexivity].
Defined.

(** ** The descriptors recorded in the array *)

(** X17.  When [prepare_pipes] returns, the descriptors recorded in the
    entries of the array are exactly the descriptors it has opened, each
    recorded once: no descriptor is recorded in two fields, none of them
    was open before, and every new descriptor is recorded. *)
Theorem prepare_pipes_distinct os n s0 :
  (1 ≤ n)%nat → length (progs s0) = n → fresh_stages (progs s0) →
  (size (fds s0) + 2 * (n - 1) ≤ nofile os)%nat →
  ∃ s',
    prepare_pipes os n s0 = (Ret tt, s') ∧
    NoDup (open_ends 0 (progs s')) ∧
    ∀ fd, fd ∈ open_ends 0 (progs s') ↔
          is_Some (fds s' !! fd) ∧ fds s0 !! fd = None.
Proof.
  intros Hn Hlen Hfresh Hsize.
  destruct (prepare_pipes_spec os n s0 Hn Hlen Hfresh Hsize) as (s' & Hrun & Hp).
  destruct Hp as (Hl & _ & Hconn & Hedge & _).
  assert (launching (fds s0) (npipes s0) n 0 s') as HL by done.
  exists s'. split; [done|]. split; [by eapply launching_NoDup|].
  intros fd. split.
  - intros Hfd. destruct (launching_open_ends _ _ _ _ _ _ HL Hfd). done.
  - intros [[f Hf] Hnew]. destruct Hconn as (C1 & C2 & C3 & _).
    destruct (C3 fd f Hf) as [H0|(i & p & Hp & _ & Hcase)]; [congruence|].
    apply elem_of_open_ends. exists i, p. split; [lia|]. split; [done|].
    apply elem_of_stage_fds.
    destruct Hcase as [(H1 & H2 & ->)|(H1 & ->)].
    + left. split; [|done]. destruct (C1 i p Hp) as (? & _); [lia..|done].
    + right. split; [|done]. destruct (C2 i p Hp) as (? & _); [lia..|lia].
Qed.

Lemma prepare_pipes_distinct_witness :
  (1 ≤ 3)%nat ∧ length (progs demo_parsed) = 3%nat ∧
  fresh_stages (progs demo_parsed) ∧
  (size (fds demo_parsed) + 2 * (3 - 1) ≤ nofile demo_os)%nat ∧
  ∃ s', prepare_pipes demo_os 3 demo_parsed = (Ret tt, s') ∧
        open_ends 0 (progs s') = [4; 3; 6; 5] ∧
        NoDup (open_ends 0 (progs s')).
Proof.
  assert (fresh_stages (progs demo_parsed)) as Hfresh.
  { apply (bool_decide_unpack _). vm_compute. exact I. }
  assert (size (fds demo_parsed) + 2 * (3 - 1) ≤ nofile demo_os)%nat as Hsize.
  { vm_compute. lia. }
  split; [lia|]. split; [reflexivity|]. split; [exact Hfresh|]. split; [exact Hsize|].
  destruct (prepare_pipes_distinct demo_os 3 demo_parsed)
    as (s' & Hrun & Hnd & _);
    [lia|reflexivity|exact Hfresh|exact Hsize|].
  exists s'. split; [exact Hrun|]. split; [|exact Hnd].
  assert (s' = (prepare_pipes demo_os 3 demo_parsed).2) as -> by (by rewrite Hrun).
  vm_compute. reflexivity.
Defined.

(** ** Every run of [main] *)

Lemma main_parse_failed os (cl_argv : list string) t0 code s :
  (2 ≤ length cl_argv)%nat →
  parse_command_line MAX_NUM_PROGRAMS (length cl_argv) cl_argv (boot t0) = (Exit code, s) →
  main os cl_argv (boot t0) = (Exit code, s).
Proof.
  intros Hlen Hparse. unfold main.
  rewrite (bind_Ret _ _ _ tt (boot t0)) by reflexivity.
  assert ((length cl_argv <=? 1)%nat = false) as -> by (apply Nat.leb_gt; lia).
  cbn [when]. rewrite (bind_Ret _ _ _ tt (boot t0)) by reflexivity.
  by apply bind_Exit.
Qed.

(** What holds of the state in which [main] stops, in every run. *)
Lemma main_all_runs os (cl_argv : list string) t0 :
  let r := main os cl_argv (boot t0) in
  t0 ⊆ fds r.2 ∧ (∀ v, r.1 = Ret v → fds r.2 = t0) ∧
  (length (progs r.2) ≤ MAX_NUM_PROGRAMS)%nat ∧
  (npipes r.2 ≤ length (progs r.2) - 1)%nat ∧
  (length (children r.2) ≤ length (progs r.2))%nat ∧
  (length (children r.2) ≤ nproc os)%nat.
Proof.
  intros r. subst r.
  destruct (decide (2 ≤ length cl_argv)%nat) as [Hlen|Hlen].
  2:{ rewrite main_short by lia. cbn. repeat split; try done; lia. }
  set (gs := split_groups (drop 1 cl_argv)). set (n := length gs).
  destruct (decide (accept_cond MAX_NUM_PROGRAMS 0 gs)) as [Hacc|Hrej].
  - destruct (main_parsed os cl_argv t0 Hlen Hacc) as (Hn & Hfresh & Hmain).
    fold gs in Hn, Hfresh, Hmain. fold n in Hn, Hmain.
    set (sa := mkState (map stage_of gs) t0 0 [] [] []) in *.
    destruct (prepare_pipes_cases os n sa)
      as [(sb & Hpipes & Hpiping)|(i & s1 & Hi & Hp & _ & Hpipes)];
      [lia|cbn; by rewrite length_map|done| |].
    + destruct (decide (n ≤ nproc os)%nat) as [Hproc|Hproc].
      * destruct (main_returns_state os t0 cl_argv sb Hlen Hacc Hpipes Hproc)
          as (s' & -> & Hf & Hnp & Hlc & Hpr & _).
        fold gs n in Hnp, Hlc, Hpr. cbn [fst snd].
        assert (length (progs s') = n) as Hlp by (by rewrite Hpr, length_imap).
        rewrite Hf, Hlp, Hnp, Hlc. repeat split; try done; lia.
      * rewrite Hmain, (bind_Ret _ _ _ _ _ Hpipes).
        destruct (spawning_start os t0 0%nat n sa sb) as [Hsp0 Hfit]; try done.
        destruct (spawn_loop_no_process os t0 0%nat n (progs sb) (trace sb) sb
                    Hsp0 ltac:(lia) Hfit)
          as (sc & prog & Hsc & Hprog & Hloop).
        rewrite (bind_Exit _ _ _ _ _ Hloop). cbn [fst snd progs fds npipes children emit].
        destruct Hsc as ((Hlp & (_ & _ & _ & Hsub) & _) & _ & _ & Hlenc & _ & _ & Hnp & _).
        rewrite Hlp, Hlenc, Hnp. repeat split; try done; lia.
    + rewrite Hmain, (bind_Exit _ _ _ _ _ Hpipes).
      cbn [fst snd progs fds npipes children emit].
      destruct Hp as (Hlp & _ & (_ & _ & _ & Hsub) & _ & Hnp & _ & _ & Hch & _).
      rewrite Hlp, Hnp, Hch. cbn. repeat split; try done; lia.
  - pose proof (tokens_groups cl_argv Hlen) as Hne. fold gs in Hne.
    destruct (parse_command_line_boot MAX_NUM_PROGRAMS cl_argv t0 Hlen) as [Hr _].
    destruct (parse_command_line_progs MAX_NUM_PROGRAMS cl_argv t0)
      as (k & Hk & _ & Hpk).
    fold gs in Hr, Hpk.
    destruct (classify MAX_NUM_PROGRAMS 0 gs) eqn:Hv.
    { exfalso. apply Hrej.
      by apply (classify_iff MAX_NUM_PROGRAMS 0 gs ltac:(lia) Hne). }
    all: rewrite (main_parse_failed os cl_argv t0 _ _ Hlen Hr);
      cbn [fst snd progs fds npipes children];
      rewrite Hpk, length_map, length_take; repeat split; try done;
      cbn [length]; lia.
Qed.

(** X18.  In every run of [main], whatever the command line and the
    behaviour of the system, each descriptor the orchestrator was started
    with is still open, and still the same file, when [main] stops: the
    orchestrator closes and redirects only descriptors of pipes it has
    made.  When [main] returns, its descriptor table is exactly the one it
    was started with. *)
Theorem main_keeps_descriptors os (cl_argv : list string) t0 :
  let r := main os cl_argv (boot t0) in
  (∀ fd f, t0 !! fd = Some f → fds r.2 !! fd = Some f) ∧
  (∀ v, r.1 = Ret v → fds r.2 = t0).
Proof.
  intros r. destruct (main_all_runs os cl_argv t0) as (Hsub & Hret & _).
  split; [|exact Hret].
  intros fd f Hf. by eapply lookup_weaken.
Qed.

(** X19.  In every run of [main] the resources used stay within the
    bounds of the array: at most [MAX_NUM_PROGRAMS] entries are
    initialised, the pipes created are at most one fewer than the entries
    (none when there is no entry), and the processes forked are no more
    than the entries and than the system allows. *)
Theorem main_bounded os (cl_argv : list string) t0 :
  let r := main os cl_argv (boot t0) in
  (length (progs r.2) ≤ MAX_NUM_PROGRAMS)%nat ∧
  (npipes r.2 ≤ length (progs r.2) - 1)%nat ∧
  (npipes r.2 ≤ MAX_NUM_PROGRAMS - 1)%nat ∧
  (length (children r.2) ≤ length (progs r.2))%nat ∧
  (length (children r.2) ≤ MAX_NUM_PROGRAMS)%nat ∧
  (length (children r.2) ≤ nproc os)%nat.
Proof.
  intros r. destruct (main_all_runs os cl_argv t0) as (_ & _ & H1 & H2 & H3 & H4).
  fold r in H1, H2, H3, H4. repeat split; try done; lia.
Qed.
